(** * Gas-comparison scripts: a shallow embedding and its properties

    The repository is a set of Python scripts (under [scripts/]) that compare
    the gas used per transaction as printed in an Erigon debug log with the
    values a public JSON-RPC endpoint returns.  This file embeds the three
    pieces of logic the scripts share:

    - the log parsers ([compare_erigon_log.parse_erigon_log],
      [find_diff_tx.parse_erigon_log], [compare_all_gas.parse_erigon_output]),
      built on a backtracking matcher for the regular expressions they use;
    - the comparators (the loops of the three [main] functions);
    - the RPC helpers and the JSON cache file;

    and, around them, the [main] function of each of the seven scripts, as
    a computation on the replies of the endpoint, the terminal and the
    files.

    Python dictionaries keyed by integers are [gmap Z _]; Python integers are
    [Z]; text is a list of characters.  The pauses between two requests
    ([time.sleep]) change nothing a script computes, sends or prints, and
    are left out.

    The embedding stops short of the interpreter in three places.

    - The conversions between integers and decimal text ([int(s)],
      [str(n)], a field of an f-string, [json.dump], [json.load]) are
      total here; the interpreter raises [ValueError] beyond 4300 digits.
      A statement that depends on it carries the bound ([printable],
      [modest], the length of a group or of a key) or allows for the
      [ValueError].
    - [text_files] gives the text of a file; on a file whose bytes do not
      decode the interpreter raises [UnicodeDecodeError], a [ValueError].
    - The cache file, when it exists, is a JSON object with integer
      values, which is how [find_diff_tx.py] writes it. *)

From Stdlib Require Import ZArith Ascii String.
From Stdlib Require Import DecimalString HexadecimalString DecimalPos.
From stdpp Require Import base tactics option list sorting gmap strings.

Local Open Scope Z_scope.

#[local] Set Warnings "-register-all,-clear-no-such-hyp".

(** ** Text *)

(** Log text.  Characters are the code points below 256; on them Python's
    [\d] is the class [0-9] and [.] is every character but the line feed. *)
Abbreviation text := (list ascii).

Definition txt (s : string) : text := list_ascii_of_string s.

Definition LF : ascii := "010"%char.
Definition CR : ascii := "013"%char.

Definition is_newline (c : ascii) : bool := Ascii.eqb c LF.

Definition is_digit (c : ascii) : bool :=
  (48 <=? nat_of_ascii c)%nat && (nat_of_ascii c <=? 57)%nat.

Definition digit_value (c : ascii) : Z := Z.of_nat (nat_of_ascii c) - 48.

(** [int(s)] on a run of decimal digits, of 4300 digits at most: on a
    longer one the interpreter raises [ValueError]. *)
Definition int_of_digits (ds : text) : Z :=
  fold_left (fun acc d => 10 * acc + digit_value d) ds 0.

(** ** Regular expressions

    The two patterns of the scripts are
    [txIndex=(\d+).*?gasUsed=(\d+)] and [txIndex=(\d+).*gasUsed=(\d+)].
    They are sequences of four kinds of item. *)
Inductive re_item : Type :=
  | Lit (c : ascii)      (* a literal character *)
  | DigitsGroup          (* (\d+) : one or more digits, greedy, captured *)
  | AnyLazy              (* .*?   : as few characters as possible *)
  | AnyGreedy.           (* .*    : as many characters as possible *)

Abbreviation regex := (list re_item).

Definition lits (s : string) : regex := Lit <$> txt s.

(** A successful match: the captured groups, in order, and the number of
    characters the match spans. *)
Abbreviation match_result := (list text * nat)%type.

Definition advance (r : option match_result) : option match_result :=
  match r with
  | Some (caps, n) => Some (caps, S n)
  | None => None
  end.

Definition or_else (r1 r2 : option match_result) : option match_result :=
  match r1 with
  | Some r => Some r
  | None => r2
  end.

(** [\d+] followed by the continuation [k]: the longest run of digits is
    tried first, then shorter ones. *)
Fixpoint match_digits (k : text → option match_result) (s : text)
    : option (text * match_result) :=
  match s with
  | d :: s' =>
      if is_digit d then
        match match_digits k s' with
        | Some (g, (caps, n)) => Some (d :: g, (caps, S n))
        | None =>
            match k s' with
            | Some (caps, n) => Some ([d], (caps, S n))
            | None => None
            end
        end
      else None
  | [] => None
  end.

(** [.*?] followed by [k]: the continuation is tried before a character is
    consumed. *)
Fixpoint match_any_lazy (k : text → option match_result) (s : text)
    : option match_result :=
  or_else (k s)
    match s with
    | c :: s' => if is_newline c then None else advance (match_any_lazy k s')
    | [] => None
    end.

(** [.*] followed by [k]: characters are consumed up to the end of the line
    and given back one at a time. *)
Fixpoint match_any_greedy (k : text → option match_result) (s : text)
    : option match_result :=
  match s with
  | c :: s' =>
      if is_newline c then k s
      else or_else (advance (match_any_greedy k s')) (k s)
  | [] => k s
  end.

(** The pattern matched at the start of [s] (the engine's backtracking
    search, anchored). *)
Fixpoint match_here (p : regex) : text → option match_result :=
  match p with
  | [] => fun _ => Some ([], 0%nat)
  | Lit c :: p' => fun s =>
      match s with
      | c' :: s' => if Ascii.eqb c c' then advance (match_here p' s') else None
      | [] => None
      end
  | DigitsGroup :: p' => fun s =>
      match match_digits (match_here p') s with
      | Some (g, (caps, n)) => Some (g :: caps, n)
      | None => None
      end
  | AnyLazy :: p' => match_any_lazy (match_here p')
  | AnyGreedy :: p' => match_any_greedy (match_here p')
  end.

(** [re.search]: the match at the leftmost position that has one. *)
Fixpoint re_search (p : regex) (s : text) : option match_result :=
  or_else (match_here p s)
    match s with
    | _ :: s' => re_search p s'
    | [] => None
    end.

(** [re.finditer]: all matches from left to right, each search starting
    where the previous match ended.  [skip] counts the characters of the
    last match that are still to be passed over. *)
Fixpoint finditer_from (p : regex) (skip : nat) (s : text) : list match_result :=
  match skip with
  | S k =>
      match s with
      | _ :: s' => finditer_from p k s'
      | [] => []
      end
  | O =>
      match match_here p s with
      | Some (caps, n) =>
          (caps, n) ::
          match s with
          | _ :: s' => finditer_from p (pred n) s'
          | [] => []
          end
      | None =>
          match s with
          | _ :: s' => finditer_from p 0 s'
          | [] => []
          end
      end
  end.

Definition re_finditer (p : regex) (s : text) : list match_result :=
  finditer_from p 0 s.

(** The two patterns. *)
Definition pattern_lazy : regex :=
  lits "txIndex=" ++ [DigitsGroup; AnyLazy] ++ lits "gasUsed=" ++ [DigitsGroup].

Definition pattern_greedy : regex :=
  lits "txIndex=" ++ [DigitsGroup; AnyGreedy] ++ lits "gasUsed=" ++ [DigitsGroup].

(** [match.group(1)] and [match.group(2)]. *)
Definition group (i : nat) (m : match_result) : text :=
  default [] (m.1 !! pred i).

(** [(int(match.group(1)), int(match.group(2)))]. *)
Definition index_and_gas (m : match_result) : Z * Z :=
  (int_of_digits (group 1 m), int_of_digits (group 2 m)).

(** ** Files *)

(** Universal-newline translation of a text-mode [open(filename, 'r')]. *)
Fixpoint universal_newlines (s : text) : text :=
  match s with
  | [] => []
  | c :: s' =>
      if Ascii.eqb c CR then
        LF :: match s' with
              | c' :: s'' => if Ascii.eqb c' LF then universal_newlines s''
                             else universal_newlines s'
              | [] => []
              end
      else c :: universal_newlines s'
  end.

(** [for line in f]: the lines of the text, each with its line feed. *)
Fixpoint file_lines (s : text) : list text :=
  match s with
  | [] => []
  | c :: s' =>
      if is_newline c then [c] :: file_lines s'
      else match file_lines s' with
           | [] => [[c]]
           | l :: ls => (c :: l) :: ls
           end
  end.

Definition read_lines (content : text) : list text :=
  file_lines (universal_newlines content).

(** ** The comparison loop *)

(** One element of [differences]: the tuple
    [(i, e_gas, r_gas, diff, cumulative_diff)]. *)
Record diff_entry : Type := DiffEntry {
  d_index : Z;
  d_erigon : Z;
  d_rpc : Z;
  d_diff : Z;
  d_cumul : Z
}.

(** [sorted(...)] on integers. *)
Definition sorted (keys : list Z) : list Z := merge_sort Z.le keys.

(** The body of the comparison loop, the same in [compare_erigon_log.py]
    and [find_diff_tx.py].  The state is [(differences, cumulative_diff)]. *)
Definition compare_at (erigon_gas rpc_gas : gmap Z Z)
    (st : list diff_entry * Z) (i : Z) : list diff_entry * Z :=
  let '(differences, cumulative_diff) := st in
  match erigon_gas !! i, rpc_gas !! i with
  | Some e_gas, Some r_gas =>
      let diff := e_gas - r_gas in
      if decide (diff ≠ 0) then
        let cumulative_diff := cumulative_diff + diff in
        (differences ++ [DiffEntry i e_gas r_gas diff cumulative_diff],
         cumulative_diff)
      else st
  | _, _ => st
  end.

Definition compare_over (keys : list Z) (erigon_gas rpc_gas : gmap Z Z)
    : list diff_entry * Z :=
  fold_left (compare_at erigon_gas rpc_gas) keys ([], 0).

(** ** Python built-ins on integers and strings *)

(** [str(n)] for an integer, also the key [json.dump] writes for it.  This
    is for an integer of 4300 digits at most: on a longer one the
    interpreter raises [ValueError]. *)
Definition py_str (n : Z) : string :=
  DecimalString.NilZero.string_of_int (Z.to_int n).

(** [hex(n)]. *)
Definition py_hex (n : Z) : string :=
  match Z.to_hex_int n with
  | Hexadecimal.Pos d => "0x" +:+ HexadecimalString.NilZero.string_of_uint d
  | Hexadecimal.Neg d => "-0x" +:+ HexadecimalString.NilZero.string_of_uint d
  end.

(** White space as [str.strip()] sees it. *)
Definition is_space (c : ascii) : bool :=
  let n := nat_of_ascii c in
  ((9 <=? n) && (n <=? 13) || (28 <=? n) && (n <=? 32) ||
   (n =? 133) || (n =? 160))%nat.

(** White space as [int()] sees it: the separators 28 to 31 are not. *)
Definition is_int_space (c : ascii) : bool :=
  let n := nat_of_ascii c in
  ((9 <=? n) && (n <=? 13) || (n =? 32) || (n =? 133) || (n =? 160))%nat.

Fixpoint lstrip (space : ascii → bool) (s : text) : text :=
  match s with
  | c :: s' => if space c then lstrip space s' else s
  | [] => []
  end.

Definition strip_with (space : ascii → bool) (s : text) : text :=
  reverse (lstrip space (reverse (lstrip space s))).

(** [s.strip()] *)
Definition strip (s : text) : text := strip_with is_space s.

(** The value of a character as a digit of the base, if it is one. *)
Definition digit_in_base (base : Z) (c : ascii) : option Z :=
  let n := Z.of_nat (nat_of_ascii c) in
  let v := if (48 <=? n) && (n <=? 57) then Some (n - 48)
           else if (97 <=? n) && (n <=? 122) then Some (n - 87)
           else if (65 <=? n) && (n <=? 90) then Some (n - 55)
           else None in
  match v with
  | Some d => if d <? base then Some d else None
  | None => None
  end.

(** Digits with single underscores between them; [prev] tells whether the
    previous character was a digit. *)
Fixpoint parse_digits (base acc : Z) (prev : bool) (s : text) : option Z :=
  match s with
  | [] => if prev then Some acc else None
  | c :: s' =>
      if Ascii.eqb c "_" then
        if prev then parse_digits base acc false s' else None
      else
        match digit_in_base base c with
        | Some d => parse_digits base (base * acc + d) true s'
        | None => None
        end
  end.

(** An optional [0x] or [0X], which [int(s, 16)] accepts. *)
Definition skip_hex_prefix (s : text) : text * bool :=
  match s with
  | c0 :: cx :: s' =>
      if Ascii.eqb c0 "0" && (Ascii.eqb cx "x" || Ascii.eqb cx "X")
      then (s', true) else (s, false)
  | _ => (s, false)
  end.

Definition parse_unsigned (base : Z) (s : text) : option Z :=
  if decide (base = 16) then
    let '(s', prefixed) := skip_hex_prefix s in
    match s' with
    | c :: s'' =>
        if prefixed && Ascii.eqb c "_" then parse_digits base 0 false s''
        else parse_digits base 0 false s'
    | [] => None
    end
  else parse_digits base 0 false s.

(** [int(s, base)] on a string; [None] is [ValueError].  In base 10 the
    interpreter also refuses a string of more than 4300 digits; in base
    16 it has no such limit. *)
Definition parse_int (base : Z) (s : string) : option Z :=
  match strip_with is_int_space (txt s) with
  | c :: s' =>
      if Ascii.eqb c "-" then Z.opp <$> parse_unsigned base s'
      else if Ascii.eqb c "+" then parse_unsigned base s'
      else parse_unsigned base (c :: s')
  | [] => None
  end.

(** ** Python values, exceptions, and the world *)

(** The values [json.loads] produces.  A dictionary is the list of its
    items in insertion order, with pairwise distinct keys.  Numbers are
    integers: the scripts read nothing but strings and lists from a
    response. *)
Inductive pyval : Type :=
  | PNone
  | PBool (b : bool)
  | PInt (z : Z)
  | PStr (s : string)
  | PList (l : list pyval)
  | PDict (d : list (string * pyval)).

Inductive exn : Type :=
  | URLError            (* any failure of [urlopen] or of reading the body *)
  | JSONDecodeError
  | KeyError
  | IndexError
  | TypeError
  | AttributeError
  | ValueError          (* also [UnicodeDecodeError], which is one *)
  | FileNotFoundError
  | SystemExit (code : Z).

Inductive outcome (A : Type) : Type :=
  | Ok (a : A)
  | Raise (e : exn).
Arguments Ok {A} a.
Arguments Raise {A} e.

(** What one HTTP request meets. *)
Inductive reply : Type :=
  | HttpFailure                (* [urlopen] raises *)
  | BadBody                    (* the body is not JSON: [json.loads] raises *)
  | Body (data : pyval).       (* the body decodes to [data] *)

(** A JSON-RPC request: [method] and [params] of the payload. *)
Record request : Type := Request {
  rq_method : string;
  rq_params : list pyval
}.

(** An interpolated value of a printed f-string. *)
Inductive fmt_arg : Type :=
  | FInt (z : Z)
  | FStr (s : string)
  | FVal (v : pyval)
  | FExn (e : exn).

(** One [print]: the text of the f-string and the values of its fields. *)
Record line : Type := Line {
  template : string;
  fields : list fmt_arg
}.

(** The receipt [compare_all_gas.py] keeps for a transaction. *)
Record receipt : Type := Receipt {
  r_gasUsed : Z;
  r_cumulativeGas : Z;
  r_hash : pyval
}.

(** What the scripts read and change.  [network] lists what the coming
    HTTP requests will meet, in order (an exhausted list is an unreachable
    endpoint); [rpc_cache] is the file [rpc_gas_23800003.json], a JSON
    object with integer values when it exists. *)
Record world : Type := World {
  network : list reply;
  requests : list request;
  stdin : list text;
  text_files : gmap string text;
  rpc_cache : option (list (string * Z));
  rpc_receipts : option (list (string * receipt));
  console : list line
}.

Definition M (A : Type) : Type := world → outcome A * world.

#[global] Instance M_ret : MRet M := λ A a w, (Ok a, w).

#[global] Instance M_bind : MBind M := λ A B f m w,
  match m w with
  | (Ok a, w') => f a w'
  | (Raise e, w') => (Raise e, w')
  end.

Definition raise {A} (e : exn) : M A := λ w, (Raise e, w).

Definition lift {A} (r : outcome A) : M A := λ w, (r, w).

(** [try: body  except: handler] *)
Definition try_except {A} (body : M A) (handler : exn → M A) : M A := λ w,
  match body w with
  | (Ok a, w') => (Ok a, w')
  | (Raise e, w') => handler e w'
  end.

(** [except Exception] lets [SystemExit] through. *)
Definition is_Exception (e : exn) : bool :=
  match e with
  | SystemExit _ => false
  | _ => true
  end.

Definition try_except_Exception {A} (body : M A) (handler : exn → M A) : M A :=
  try_except body (λ e, if is_Exception e then handler e else raise e).

(** The world after one more line on the console. *)
Definition say (l : line) (w : world) : world :=
  World (network w) (requests w) (stdin w) (text_files w)
    (rpc_cache w) (rpc_receipts w) (console w ++ [l]).

(** [print(f"...")].  An integer field of more than 4300 digits makes the
    interpreter raise [ValueError] in place of printing. *)
Definition print (t : string) (a : list fmt_arg) : M unit := λ w,
  (Ok tt, say (Line t a) w).

Arguments say : simpl never.

(** [for x in l: s = body(s, x)] *)
Fixpoint for_each {A S} (body : S → A → M S) (s : S) (l : list A) : M S :=
  match l with
  | [] => mret s
  | x :: l' => s' ← body s x; for_each body s' l'
  end.

(** [enumerate(l)] *)
Definition enumerate {A} (l : list A) : list (Z * A) :=
  imap (λ i x, (Z.of_nat i, x)) l.

(** The world after [req] was sent and the next reply consumed. *)
Definition sent (req : request) (w : world) : world :=
  World (tail (network w)) (requests w ++ [req]) (stdin w) (text_files w)
    (rpc_cache w) (rpc_receipts w) (console w).

Arguments sent : simpl never.

(** [urlopen(req)] followed by [json.loads(response.read().decode())]. *)
Definition urlopen_json (req : request) : M pyval := λ w,
  match network w with
  | [] => (Raise URLError, sent req w)
  | HttpFailure :: _ => (Raise URLError, sent req w)
  | BadBody :: _ => (Raise JSONDecodeError, sent req w)
  | Body data :: _ => (Ok data, sent req w)
  end.

(** [open(filename, 'r')] and reading the whole text, for a file that
    decodes. *)
Definition read_text (filename : string) : M text := λ w,
  match text_files w !! filename with
  | Some content => (Ok content, w)
  | None => (Raise FileNotFoundError, w)
  end.

(** *** Operations on values *)

Fixpoint assoc (k : string) (d : list (string * pyval)) : option pyval :=
  match d with
  | [] => None
  | (k', v) :: d' => if String.eqb k k' then Some v else assoc k d'
  end.

Arguments assoc : simpl never.

(** [v[k]] for a string [k]. *)
Definition subscript (v : pyval) (k : string) : outcome pyval :=
  match v with
  | PDict d => match assoc k d with Some x => Ok x | None => Raise KeyError end
  | _ => Raise TypeError
  end.

(** [v.get(k)] and [v.get(k, dflt)]. *)
Definition dict_get (v : pyval) (k : string) (dflt : pyval) : outcome pyval :=
  match v with
  | PDict d => Ok (default dflt (assoc k d))
  | _ => Raise AttributeError
  end.

(** [v[i]] for an integer [i]. *)
Definition index (v : pyval) (i : nat) : outcome pyval :=
  match v with
  | PList l => match l !! i with Some x => Ok x | None => Raise IndexError end
  | PStr s => match txt s !! i with
              | Some c => Ok (PStr (String c EmptyString))
              | None => Raise IndexError
              end
  | PDict _ => Raise KeyError
  | _ => Raise TypeError
  end.

(** [bool(v)] *)
Definition truthy (v : pyval) : bool :=
  match v with
  | PNone => false
  | PBool b => b
  | PInt z => negb (z =? 0)
  | PStr s => negb (String.eqb s "")
  | PList l => match l with [] => false | _ => true end
  | PDict d => match d with [] => false | _ => true end
  end.

(** [len(v)] *)
Definition py_len (v : pyval) : outcome nat :=
  match v with
  | PStr s => Ok (String.length s)
  | PList l => Ok (length l)
  | PDict d => Ok (length d)
  | _ => Raise TypeError
  end.

(** The items [for x in v] visits. *)
Definition py_iter (v : pyval) : outcome (list pyval) :=
  match v with
  | PStr s => Ok ((λ c, PStr (String c EmptyString)) <$> txt s)
  | PList l => Ok l
  | PDict d => Ok ((λ kv, PStr kv.1) <$> d)
  | _ => Raise TypeError
  end.

(** [int(v, 16)] *)
Definition int16 (v : pyval) : outcome Z :=
  match v with
  | PStr s => match parse_int 16 s with Some z => Ok z | None => Raise ValueError end
  | _ => Raise TypeError
  end.

(** The payload of the three requests the scripts send. *)
Definition eth_getBlockByNumber (block_num : Z) (full : bool) : request :=
  Request "eth_getBlockByNumber" [PStr (py_hex block_num); PBool full].

Definition eth_getTransactionReceipt (tx_hash : pyval) : request :=
  Request "eth_getTransactionReceipt" [tx_hash].

(** ** Dictionaries and the JSON files *)

(** The items of a dictionary that was filled in ascending key order, as
    the dictionaries of receipts are ([for i, tx_hash in enumerate(...)]). *)
Definition dict_items {A} (m : gmap Z A) : list (Z * A) :=
  omap (λ i, pair i <$> m !! i) (sorted (elements (dom m))).

(** [d[k] = v] on a dictionary with string keys, kept as its list of items. *)
Fixpoint dict_set {A} (k : string) (v : A) (d : list (string * A))
    : list (string * A) :=
  match d with
  | [] => [(k, v)]
  | (k', v') :: d' =>
      if String.eqb k k' then (k, v) :: d' else (k', v') :: dict_set k v d'
  end.

(** [json.dump(d, f)] for a dictionary with integer keys: the members of
    the JSON object written, the keys turned into strings.  On an integer
    of more than 4300 digits, key or value, the interpreter raises
    [ValueError] and leaves the file unfinished. *)
Definition json_dump {A} (d : gmap Z A) : list (string * A) :=
  prod_map py_str id <$> dict_items d.

(** [json.load(f).items()] on the members of a JSON object: a repeated
    name keeps its first place and its last value.  (On a file with a
    number of more than 4300 digits [json.load] raises [ValueError].) *)
Definition json_load {A} (members : list (string * A)) : list (string * A) :=
  fold_left (λ d kv, dict_set kv.1 kv.2 d) members [].

(** [sum(d.values())] *)
Definition sum_values (d : gmap Z Z) : Z :=
  foldr (λ kv acc, kv.2 + acc) 0 (map_to_list d).

(** The world after [rpc_gas_23800003.json] was written. *)
Definition with_rpc_cache (members : list (string * Z)) (w : world) : world :=
  World (network w) (requests w) (stdin w) (text_files w)
    (Some members) (rpc_receipts w) (console w).

(** The world after [rpc_receipts.json] was written. *)
Definition with_rpc_receipts (members : list (string * receipt)) (w : world)
    : world :=
  World (network w) (requests w) (stdin w) (text_files w)
    (rpc_cache w) (Some members) (console w).

Arguments with_rpc_cache : simpl never.
Arguments with_rpc_receipts : simpl never.

Definition write_rpc_cache (members : list (string * Z)) : M unit := λ w,
  (Ok tt, with_rpc_cache members w).

Definition write_rpc_receipts (members : list (string * receipt)) : M unit := λ w,
  (Ok tt, with_rpc_receipts members w).

(** [sep.join(lines)] *)
Fixpoint join (sep : text) (lines : list text) : text :=
  match lines with
  | [] => []
  | [l] => l
  | l :: ls => l ++ sep ++ join sep ls
  end.

(** ** Strings and slices *)

(** [c.lower()] for a character below 256: the capital letters of ASCII
    and those of Latin-1 move up by 32, the others stay. *)
Definition lower_char (c : ascii) : ascii :=
  let n := nat_of_ascii c in
  if ((65 <=? n) && (n <=? 90) || (192 <=? n) && (n <=? 222) && negb (n =? 215))%nat
  then ascii_of_nat (n + 32) else c.

Definition lower (s : string) : string :=
  string_of_list_ascii (lower_char <$> txt s).

(** [v.lower()]: only a string has the method. *)
Definition py_lower (v : pyval) : outcome string :=
  match v with
  | PStr s => Ok (lower s)
  | _ => Raise AttributeError
  end.

(** [v[:n]]: the first [n] characters or items; a dictionary refuses the
    slice as a key with a [TypeError] (a [KeyError] from Python 3.12 on). *)
Definition slice_to (n : nat) (v : pyval) : outcome pyval :=
  match v with
  | PStr s => Ok (PStr (string_of_list_ascii (take n (txt s))))
  | PList l => Ok (PList (take n l))
  | _ => Raise TypeError
  end.

(** * The scripts *)

(** ** [check_delegation.py] *)
Module CheckDelegation.

Definition rpc_call (method : string) (params : list pyval) : M pyval :=
  try_except_Exception
    (data ← urlopen_json (Request method params);
     lift (dict_get data "result" PNone))
    (λ e, print "Error: {e}" [FExn e];; mret PNone).

(** The triples [(i, field, tx["hash"])] of [found_refs] and
    [found_deleg]. *)
Definition reference : Type := Z * string * pyval.

(** One round of [for i, auth in enumerate(auth_list)]. *)
Definition record_auth (delegation_addresses : list pyval) (item : Z * pyval)
    : M (list pyval) :=
  let '(i, auth) := item in
  addr ← lift (dict_get auth "address" (PStr "N/A"));
  let delegation_addresses := delegation_addresses ++ [addr] in
  print "  [{i}] address={addr}" [FInt i; FVal addr];;
  chainId ← lift (dict_get auth "chainId" (PStr "N/A"));
  print "      chainId={auth.get('chainId', 'N/A')}" [FVal chainId];;
  nonce ← lift (dict_get auth "nonce" (PStr "N/A"));
  print "      nonce={auth.get('nonce', 'N/A')}" [FVal nonce];;
  mret delegation_addresses.

(** [if tx.get(field, "").lower() == address.lower():
       found.append((i, field, tx["hash"]))],
    where [address] is [tx79["from"]] or [deleg_addr], evaluated after the
    left-hand side of the comparison. *)
Definition note_ref (address : M pyval) (i : Z) (tx : pyval) (field : string)
    (found : list reference) : M (list reference) :=
  a ← lift (dict_get tx field (PStr ""));
  a ← lift (py_lower a);
  b ← address;
  b ← lift (py_lower b);
  if String.eqb a b then
    hash ← lift (subscript tx "hash");
    mret (found ++ [(i, field, hash)])
  else mret found.

(** One round of [for i, tx in enumerate(block3["transactions"])]. *)
Definition note_refs (address : M pyval) (found : list reference)
    (item : Z * pyval) : M (list reference) :=
  let '(i, tx) := item in
  found ← note_ref address i tx "from" found;
  note_ref address i tx "to" found.

Definition find_refs (block3 : pyval) (address : M pyval) : M (list reference) :=
  txs ← lift (subscript block3 "transactions");
  items ← lift (py_iter txs);
  for_each (note_refs address) [] (enumerate items).

(** One round of [for deleg_addr in delegation_addresses]. *)
Definition check_delegation_address (block3 : pyval) (deleg_addr : pyval)
    : M unit :=
  found_deleg ← find_refs block3 (mret deleg_addr);
  match found_deleg with
  | [] => print "No references to {deleg_addr}" [FVal deleg_addr]
  | _ =>
      print "Found {len(found_deleg)} references to {deleg_addr}:"
        [FInt (Z.of_nat (length found_deleg)); FVal deleg_addr];;
      for_each (λ _ '(idx, field, hash),
          h ← lift (slice_to 20 hash);
          print "  TX {idx}: {field}, hash={hash[:20]}..."
            [FInt idx; FStr field; FVal h])
        tt found_deleg
  end.

Definition main : M unit :=
  print "=== Block 23800001 Type=4 Transaction (TX 79) ===" [];;
  block ← rpc_call "eth_getBlockByNumber" [PStr (py_hex 23800001); PBool true];
  if negb (truthy block) then print "Failed to get block" []
  else
    txs ← lift (subscript block "transactions");
    tx79 ← lift (index txs 79);
    tx_hash ← lift (subscript tx79 "hash");
    print "Hash: {tx_hash}" [FVal tx_hash];;
    from ← lift (subscript tx79 "from");
    print "From: {tx79['from']}" [FVal from];;
    to ← lift (dict_get tx79 "to" (PStr "None"));
    print "To: {tx79.get('to', 'None')}" [FVal to];;
    ty ← lift (subscript tx79 "type");
    ty ← lift (int16 ty);
    print "Type: {int(tx79['type'], 16)}" [FInt ty];;
    auth_list ← lift (dict_get tx79 "authorizationList" (PList []));
    n ← lift (py_len auth_list);
    print "Authorization List ({len(auth_list)} entries):" [FInt (Z.of_nat n)];;
    auths ← lift (py_iter auth_list);
    delegation_addresses ← for_each record_auth [] (enumerate auths);
    receipt ← rpc_call "eth_getTransactionReceipt" [tx_hash];
    (if truthy receipt then
       print "\nReceipt:" [];;
       status ← lift (subscript receipt "status");
       status ← lift (int16 status);
       print "  Status: {int(receipt['status'], 16)}" [FInt status];;
       g ← lift (subscript receipt "gasUsed");
       g ← lift (int16 g);
       print "  GasUsed: {int(receipt['gasUsed'], 16)}" [FInt g];;
       c ← lift (subscript receipt "cumulativeGasUsed");
       c ← lift (int16 c);
       print "  CumulativeGas: {int(receipt['cumulativeGasUsed'], 16)}" [FInt c]
     else mret tt);;
    from ← lift (subscript tx79 "from");
    print "\n=== Checking Block 23800003 for references to {tx79['from']} ==="
      [FVal from];;
    block3 ← rpc_call "eth_getBlockByNumber" [PStr (py_hex 23800003); PBool true];
    if negb (truthy block3) then print "Failed to get block" []
    else
      found_refs ← find_refs block3 (lift (subscript tx79 "from"));
      match found_refs with
      | [] => print "No direct references found" []
      | _ =>
          print "Found {len(found_refs)} references:"
            [FInt (Z.of_nat (length found_refs))];;
          for_each (λ _ '(idx, field, hash),
              from ← lift (subscript tx79 "from");
              h ← lift (slice_to 20 hash);
              print "  TX {idx}: {field} = {tx79['from']}, hash={hash[:20]}..."
                [FInt idx; FStr field; FVal from; FVal h])
            tt found_refs
      end;;
      match delegation_addresses with
      | [] => mret tt
      | _ =>
          print "\n=== Checking Block 23800003 for delegation addresses ===" [];;
          for_each (λ _ deleg_addr, check_delegation_address block3 deleg_addr)
            tt delegation_addresses
      end.

End CheckDelegation.

(** ** [compare_gas_block.py] *)
Module CompareGasBlock.

Definition BLOCK_NUM : Z := 23800003.
Definition EXPECTED_TOTAL_GAS : Z := 26758527.
Definition ERIGON_TOTAL_GAS : Z := 26760656.
Definition GAS_DIFF : Z := ERIGON_TOTAL_GAS - EXPECTED_TOTAL_GAS.

Definition get_block_tx_hashes (block_num : Z) : M pyval :=
  returned ← try_except_Exception
    (data ← urlopen_json (eth_getBlockByNumber block_num false);
     r ← lift (dict_get data "result" PNone);
     if truthy r then
       result ← lift (subscript data "result");
       txs ← lift (subscript result "transactions");
       mret (Some txs)
     else mret None)
    (λ e, print "Error getting block: {e}" [FExn e];; mret None);
  mret (default (PList []) returned).

Record rpc_receipt : Type := RpcReceipt {
  gasUsed : Z;
  cumulativeGasUsed : Z;
  type : Z
}.

Definition get_receipt_from_rpc (tx_hash : pyval) : M (option rpc_receipt) :=
  try_except_Exception
    (data ← urlopen_json (eth_getTransactionReceipt tx_hash);
     r ← lift (dict_get data "result" PNone);
     if truthy r then
       result ← lift (subscript data "result");
       g ← lift (subscript result "gasUsed");
       g ← lift (int16 g);
       c ← lift (subscript result "cumulativeGasUsed");
       c ← lift (int16 c);
       t ← lift (dict_get result "type" (PStr "0x0"));
       t ← lift (int16 t);
       mret (Some (RpcReceipt g c t))
     else mret None)
    (λ e, mret None).

(** One round of [for idx in check_indices]. *)
Definition check (tx_hashes : pyval) (results : list (nat * rpc_receipt))
    (idx : nat) : M (list (nat * rpc_receipt)) :=
  tx_hash ← lift (index tx_hashes idx);
  receipt ← get_receipt_from_rpc tx_hash;
  match receipt with
  | Some r =>
      print "TX {idx:3d}: gasUsed={receipt['gasUsed']:8d}, cumulative={receipt['cumulativeGasUsed']:10d}, type={receipt['type']}"
        [FInt (Z.of_nat idx); FInt (gasUsed r); FInt (cumulativeGasUsed r);
         FInt (type r)];;
      mret (results ++ [(idx, r)])
  | None => mret results
  end.

Definition main : M unit :=
  print "Block {BLOCK_NUM} Gas Analysis" [FInt BLOCK_NUM];;
  print "Expected total gas (header): {EXPECTED_TOTAL_GAS}" [FInt EXPECTED_TOTAL_GAS];;
  print "Erigon computed total:       {ERIGON_TOTAL_GAS}" [FInt ERIGON_TOTAL_GAS];;
  print "Difference:                  {GAS_DIFF}" [FInt GAS_DIFF];;
  print "'-' * 100" [];;
  print "Fetching block transactions..." [];;
  tx_hashes ← get_block_tx_hashes BLOCK_NUM;
  n ← lift (py_len tx_hashes);
  print "Total transactions: {len(tx_hashes)}" [FInt (Z.of_nat n)];;
  print "'-' * 100" [];;
  if negb (truthy tx_hashes) then
    print "Failed to get transactions" []
  else
    let check_indices :=
      filter (λ i, i < n)%nat
        [0; 1; 2; 50; 100; 150; 200; 210; 215; 218; 219; 220]%nat in
    print "Checking selected transactions for cumulative gas (RPC value)..." [];;
    results ← for_each (check tx_hashes) [] check_indices;
    print "'-' * 100" [];;
    print "Getting last transaction (TX 220) cumulative gas from RPC..." [];;
    tx_hash ← lift (index tx_hashes 220);
    last_receipt ← get_receipt_from_rpc tx_hash;
    match last_receipt with
    | Some r =>
        print "TX 220: cumulative={last_receipt['cumulativeGasUsed']} (should equal header gas {EXPECTED_TOTAL_GAS})"
          [FInt (cumulativeGasUsed r); FInt EXPECTED_TOTAL_GAS];;
        print "Match: {last_receipt['cumulativeGasUsed'] == EXPECTED_TOTAL_GAS}"
          [FVal (PBool (bool_decide (cumulativeGasUsed r = EXPECTED_TOTAL_GAS)))]
    | None => mret tt
    end.

End CompareGasBlock.

(** ** [find_diff_tx.py] *)
Module FindDiffTx.

(** The body of [for i, tx_hash in enumerate(tx_hashes)]; [n] is
    [len(tx_hashes)]. *)
Definition fetch_receipt (n : nat) (rpc_gas : gmap Z Z) (item : Z * pyval)
    : M (gmap Z Z) :=
  let '(i, tx_hash) := item in
  rpc_gas ← try_except
    (data ← urlopen_json (eth_getTransactionReceipt tx_hash);
     r ← lift (dict_get data "result" PNone);
     if truthy r then
       result ← lift (subscript data "result");
       g ← lift (subscript result "gasUsed");
       g ← lift (int16 g);
       mret (<[i := g]> rpc_gas)
     else mret rpc_gas)
    (λ _, mret rpc_gas);
  (if decide (i `mod` 50 = 0)
   then print "  {i}/{len(tx_hashes)}..." [FInt i; FInt (Z.of_nat n)]
   else mret tt);;
  mret rpc_gas.

Definition get_block_receipts (block_num : Z) : M (gmap Z Z) :=
  data ← urlopen_json (eth_getBlockByNumber block_num false);
  result ← lift (subscript data "result");
  tx_hashes ← lift (subscript result "transactions");
  n ← lift (py_len tx_hashes);
  print "Fetching {len(tx_hashes)} receipts from RPC..." [FInt (Z.of_nat n)];;
  items ← lift (py_iter tx_hashes);
  for_each (fetch_receipt n) ∅ (enumerate items).

(** [parse_erigon_log(log_text)] *)
Definition record_match (erigon_gas : gmap Z Z) (m : match_result) : gmap Z Z :=
  let idx := int_of_digits (group 1 m) in
  let gas := int_of_digits (group 2 m) in
  <[idx := gas]> erigon_gas.

Definition parse_erigon_log (log_text : text) : gmap Z Z :=
  fold_left record_match (re_finditer pattern_lazy log_text) ∅.

(** The comparison loop of [main]:
    [for i in sorted(set(erigon_gas.keys()) | set(rpc_gas.keys()))]. *)
Definition compare (erigon_gas rpc_gas : gmap Z Z) : list diff_entry * Z :=
  compare_over (sorted (elements (dom erigon_gas ∪ dom rpc_gas)))
    erigon_gas rpc_gas.

(** The lines read from the terminal by [input()]: up to a blank line
    or the end of the input ([EOFError], which the loop catches). *)
Fixpoint read_pasted (input : list text) : list text * list text :=
  match input with
  | [] => ([], [])
  | line :: rest =>
      match strip line with
      | [] => ([], rest)
      | _ => let '(lines, rest') := read_pasted rest in (line :: lines, rest')
      end
  end.

Definition read_lines_from_stdin : M (list text) := λ w,
  let '(lines, rest) := read_pasted (stdin w) in
  (Ok lines, World (network w) (requests w) rest (text_files w)
               (rpc_cache w) (rpc_receipts w) (console w)).

Definition print_difference (d : diff_entry) : M unit :=
  print "*** TX {i}: Erigon={e_gas}, RPC={r_gas}, Diff={diff:+d}, CumulDiff={cumulative_diff:+d}"
    [FInt (d_index d); FInt (d_erigon d); FInt (d_rpc d); FInt (d_diff d);
     FInt (d_cumul d)].

Definition main : M unit :=
  print "Block 23800003 Gas Comparison Tool" [];;
  print "'=' * 60" [];;
  let block_num := 23800003 in
  print "\nStep 1: Fetching RPC receipts for block {block_num}..." [FInt block_num];;
  rpc_gas ← get_block_receipts block_num;
  print "Fetched {len(rpc_gas)} receipts from RPC" [FInt (Z.of_nat (size rpc_gas))];;
  write_rpc_cache (json_dump rpc_gas);;
  print "Saved RPC data to rpc_gas_23800003.json" [];;
  print "'\n' + '=' * 60" [];;
  print "Step 2: Paste Erigon debug log output below" [];;
  print "(Lines containing 'txIndex=... gasUsed=...')" [];;
  print "End input with empty line or Ctrl+D" [];;
  print "'-' * 60" [];;
  lines ← read_lines_from_stdin;
  let log_text := join [LF] lines in
  let erigon_gas := parse_erigon_log log_text in
  if decide (erigon_gas = ∅) then
    print "\nNo Erigon gas data parsed. Using saved RPC data only." [];;
    print "\nRPC gas values (first 20):" [];;
    for_each (λ _ i,
        match rpc_gas !! Z.of_nat i with
        | Some g => print "  TX {i}: {rpc_gas[i]}" [FInt (Z.of_nat i); FInt g]
        | None => mret tt
        end)
      tt (seq 0 (min 20 (size rpc_gas)))
  else
    print "\nParsed {len(erigon_gas)} transactions from Erigon log"
      [FInt (Z.of_nat (size erigon_gas))];;
    print "'\n' + '=' * 60" [];;
    print "Step 3: Comparing gas values..." [];;
    print "'-' * 60" [];;
    let '(differences, cumulative_diff) := compare erigon_gas rpc_gas in
    for_each (λ _ d, print_difference d) tt differences;;
    print "'\n' + '=' * 60" [];;
    print "Total differences found: {len(differences)}"
      [FInt (Z.of_nat (length differences))];;
    print "Total gas difference: {cumulative_diff}" [FInt cumulative_diff];;
    match differences with
    | [] => mret tt
    | _ =>
        print "\nSummary of differing transactions:" [];;
        for_each (λ _ d,
            print "  TX {idx}: diff={d:+d} (Erigon={e}, RPC={r})"
              [FInt (d_index d); FInt (d_diff d); FInt (d_erigon d);
               FInt (d_rpc d)])
          tt differences
    end.

End FindDiffTx.

(** ** [compare_erigon_log.py] *)
Module CompareErigonLog.

(** The body of [for line in f] in [parse_erigon_log]. *)
Definition parse_line (erigon_gas : gmap Z Z) (line : text) : gmap Z Z :=
  match re_search pattern_lazy line with
  | Some m =>
      let idx := int_of_digits (group 1 m) in
      let gas := int_of_digits (group 2 m) in
      <[idx := gas]> erigon_gas
  | None => erigon_gas
  end.

Definition parse_lines (lines : list text) : gmap Z Z :=
  fold_left parse_line lines ∅.

(** [parse_erigon_log] on the content of the file. *)
Definition parse_erigon_log (content : text) : gmap Z Z :=
  parse_lines (read_lines content).

Definition parse_erigon_log_file (filename : string) : M (gmap Z Z) :=
  content ← read_text filename;
  mret (parse_erigon_log content).

(** [{int(k): v for k, v in json.load(f).items()}] *)
Definition load_rpc_gas (members : list (string * Z)) : outcome (gmap Z Z) :=
  foldl (λ acc kv,
      match acc, parse_int 10 kv.1 with
      | Ok rpc_gas, Some k => Ok (<[k := kv.2]> rpc_gas)
      | Ok _, None => Raise ValueError
      | Raise e, _ => Raise e
      end)
    (Ok ∅) (json_load members).

(** The comparison loop of [main]: [for i in sorted(erigon_gas.keys())]. *)
Definition compare (erigon_gas rpc_gas : gmap Z Z) : list diff_entry * Z :=
  compare_over (sorted (elements (dom erigon_gas))) erigon_gas rpc_gas.

Definition print_difference (d : diff_entry) : M unit :=
  print "*** TX {i:3d}: Erigon={e_gas:8d}, RPC={r_gas:8d}, Diff={diff:+6d}, CumulDiff={cumulative_diff:+6d}"
    [FInt (d_index d); FInt (d_erigon d); FInt (d_rpc d); FInt (d_diff d);
     FInt (d_cumul d)].

Definition rpc_file : string := "rpc_gas_23800003.json".

(** [os.path.exists(rpc_file)] and, if so, the members of the JSON object
    in the file, once [json.load] has returned them; their values are
    integers. *)
Definition read_rpc_cache : M (option (list (string * Z))) := λ w,
  (Ok (rpc_cache w), w).

Definition main (argv : list string) : M unit :=
  match argv !! 1%nat with
  | None =>
      print "Usage: python3 compare_erigon_log.py <erigon_log_file>" [];;
      print "\nThe log file should contain lines like:" [];;
      print "[DEBUG] TX receipt txIndex=0 ... gasUsed=117778 ..." [];;
      raise (SystemExit 1)
  | Some erigon_file =>
      erigon_gas ← parse_erigon_log_file erigon_file;
      print "Parsed {len(erigon_gas)} transactions from Erigon log"
        [FInt (Z.of_nat (size erigon_gas))];;
      cache ← (λ w, (Ok (rpc_cache w), w));
      rpc_gas ← match cache with
        | Some members =>
            rpc_gas ← lift (load_rpc_gas members);
            print "Loaded {len(rpc_gas)} transactions from RPC cache"
              [FInt (Z.of_nat (size rpc_gas))];;
            mret rpc_gas
        | None =>
            print "RPC cache file not found: {rpc_file}" [FStr rpc_file];;
            print "Run scripts/find_diff_tx.py first to fetch RPC data" [];;
            mret ∅
        end;
      if decide (erigon_gas = ∅) then
        print "No Erigon gas data found!" []
      else
        let erigon_total := sum_values erigon_gas in
        print "\nErigon total gas: {erigon_total}" [FInt erigon_total];;
        if decide (rpc_gas ≠ ∅) then
          print "'\n' + '=' * 70" [];;
          print "Comparing Erigon vs RPC gas..." [];;
          print "'-' * 70" [];;
          let '(differences, cumulative_diff) := compare erigon_gas rpc_gas in
          for_each (λ _ d, print_difference d) tt differences;;
          print "'-' * 70" [];;
          print "Transactions with gas differences: {len(differences)}"
            [FInt (Z.of_nat (length differences))];;
          print "Total gas difference: {cumulative_diff}" [FInt cumulative_diff];;
          print "'\n' + '=' * 70" [];;
          print "Summary:" [];;
          print "  Erigon total gas:   {erigon_total}" [FInt erigon_total];;
          print "  Expected (header):  26758527" [];;
          print "  Difference:         {erigon_total - 26758527}"
            [FInt (erigon_total - 26758527)];;
          match differences with
          | d :: _ =>
              print "\nFirst transaction with difference:" [];;
              print "  TX {idx}: Erigon={e}, RPC={r}, Diff={d}"
                [FInt (d_index d); FInt (d_erigon d); FInt (d_rpc d);
                 FInt (d_diff d)]
          | [] => mret tt
          end
        else
          print "\nNo RPC data to compare. Showing Erigon gas only:" [];;
          for_each (λ _ i,
              match erigon_gas !! i with
              | Some g => print "  TX {i}: {erigon_gas[i]}" [FInt i; FInt g]
              | None => raise KeyError
              end)
            tt (take 20 (sorted (elements (dom erigon_gas))))
  end.

End CompareErigonLog.

(** ** [compare_all_gas.py] *)
Module CompareAllGas.

Definition BLOCK_NUM : Z := 23800003.

(** The body of [for i, tx_hash in enumerate(tx_hashes)]; [n] is
    [len(tx_hashes)]. *)
Definition fetch_receipt (n : nat) (receipts : gmap Z receipt)
    (item : Z * pyval) : M (gmap Z receipt) :=
  let '(i, tx_hash) := item in
  receipts ← try_except_Exception
    (data ← urlopen_json (eth_getTransactionReceipt tx_hash);
     r ← lift (dict_get data "result" PNone);
     if truthy r then
       result ← lift (subscript data "result");
       g ← lift (subscript result "gasUsed");
       g ← lift (int16 g);
       c ← lift (subscript result "cumulativeGasUsed");
       c ← lift (int16 c);
       mret (<[i := Receipt g c tx_hash]> receipts)
     else mret receipts)
    (λ e, print "Error fetching TX {i}: {e}" [FInt i; FExn e];; mret receipts);
  (if decide (i `mod` 20 = 0)
   then print "  Fetched {i}/{len(tx_hashes)}..." [FInt i; FInt (Z.of_nat n)]
   else mret tt);;
  mret receipts.

Definition get_all_receipts : M (gmap Z receipt) :=
  data ← urlopen_json (eth_getBlockByNumber BLOCK_NUM false);
  result ← lift (subscript data "result");
  tx_hashes ← lift (subscript result "transactions");
  n ← lift (py_len tx_hashes);
  print "Fetching {len(tx_hashes)} receipts from RPC..." [FInt (Z.of_nat n)];;
  items ← lift (py_iter tx_hashes);
  for_each (fetch_receipt n) ∅ (enumerate items).

(** The value [{"gasUsed": gas}] kept for a parsed line. *)
Record erigon_receipt : Type := ErigonReceipt { e_gasUsed : Z }.

(** The body of [for line in f] in [parse_erigon_output]. *)
Definition parse_line (erigon_receipts : gmap Z erigon_receipt) (line : text)
    : gmap Z erigon_receipt :=
  match re_search pattern_greedy line with
  | Some m =>
      let idx := int_of_digits (group 1 m) in
      let gas := int_of_digits (group 2 m) in
      <[idx := ErigonReceipt gas]> erigon_receipts
  | None => erigon_receipts
  end.

(** [parse_erigon_output] on the content of the file. *)
Definition parse_erigon_output (content : text) : gmap Z erigon_receipt :=
  fold_left parse_line (read_lines content) ∅.

Definition parse_erigon_output_file (filename : string)
    : M (gmap Z erigon_receipt) :=
  content ← read_text filename;
  mret (parse_erigon_output content).

(** The body of the comparison loop of [main]; the state is
    [(differences, total_diff)] and [None] stands for ["N/A"]. *)
Definition compare_at (erigon_receipts : gmap Z erigon_receipt)
    (rpc_receipts : gmap Z receipt) (st : list (Z * Z * Z * Z) * Z) (i : Z)
    : list (Z * Z * Z * Z) * Z :=
  let '(differences, total_diff) := st in
  let erigon_gas := e_gasUsed <$> erigon_receipts !! i in
  let rpc_gas := r_gasUsed <$> rpc_receipts !! i in
  match erigon_gas, rpc_gas with
  | Some erigon_gas, Some rpc_gas =>
      let diff := erigon_gas - rpc_gas in
      if decide (diff ≠ 0) then
        (differences ++ [(i, erigon_gas, rpc_gas, diff)], total_diff + diff)
      else st
  | _, _ => st
  end.

Definition compare (erigon_receipts : gmap Z erigon_receipt)
    (rpc_receipts : gmap Z receipt) : list (Z * Z * Z * Z) * Z :=
  fold_left (compare_at erigon_receipts rpc_receipts)
    (sorted (elements (dom erigon_receipts ∪ dom rpc_receipts))) ([], 0).

Definition main (argv : list string) : M unit :=
  match argv !! 1%nat with
  | None =>
      print "Usage: python3 compare_all_gas.py <erigon_output.txt>" [];;
      print "Or run without args to just fetch RPC receipts and save to file" [];;
      receipts ← get_all_receipts;
      print "\nFetched {len(receipts)} receipts" [FInt (Z.of_nat (size receipts))];;
      last ← match receipts !! 220 with
              | Some r => mret r
              | None => raise KeyError
              end;
      print "Total gas: {receipts[220]['cumulativeGas']}" [FInt (r_cumulativeGas last)];;
      write_rpc_receipts (json_dump receipts);;
      print "Saved to rpc_receipts.json" [];;
      print "\n--- RPC Gas Values (format: txIndex=N gasUsed=M) ---" [];;
      for_each (λ _ i,
          match receipts !! Z.of_nat i with
          | Some r =>
              print "txIndex={i} gasUsed={receipts[i]['gasUsed']}"
                [FInt (Z.of_nat i); FInt (r_gasUsed r)]
          | None => mret tt
          end)
        tt (seq 0 (size receipts))
  | Some erigon_file =>
      erigon_receipts ← parse_erigon_output_file erigon_file;
      print "Parsed {len(erigon_receipts)} receipts from Erigon output"
        [FInt (Z.of_nat (size erigon_receipts))];;
      rpc_receipts ← get_all_receipts;
      print "Fetched {len(rpc_receipts)} receipts from RPC"
        [FInt (Z.of_nat (size rpc_receipts))];;
      let '(differences, total_diff) := compare erigon_receipts rpc_receipts in
      print "\n=== Comparison Results ===" [];;
      print "Transactions with differences: {len(differences)}"
        [FInt (Z.of_nat (length differences))];;
      print "Total gas difference: {total_diff}" [FInt total_diff];;
      match differences with
      | [] => mret tt
      | _ =>
          print "\nDifferences:" [];;
          for_each (λ _ '(idx, erigon, rpc, diff),
              print "  TX {idx}: Erigon={erigon}, RPC={rpc}, Diff={diff:+d}"
                [FInt idx; FInt erigon; FInt rpc; FInt diff])
            tt differences
      end
  end.

End CompareAllGas.

(** ** [find_gas_diff.py] *)
Module FindGasDiff.

Definition BLOCK_NUM : Z := 23800003.

Definition get_block_tx_hashes (block_num : Z) : M pyval :=
  returned ← try_except_Exception
    (data ← urlopen_json (eth_getBlockByNumber block_num false);
     r ← lift (dict_get data "result" PNone);
     if truthy r then
       result ← lift (subscript data "result");
       txs ← lift (subscript result "transactions");
       mret (Some txs)
     else mret None)
    (λ e, print "Error getting block: {e}" [FExn e];; mret None);
  mret (default (PList []) returned).

(** The dictionary [get_receipt] returns. *)
Record rpc_receipt : Type := RpcReceipt {
  gasUsed : Z;
  cumulativeGasUsed : Z;
  from : pyval;
  to : pyval;
  type : Z
}.

Definition get_receipt (tx_hash : pyval) : M (option rpc_receipt) :=
  try_except_Exception
    (data ← urlopen_json (eth_getTransactionReceipt tx_hash);
     r ← lift (dict_get data "result" PNone);
     if truthy r then
       result ← lift (subscript data "result");
       g ← lift (subscript result "gasUsed");
       g ← lift (int16 g);
       c ← lift (subscript result "cumulativeGasUsed");
       c ← lift (int16 c);
       f ← lift (dict_get result "from" (PStr ""));
       t ← lift (dict_get result "to" (PStr ""));
       ty ← lift (dict_get result "type" (PStr "0x0"));
       ty ← lift (int16 ty);
       mret (Some (RpcReceipt g c f t ty))
     else mret None)
    (λ e, mret None).

(** The dictionary [get_tx_details] returns. *)
Record tx_details : Type := TxDetails {
  tx_type : Z;
  tx_from : pyval;
  tx_to : pyval;
  authorizationList : pyval
}.

Definition eth_getTransactionByHash (tx_hash : pyval) : request :=
  Request "eth_getTransactionByHash" [tx_hash].

Definition get_tx_details (tx_hash : pyval) : M (option tx_details) :=
  try_except_Exception
    (data ← urlopen_json (eth_getTransactionByHash tx_hash);
     r ← lift (dict_get data "result" PNone);
     if truthy r then
       result ← lift (subscript data "result");
       ty ← lift (dict_get result "type" (PStr "0x0"));
       ty ← lift (int16 ty);
       f ← lift (dict_get result "from" (PStr ""));
       t ← lift (dict_get result "to" (PStr ""));
       a ← lift (dict_get result "authorizationList" (PList []));
       mret (Some (TxDetails ty f t a))
     else mret None)
    (λ e, mret None).

Definition key_indices : list nat :=
  [0; 10; 20; 30; 40; 50; 75; 100; 125; 150; 175; 200; 210; 215; 220]%nat.

(** One round of [for idx in key_indices]. *)
Definition check_key (tx_hashes : pyval) (_ : unit) (idx : nat) : M unit :=
  n ← lift (py_len tx_hashes);
  if decide (n ≤ idx)%nat then mret tt
  else
    tx_hash ← lift (index tx_hashes idx);
    receipt ← get_receipt tx_hash;
    match receipt with
    | Some r =>
        print "TX {idx:3d}: RPC_cumulative={receipt['cumulativeGasUsed']:10d}, gasUsed={receipt['gasUsed']:8d}, type={receipt['type']}"
          [FInt (Z.of_nat idx); FInt (cumulativeGasUsed r); FInt (gasUsed r);
           FInt (type r)]
    | None => mret tt
    end.

(** One round of [for i, tx_hash in enumerate(tx_hashes)]. *)
Definition check_type4 (type4_txs : list (Z * pyval * tx_details))
    (item : Z * pyval) : M (list (Z * pyval * tx_details)) :=
  let '(i, tx_hash) := item in
  tx ← get_tx_details tx_hash;
  type4_txs ←
    match tx with
    | Some t =>
        if decide (tx_type t = 4) then
          let type4_txs := type4_txs ++ [(i, tx_hash, t)] in
          h ← lift (slice_to 20 tx_hash);
          print "Found type=4 TX at index {i}: {tx_hash[:20]}..." [FInt i; FVal h];;
          receipt ← get_receipt tx_hash;
          match receipt with
          | Some r =>
              print "  gasUsed={receipt['gasUsed']}, cumulative={receipt['cumulativeGasUsed']}"
                [FInt (gasUsed r); FInt (cumulativeGasUsed r)];;
              if truthy (authorizationList t) then
                n ← lift (py_len (authorizationList t));
                print "  authorizationList has {len(tx['authorizationList'])} entries"
                  [FInt (Z.of_nat n)]
              else mret tt
          | None => mret tt
          end;;
          mret type4_txs
        else mret type4_txs
    | None => mret type4_txs
    end;
  (if decide (i `mod` 20 = 0)
   then print "Checked {i} transactions..." [FInt i]
   else mret tt);;
  mret type4_txs.

Definition main : M unit :=
  print "Finding gas difference location in block 23800003" [];;
  print "'=' * 80" [];;
  print "Fetching transactions..." [];;
  tx_hashes ← get_block_tx_hashes BLOCK_NUM;
  n ← lift (py_len tx_hashes);
  print "Total transactions: {len(tx_hashes)}" [FInt (Z.of_nat n)];;
  print "\nPhase 1: Checking key positions..." [];;
  for_each (check_key tx_hashes) tt key_indices;;
  print "'\n' + '=' * 80" [];;
  print "Next steps:" [];;
  print "1. Add the Erigon cumulative gas values to ERIGON_CUMULATIVE dict" [];;
  print "2. Or compare Erigon debug log output directly" [];;
  print "\nLooking for type=4 (EIP-7702) transactions..." [];;
  items ← lift (py_iter tx_hashes);
  type4_txs ← for_each check_type4 [] (enumerate items);
  match type4_txs with
  | [] => print "\nNo type=4 transactions found in first 50" []
  | _ =>
      print "\nFound {len(type4_txs)} type=4 (EIP-7702) transactions in first 50"
        [FInt (Z.of_nat (length type4_txs))]
  end.

End FindGasDiff.

(** ** [check_type4.py] *)
Module CheckType4.

Definition get_block (block_num : Z) : M pyval :=
  try_except_Exception
    (data ← urlopen_json (eth_getBlockByNumber block_num true);
     r ← lift (dict_get data "result" PNone);
     if truthy r then lift (subscript data "result")
     else mret PNone)
    (λ e, print "Error getting block: {e}" [FExn e];; mret PNone).

(** One round of [for j, auth in enumerate(auth_list[:3])]. *)
Definition check_auth (_ : unit) (item : Z * pyval) : M unit :=
  let '(j, auth) := item in
  address ← lift (dict_get auth "address" (PStr "N/A"));
  print "    auth[{j}]: address={auth.get('address', 'N/A')}" [FInt j; FVal address].

(** One round of [for i, tx in enumerate(txs)]. *)
Definition check_tx (type4_count : Z) (item : Z * pyval) : M Z :=
  let '(i, tx) := item in
  ty ← lift (dict_get tx "type" (PStr "0x0"));
  tx_type ← lift (int16 ty);
  if decide (tx_type = 4) then
    let type4_count := type4_count + 1 in
    auth_list ← lift (dict_get tx "authorizationList" (PList []));
    hash ← lift (subscript tx "hash");
    h ← lift (slice_to 20 hash);
    n ← lift (py_len auth_list);
    print "  TX {i} (type=4): hash={tx['hash'][:20]}..., authList={len(auth_list)} entries"
      [FInt i; FVal h; FInt (Z.of_nat n)];;
    first ← lift (slice_to 3 auth_list);
    auths ← lift (py_iter first);
    for_each check_auth tt (enumerate auths);;
    mret type4_count
  else mret type4_count.

(** One round of [for block_num in blocks_to_check]. *)
Definition check_block (_ : unit) (block_num : Z) : M unit :=
  print "\n=== Block {block_num} ===" [FInt block_num];;
  block ← get_block block_num;
  if negb (truthy block) then print "  Failed to fetch" []
  else
    txs ← lift (dict_get block "transactions" (PList []));
    n ← lift (py_len txs);
    print "  Total transactions: {len(txs)}" [FInt (Z.of_nat n)];;
    g ← lift (dict_get block "gasUsed" (PStr "0x0"));
    g ← lift (int16 g);
    print "  Gas used (header): {int(block.get('gasUsed', '0x0'), 16)}" [FInt g];;
    items ← lift (py_iter txs);
    type4_count ← for_each check_tx 0 (enumerate items);
    print "  Type=4 transactions: {type4_count}" [FInt type4_count].

Definition blocks_to_check : list Z := [23800000; 23800001; 23800002; 23800003].

Definition main : M unit := for_each check_block tt blocks_to_check.

End CheckType4.

(** * Notions used in the statements *)

(** The sum of the per-index differences of a list of entries. *)
Definition total_of (ds : list diff_entry) : Z :=
  foldr (fun d acc => d_diff d + acc) 0 ds.

(** An index the comparison reports: present in both mappings, with
    different values. *)
Definition differs (erigon_gas rpc_gas : gmap Z Z) (i : Z) : Prop :=
  is_Some (erigon_gas !! i) ∧ is_Some (rpc_gas !! i) ∧
  erigon_gas !! i ≠ rpc_gas !! i.

#[global] Instance differs_dec erigon_gas rpc_gas i :
  Decision (differs erigon_gas rpc_gas i).
Proof. unfold differs. apply _. Defined.

(** What holds of [(differences, cumulative_diff)] after the loop has
    visited [keys]. *)
Definition loop_inv (erigon_gas rpc_gas : gmap Z Z) (keys : list Z)
    (st : list diff_entry * Z) : Prop :=
  st.2 = total_of st.1 ∧
  (∀ k d, st.1 !! k = Some d → d_cumul d = total_of (take (S k) st.1)) ∧
  Forall (fun d =>
    erigon_gas !! d_index d = Some (d_erigon d) ∧
    rpc_gas !! d_index d = Some (d_rpc d) ∧
    d_diff d = d_erigon d - d_rpc d ∧ d_diff d ≠ 0) st.1 ∧
  d_index <$> st.1 = filter (differs erigon_gas rpc_gas) keys.

(** What the running totals promise for [(differences, cumulative_diff)]
    on the mappings [erigon_gas] and [rpc_gas]: the entries come in
    increasing index order, each records the two values at its index and
    their signed difference, each running total is the sum of the
    differences up to and including its entry, and the final total is the
    sum of them all. *)
Definition running_totals (erigon_gas rpc_gas : gmap Z Z)
    (st : list diff_entry * Z) : Prop :=
  StronglySorted Z.lt (d_index <$> st.1) ∧
  (∀ k d, st.1 !! k = Some d →
     erigon_gas !! d_index d = Some (d_erigon d) ∧
     rpc_gas !! d_index d = Some (d_rpc d) ∧
     d_diff d = d_erigon d - d_rpc d ∧
     d_cumul d = total_of (take (S k) st.1)) ∧
  st.2 = total_of st.1.

(** The text cut at its line feeds ([text.split('\n')]). *)
Fixpoint split_lines (s : text) : list text :=
  match s with
  | [] => [[]]
  | c :: s' =>
      if is_newline c then [] :: split_lines s'
      else match split_lines s' with
           | l :: ls => (c :: l) :: ls
           | [] => [[c]]
           end
  end.

(** A pattern with no literal line feed: its matches stay within a line. *)
Definition line_local (p : regex) : Prop := Forall (λ it, it ≠ Lit LF) p.

(** A line the pattern [txIndex=(\d+).*?gasUsed=(\d+)] is found in. *)
Definition matches_line (l : text) : Prop := is_Some (re_search pattern_lazy l).

#[global] Instance matches_line_dec l : Decision (matches_line l).
Proof. unfold matches_line. apply _. Defined.

(** The [(index, gas)] pair [re.search] yields on a line, if any. *)
Definition line_entry (p : regex) (l : text) : option (Z * Z) :=
  index_and_gas <$> re_search p l.

(** The [(index, gas)] pairs [re.finditer] yields on a text, in order. *)
Definition text_entries (p : regex) (s : text) : list (Z * Z) :=
  index_and_gas <$> re_finditer p s.

(** The gas value of the last pair with index [i]. *)
Definition last_gas (i : Z) (entries : list (Z * Z)) : option Z :=
  last (snd <$> filter (λ e, e.1 = i) entries).

(** [d[e.1] = e.2] *)
Definition record_entry (d : gmap Z Z) (e : Z * Z) : gmap Z Z :=
  <[e.1 := e.2]> d.

(** The number of places of [s] where the word [w] starts. *)
Fixpoint occurrences (w s : text) : nat :=
  (if decide (w `prefix_of` s) then 1 else 0) +
  match s with
  | [] => 0
  | _ :: s' => occurrences w s'
  end.

(** Every carriage return is followed by a line feed: the lines of the
    log end in [\n] or in [\r\n]. *)
Fixpoint no_lone_CR (s : text) : bool :=
  match s with
  | [] => true
  | c :: s' =>
      if Ascii.eqb c CR then
        match s' with
        | c' :: _ => Ascii.eqb c' LF && no_lone_CR s'
        | [] => false
        end
      else no_lone_CR s'
  end.

(** A log with at most one gas value per line: no lone carriage return,
    and on each line at most one [gasUsed=]. *)
Definition one_gasUsed_per_line (s : text) : Prop :=
  no_lone_CR s = true ∧
  Forall (λ l, (occurrences (txt "gasUsed=") l ≤ 1)%nat) (split_lines s).

#[global] Instance one_gasUsed_per_line_dec s : Decision (one_gasUsed_per_line s).
Proof. unfold one_gasUsed_per_line. apply _. Defined.

(** A pattern that matches the same on a line and on the line followed by
    a carriage return: it has no literal carriage return, and what follows
    a [.*] does not match the empty text. *)
Fixpoint ignores_final_CR (p : regex) : Prop :=
  match p with
  | [] => True
  | Lit c :: p' => c ≠ CR ∧ ignores_final_CR p'
  | AnyGreedy :: p' => match_here p' [] = None ∧ ignores_final_CR p'
  | _ :: p' => ignores_final_CR p'
  end.

(** A line of the text and the line a file opened in text mode gives for
    it: the same, but for the carriage return the line of the text may end
    in. *)
Definition same_line (raw clean : text) : Prop :=
  raw = clean ∨ raw = clean ++ [CR].

(** The word [w] lies within the first [n] characters of [s]. *)
Definition spans_word (w s : text) (n : nat) : Prop :=
  ∃ k, (k + length w ≤ n)%nat ∧ w `prefix_of` drop k s.

(** The fields of the result a script reads with [int(_, 16)], in order:
    the key, and the default where the code has [result.get(key, default)]
    in place of [result[key]]. *)
Definition fields_of_find_diff_tx : list (string * option pyval) :=
  [("gasUsed", None)].

Definition fields_of_compare_all_gas : list (string * option pyval) :=
  [("gasUsed", None); ("cumulativeGasUsed", None)].

Definition fields_of_compare_gas_block : list (string * option pyval) :=
  [("gasUsed", None); ("cumulativeGasUsed", None); ("type", Some (PStr "0x0"))].

(** The exception reading these fields of a result raises, if one does:
    [KeyError] for a missing key, [TypeError] for a result that is no
    dictionary or a field that is no string, [ValueError] for a string
    that is no hexadecimal number. *)
Fixpoint field_error (fields : list (string * option pyval)) (result : pyval)
    : option exn :=
  match fields with
  | [] => None
  | (k, dflt) :: fields' =>
      match match dflt with
            | Some d => dict_get result k d
            | None => subscript result k
            end with
      | Raise e => Some e
      | Ok v =>
          match int16 v with
          | Raise e => Some e
          | Ok _ => field_error fields' result
          end
      end
  end.

(** The ways a request for one receipt fails, with the exception raised
    inside the [try] ([None] when nothing is raised and the [if] on the
    result is simply not taken): the network, the decoding of the body, a
    response that has no [get], a response with no [result] or with an
    empty one, a result in which a field cannot be read. *)
Inductive fetch_fails (fields : list (string * option pyval))
    : option reply → option exn → Prop :=
  | no_answer : fetch_fails fields None (Some URLError)
  | network_error : fetch_fails fields (Some HttpFailure) (Some URLError)
  | decode_error : fetch_fails fields (Some BadBody) (Some JSONDecodeError)
  | no_object data e :
      dict_get data "result" PNone = Raise e →
      fetch_fails fields (Some (Body data)) (Some e)
  | missing_result data result :
      dict_get data "result" PNone = Ok result → truthy result = false →
      fetch_fails fields (Some (Body data)) None
  | unreadable_field data result e :
      dict_get data "result" PNone = Ok result → truthy result = true →
      field_error fields result = Some e →
      fetch_fails fields (Some (Body data)) (Some e).

(** What a reply to [eth_getTransactionReceipt] gives [compare_all_gas.py]:
    the gas used and the cumulative gas used of the receipt, when the
    reply carries both. *)
Definition receipt_fields (r : option reply) : option (Z * Z) :=
  match r with
  | Some (Body (PDict d)) =>
      match assoc "result" d with
      | Some (PDict res) =>
          if truthy (PDict res) then
            match assoc "gasUsed" res, assoc "cumulativeGasUsed" res with
            | Some (PStr g), Some (PStr c) =>
                match parse_int 16 g, parse_int 16 c with
                | Some g, Some c => Some (g, c)
                | _, _ => None
                end
            | _, _ => None
            end
          else None
      | _ => None
      end
  | _ => None
  end.

(** The transaction hashes a reply to [eth_getBlockByNumber] lists. *)
Definition block_transactions (r : option reply) : option (list pyval) :=
  match r with
  | Some (Body (PDict d)) =>
      match assoc "result" d with
      | Some (PDict res) =>
          match assoc "transactions" res with
          | Some tx_hashes =>
              match py_iter tx_hashes with
              | Ok items => Some items
              | Raise _ => None
              end
          | None => None
          end
      | _ => None
      end
  | _ => None
  end.

(** The receipts [get_all_receipts] collects for the hashes [items],
    numbered from [k], from the replies to its requests. *)
Fixpoint receipts_from (k : nat) (items : list pyval) (replies : list reply)
    (acc : gmap Z receipt) : gmap Z receipt :=
  match items with
  | [] => acc
  | tx_hash :: items' =>
      receipts_from (S k) items' (tail replies)
        match receipt_fields (head replies) with
        | Some (g, c) => <[Z.of_nat k := Receipt g c tx_hash]> acc
        | None => acc
        end
  end.

(** A world with nothing in it but the replies the network will give. *)
Definition only_replies (replies : list reply) : world :=
  World replies [] [] ∅ None None [].

(** A reply to [eth_getBlockByNumber] listing the given hashes. *)
Definition block_with (tx_hashes : list string) : reply :=
  Body (PDict [("jsonrpc", PStr "2.0"); ("id", PInt 1);
               ("result", PDict [("number", PStr "0x16b28c3");
                                 ("transactions", PList (PStr <$> tx_hashes))])]).

(** A reply to [eth_getTransactionReceipt] with the given fields, in
    hexadecimal. *)
Definition receipt_with (gas cumulative : string) : reply :=
  Body (PDict [("jsonrpc", PStr "2.0"); ("id", PInt 1);
               ("result", PDict [("gasUsed", PStr gas);
                                 ("cumulativeGasUsed", PStr cumulative)])]).

(** A JSON-RPC error response: no [result]. *)
Definition error_response : reply :=
  Body (PDict [("jsonrpc", PStr "2.0"); ("id", PInt 1);
               ("error", PDict [("code", PInt (-32000));
                                ("message", PStr "rate limited")])]).

(** The number of groups of a pattern. *)
Fixpoint groups (p : regex) : nat :=
  match p with
  | [] => 0
  | DigitsGroup :: p' => S (groups p')
  | _ :: p' => groups p'
  end.

(** A non-empty run of decimal digits, what [(\d+)] captures. *)
Definition digit_run (g : text) : Prop :=
  g ≠ [] ∧ Forall (λ c, is_digit c = true) g.

(** The groups of a match of a pattern: as many as the pattern has, each
    a run of digits. *)
Definition captures_of (p : regex) (m : match_result) : Prop :=
  length m.1 = groups p ∧ Forall digit_run m.1.

(** An entry of [find_diff_tx.py] as [compare_all_gas.py] keeps it: the
    tuple [(i, erigon_gas, rpc_gas, diff)], without the running total. *)
Definition without_running_total (d : diff_entry) : Z * Z * Z * Z :=
  (d_index d, d_erigon d, d_rpc d, d_diff d).

(** The body of a loop that records a [(key, value)] pair for some of the
    items it visits, as the three parsers do. *)
Definition record_some {A B} (g : A → option (Z * B)) (d : gmap Z B) (x : A)
    : gmap Z B :=
  match g x with
  | Some kv => <[kv.1 := kv.2]> d
  | None => d
  end.

(** What [get_block_tx_hashes] returns on a reply to its request: the
    [transactions] of the result, and the empty list when there is none. *)
Definition block_hashes (r : option reply) : pyval :=
  match r with
  | Some (Body (PDict d)) =>
      match assoc "result" d with
      | Some (PDict res) => default (PList []) (assoc "transactions" res)
      | _ => PList []
      end
  | _ => PList []
  end.

(** What a reply to [eth_getTransactionReceipt] gives [find_diff_tx.py]:
    the gas used of the receipt. *)
Definition receipt_gas (r : option reply) : option Z :=
  match r with
  | Some (Body (PDict d)) =>
      match assoc "result" d with
      | Some (PDict res) =>
          if truthy (PDict res) then
            match assoc "gasUsed" res with
            | Some (PStr g) => parse_int 16 g
            | _ => None
            end
          else None
      | _ => None
      end
  | _ => None
  end.

(** The dictionary a loop over the hashes [items], numbered from [k],
    fills from the replies to its requests, one reply for each hash:
    [keep] tells what a reply leaves at the index of a hash, if
    anything. *)
Fixpoint collected {A} (keep : option reply → pyval → option A) (k : nat)
    (items : list pyval) (replies : list reply) (acc : gmap Z A) : gmap Z A :=
  match items with
  | [] => acc
  | tx_hash :: items' =>
      collected keep (S k) items' (tail replies)
        match keep (head replies) tx_hash with
        | Some a => <[Z.of_nat k := a]> acc
        | None => acc
        end
  end.

(** The receipt [compare_all_gas.py] keeps for a hash and the reply to the
    request for it. *)
Definition kept_receipt (r : option reply) (tx_hash : pyval) : option receipt :=
  match receipt_fields r with
  | Some (g, c) => Some (Receipt g c tx_hash)
  | None => None
  end.

(** A step that ends normally and changes nothing but the console, to
    which it only adds lines. *)
Definition only_prints {A} (m : M A) : Prop :=
  ∀ w, ∃ a w',
    m w = (Ok a, w') ∧
    network w' = network w ∧ requests w' = requests w ∧ stdin w' = stdin w ∧
    text_files w' = text_files w ∧ rpc_cache w' = rpc_cache w ∧
    rpc_receipts w' = rpc_receipts w ∧ console w `prefix_of` console w'.

(** What is typed at the terminal and the files are the same in [w'] as
    in [w]. *)
Definition untouched (w w' : world) : Prop :=
  stdin w' = stdin w ∧ text_files w' = text_files w ∧
  rpc_cache w' = rpc_cache w ∧ rpc_receipts w' = rpc_receipts w.

(** What [rpc_call] returns on a reply to its request: the [result] of
    the response, [None] when there is none. *)
Definition rpc_result (r : option reply) : pyval :=
  match r with
  | Some (Body (PDict d)) => default PNone (assoc "result" d)
  | _ => PNone
  end.

(** A step that, however it ends, has sent [n] requests at most and has
    left what is typed and the files as they were. *)
Definition sends_at_most (n : nat) {A} (m : M A) : Prop :=
  ∀ w, ∃ sent_now,
    requests (m w).2 = requests w ++ sent_now ∧ (length sent_now ≤ n)%nat ∧
    untouched w (m w).2.

(** A step that raises no exception but those in [P]. *)
Definition raises_only (P : exn → Prop) {A} (m : M A) : Prop :=
  ∀ w, match (m w).1 with
       | Ok _ => True
       | Raise e => P e
       end.

(** The signed difference at an index, nought when the index is missing
    from a mapping. *)
Definition difference_at (erigon_gas rpc_gas : gmap Z Z) (i : Z) : Z :=
  match erigon_gas !! i, rpc_gas !! i with
  | Some e_gas, Some r_gas => e_gas - r_gas
  | _, _ => 0
  end.

(** The sum of [f] over a list. *)
Definition sum_over {A} (f : A → Z) (l : list A) : Z :=
  foldr (λ x acc, f x + acc) 0 l.

(** ** The limit on the digits of an integer

    The interpreter refuses to write an integer of more than 4300 decimal
    digits and to read one: [str], a field of an f-string and [json.dump]
    raise [ValueError] on such an integer, [int(s)] and [json.load] on
    such a text.  [int(s, 16)] has no limit.  The conversions above are
    total: they go on where the interpreter stops.  So what is stated on
    integers the scripts print, write or read back is stated within the
    limit. *)

(** The least integer [str] refuses: the first of 4301 digits. *)
Definition str_limit : Z := Eval vm_compute in 10 ^ 4300.

(** An integer [str] accepts: 4300 decimal digits at most. *)
Definition printable (n : Z) : Prop := Z.abs n < str_limit.

#[global] Instance printable_dec n : Decision (printable n).
Proof. unfold printable. apply _. Defined.

(** A value in which no integer is beyond the limit, be it a number or a
    string that [int(_, 16)] reads. *)
Fixpoint within_limit (v : pyval) : bool :=
  match v with
  | PInt z => bool_decide (printable z)
  | PStr s =>
      match parse_int 16 s with
      | Some z => bool_decide (printable z)
      | None => true
      end
  | PList l => forallb within_limit l
  | PDict d => forallb (λ kv, let '(_, x) := kv in within_limit x) d
  | _ => true
  end.

(** A reply that carries no integer beyond the limit. *)
Definition modest (r : reply) : Prop :=
  match r with
  | Body data => within_limit data = true
  | _ => True
  end.

#[global] Instance modest_dec r : Decision (modest r).
Proof. destruct r; apply _. Defined.

(** * Properties *)

(** ** The comparison loop: its invariant *)

Section compare_loop.
Context (erigon_gas rpc_gas : gmap Z Z).

Lemma total_of_app ds1 ds2 : total_of (ds1 ++ ds2) = total_of ds1 + total_of ds2.
Proof. induction ds1 as [|d ds1 IH]; simpl; [done|]. rewrite IH. lia. Qed.

Lemma compare_at_skip st i :
  ¬ differs erigon_gas rpc_gas i → compare_at erigon_gas rpc_gas st i = st.
Proof.
  intros Hn. destruct st as [ds c]. unfold compare_at.
  destruct (erigon_gas !! i) as [e|] eqn:He; [|done].
  destruct (rpc_gas !! i) as [r|] eqn:Hr; [|done].
  case_decide as Hd; [|done].
  exfalso. apply Hn. unfold differs. rewrite He, Hr.
  split_and!; [by eexists|by eexists|]. intros [= ->]. lia.
Qed.

Lemma compare_at_report ds c i :
  differs erigon_gas rpc_gas i →
  ∃ e r, erigon_gas !! i = Some e ∧ rpc_gas !! i = Some r ∧ e - r ≠ 0 ∧
    compare_at erigon_gas rpc_gas (ds, c) i
    = (ds ++ [DiffEntry i e r (e - r) (c + (e - r))], c + (e - r)).
Proof.
  intros ([e He] & [r Hr] & Hne). exists e, r.
  assert (e - r ≠ 0) by (rewrite He, Hr in Hne; intros ?; apply Hne; f_equal; lia).
  split_and!; [done..|]. unfold compare_at. rewrite He, Hr.
  by rewrite decide_True.
Qed.

Lemma compare_over_inv keys :
  loop_inv erigon_gas rpc_gas keys (compare_over keys erigon_gas rpc_gas).
Proof.
  unfold compare_over.
  induction keys as [|i keys IH] using rev_ind.
  { split_and!; simpl; try done. }
  rewrite fold_left_app. simpl.
  destruct (fold_left _ keys _) as [ds c] eqn:Hfold.
  destruct IH as (Htot & Hpre & Hall & Hidx). unfold loop_inv. cbn [fst snd] in *.
  rewrite filter_app, filter_cons, filter_nil.
  destruct (decide (differs erigon_gas rpc_gas i)) as [Hd|Hd].
  - destruct (compare_at_report ds c i Hd) as (e & r & He & Hr & Hne & ->).
    split_and!; cbn [fst snd].
    + rewrite total_of_app. simpl. lia.
    + intros k d Hk. destruct (decide (k < length ds)%nat) as [Hlt|Hge].
      * rewrite lookup_app_l in Hk by done.
        rewrite take_app_le by lia. by apply Hpre.
      * assert (k = length ds).
        { apply lookup_lt_Some in Hk. rewrite length_app in Hk. simpl in Hk. lia. }
        subst k. rewrite list_lookup_middle in Hk by done. injection Hk as <-.
        rewrite take_ge by (rewrite length_app; simpl; lia).
        rewrite total_of_app. simpl. lia.
    + apply Forall_app. split; [done|]. by repeat constructor.
    + rewrite fmap_app. simpl. by rewrite Hidx.
  - rewrite compare_at_skip by done. rewrite app_nil_r.
    split_and!; cbn [fst snd]; done.
Qed.

End compare_loop.

(** ** Sorted keys *)

Lemma elem_of_sorted (i : Z) (l : list Z) : i ∈ sorted l ↔ i ∈ l.
Proof. unfold sorted. by rewrite merge_sort_Permutation. Qed.

Lemma sorted_le (l : list Z) : StronglySorted Z.le (sorted l).
Proof. apply StronglySorted_merge_sort; apply _. Qed.

Lemma NoDup_sorted (l : list Z) : NoDup l → NoDup (sorted l).
Proof. unfold sorted. by rewrite merge_sort_Permutation. Qed.

Lemma StronglySorted_le_lt (l : list Z) :
  StronglySorted Z.le l → NoDup l → StronglySorted Z.lt l.
Proof.
  induction 1 as [|a l Hs IH Hall]; intros Hnd; [constructor|].
  apply NoDup_cons in Hnd as [Hnotin Hnd].
  constructor; [by apply IH|].
  rewrite Forall_forall in Hall |- *. intros x Hx.
  assert (a ≠ x) by (intros ->; done).
  specialize (Hall x Hx). lia.
Qed.

Lemma sorted_lt (l : list Z) : NoDup l → StronglySorted Z.lt (sorted l).
Proof.
  intros Hnd. apply StronglySorted_le_lt; [apply sorted_le|by apply NoDup_sorted].
Qed.

Lemma StronglySorted_filter {A} (R : relation A) (P : A → Prop)
    `{!∀ x, Decision (P x)} (l : list A) :
  StronglySorted R l → StronglySorted R (filter P l).
Proof.
  induction 1 as [|a l Hs IH Hall]; [constructor|].
  rewrite filter_cons. case_decide; [|done].
  constructor; [done|].
  rewrite Forall_forall in Hall |- *.
  intros x [_ Hx]%list_elem_of_filter. by apply Hall.
Qed.

(** ** The two comparison loops *)

Lemma compare_over_reported keys erigon_gas rpc_gas :
  d_index <$> (compare_over keys erigon_gas rpc_gas).1
  = filter (differs erigon_gas rpc_gas) keys.
Proof. by destruct (compare_over_inv erigon_gas rpc_gas keys) as (_ & _ & _ & ?). Qed.

Lemma compare_over_common keys erigon_gas rpc_gas d :
  d ∈ (compare_over keys erigon_gas rpc_gas).1 →
  d_index d ∈ dom erigon_gas ∩ dom rpc_gas.
Proof.
  intros Hd.
  destruct (compare_over_inv erigon_gas rpc_gas keys) as (_ & _ & Hall & _).
  rewrite Forall_forall in Hall. destruct (Hall d Hd) as (He & Hr & _).
  apply elem_of_intersection. split; apply elem_of_dom; by eexists.
Qed.

Lemma compare_over_running_totals keys erigon_gas rpc_gas :
  StronglySorted Z.lt keys →
  running_totals erigon_gas rpc_gas (compare_over keys erigon_gas rpc_gas).
Proof.
  intros Hkeys.
  destruct (compare_over_inv erigon_gas rpc_gas keys) as (Htot & Hpre & Hall & Hidx).
  split_and!; [|intros k d Hk|done].
  - rewrite Hidx. by apply StronglySorted_filter.
  - rewrite Forall_forall in Hall.
    destruct (Hall d) as (? & ? & ? & _); [by eapply list_elem_of_lookup_2|].
    split_and!; [done..|]. by apply Hpre.
Qed.

(** C1: every entry the comparators of [compare_erigon_log.py] and
    [find_diff_tx.py] report is at an index present in both mappings, and
    an index missing from either mapping is at no reported entry. *)
Theorem comparator_reports_common_indices (erigon_gas rpc_gas : gmap Z Z) :
  (∀ d, d ∈ (CompareErigonLog.compare erigon_gas rpc_gas).1 →
        d_index d ∈ dom erigon_gas ∩ dom rpc_gas) ∧
  (∀ d, d ∈ (FindDiffTx.compare erigon_gas rpc_gas).1 →
        d_index d ∈ dom erigon_gas ∩ dom rpc_gas) ∧
  (∀ i, i ∉ dom erigon_gas ∨ i ∉ dom rpc_gas →
        (i ∉ d_index <$> (CompareErigonLog.compare erigon_gas rpc_gas).1) ∧
        (i ∉ d_index <$> (FindDiffTx.compare erigon_gas rpc_gas).1)).
Proof.
  split_and!.
  - intros d. apply compare_over_common.
  - intros d. apply compare_over_common.
  - intros i Hi.
    split; intros Hin; apply list_elem_of_fmap in Hin as (d & -> & Hd);
      apply compare_over_common in Hd; set_solver.
Qed.

(** X1: the indices the two comparators report are exactly those present
    in both mappings with different values: no difference is left out. *)
Lemma comparator_reports_all_differences (erigon_gas rpc_gas : gmap Z Z) (i : Z) :
  (i ∈ (d_index <$> (CompareErigonLog.compare erigon_gas rpc_gas).1)
   ↔ differs erigon_gas rpc_gas i) ∧
  (i ∈ (d_index <$> (FindDiffTx.compare erigon_gas rpc_gas).1)
   ↔ differs erigon_gas rpc_gas i).
Proof.
  unfold CompareErigonLog.compare, FindDiffTx.compare.
  rewrite !compare_over_reported, !list_elem_of_filter, !elem_of_sorted,
    !elem_of_elements, elem_of_union, !elem_of_dom.
  unfold differs. naive_solver.
Qed.

(** C2: in both comparators the entries come in increasing index order,
    the running total recorded with an entry is the sum of the signed
    differences of the entries reported up to it, and the final total is
    the sum of all reported differences. *)
Theorem running_total_is_prefix_sum (erigon_gas rpc_gas : gmap Z Z) :
  running_totals erigon_gas rpc_gas (CompareErigonLog.compare erigon_gas rpc_gas) ∧
  running_totals erigon_gas rpc_gas (FindDiffTx.compare erigon_gas rpc_gas).
Proof.
  split; apply compare_over_running_totals, sorted_lt, NoDup_elements.
Qed.

(** C8: on A = {0:100, 1:200} and B = {0:100, 1:250} the comparator reports
    one difference, at index 1, of -50, with running total -50; the final
    total is -50. *)
Theorem comparator_example :
  FindDiffTx.compare {[0 := 100; 1 := 200]} {[0 := 100; 1 := 250]}
  = ([DiffEntry 1 200 250 (-50) (-50)], -50) ∧
  CompareErigonLog.compare {[0 := 100; 1 := 200]} {[0 := 100; 1 := 250]}
  = ([DiffEntry 1 200 250 (-50) (-50)], -50).
Proof. split; vm_compute; reflexivity. Qed.

(** ** Dictionaries filled from a list of pairs *)

Lemma last_gas_snoc i es e :
  last_gas i (es ++ [e]) = if decide (e.1 = i) then Some e.2 else last_gas i es.
Proof.
  unfold last_gas. rewrite filter_app, filter_cons, filter_nil.
  case_decide.
  - by rewrite fmap_app, last_app.
  - by rewrite app_nil_r.
Qed.

Lemma record_entries_lookup es d i :
  fold_left record_entry es d !! i
  = match last_gas i es with Some g => Some g | None => d !! i end.
Proof.
  induction es as [|e es IH] using rev_ind; [done|].
  rewrite fold_left_app, last_gas_snoc. simpl. unfold record_entry at 1.
  case_decide as He.
  - subst i. by rewrite lookup_insert_eq.
  - by rewrite lookup_insert_ne.
Qed.

(** ** The matcher stays within a line *)

Lemma or_else_None_r r : or_else r None = r.
Proof. by destruct r. Qed.

Lemma match_digits_bound k s g caps n :
  (∀ s' caps' n', k s' = Some (caps', n') → (n' ≤ length s')%nat) →
  match_digits k s = Some (g, (caps, n)) → (n ≤ length s)%nat.
Proof.
  intros Hk. revert g caps n.
  induction s as [|d s IH]; intros g caps n; simpl; [done|].
  destruct (is_digit d); [|done].
  destruct (match_digits k s) as [[g' [caps' n']]|] eqn:Hrec.
  - intros [= <- <- <-]. specialize (IH _ _ _ eq_refl). lia.
  - destruct (k s) as [[caps' n']|] eqn:Hks; [|done].
    intros [= <- <- <-]. apply Hk in Hks. lia.
Qed.

Lemma match_any_lazy_bound k s caps n :
  (∀ s' caps' n', k s' = Some (caps', n') → (n' ≤ length s')%nat) →
  match_any_lazy k s = Some (caps, n) → (n ≤ length s)%nat.
Proof.
  intros Hk. revert caps n.
  induction s as [|c s IH]; intros caps n; simpl.
  - rewrite or_else_None_r. apply Hk.
  - destruct (k (c :: s)) as [[caps' n']|] eqn:Hks; simpl.
    + intros [= <- <-]. by apply Hk in Hks.
    + destruct (is_newline c); [done|].
      destruct (match_any_lazy k s) as [[caps' n']|]; [|done].
      intros [= <- <-]. specialize (IH _ _ eq_refl). lia.
Qed.

Lemma match_any_greedy_bound k s caps n :
  (∀ s' caps' n', k s' = Some (caps', n') → (n' ≤ length s')%nat) →
  match_any_greedy k s = Some (caps, n) → (n ≤ length s)%nat.
Proof.
  intros Hk. revert caps n.
  induction s as [|c s IH]; intros caps n; simpl; [apply Hk|].
  destruct (is_newline c); [apply Hk|].
  destruct (match_any_greedy k s) as [[caps' n']|]; simpl.
  - intros [= <- <-]. specialize (IH _ _ eq_refl). lia.
  - apply Hk.
Qed.

Lemma match_here_bound p s caps n :
  match_here p s = Some (caps, n) → (n ≤ length s)%nat.
Proof.
  revert s caps n. induction p as [|it p IH]; intros s caps n; simpl.
  - intros [= <- <-]. lia.
  - destruct it.
    + destruct s as [|c' s]; [done|]. destruct (Ascii.eqb c c'); [|done].
      destruct (match_here p s) as [[caps' n']|] eqn:Hrec; [|done].
      simpl. intros [= <- <-]. apply IH in Hrec. simpl. lia.
    + destruct (match_digits (match_here p) s) as [[g [caps' n']]|] eqn:Hd; [|done].
      intros [= <- <-]. by eapply match_digits_bound.
    + by apply match_any_lazy_bound.
    + by apply match_any_greedy_bound.
Qed.

Lemma is_newline_LF : is_newline LF = true.
Proof. reflexivity. Qed.

Lemma is_newline_false c : c ≠ LF → is_newline c = false.
Proof. intros Hc. unfold is_newline. by apply Ascii.eqb_neq. Qed.

Lemma is_newline_true c : is_newline c = true → c = LF.
Proof. unfold is_newline. apply Ascii.eqb_eq. Qed.

Section within_a_line.
Context (rest : text).

Lemma match_digits_line k s :
  LF ∉ s → (∀ s', LF ∉ s' → k (s' ++ LF :: rest) = k s') →
  match_digits k (s ++ LF :: rest) = match_digits k s.
Proof.
  intros Hs Hk. induction s as [|d s IH]; simpl; [done|].
  apply not_elem_of_cons in Hs as [_ Hs].
  by rewrite IH, Hk.
Qed.

Lemma match_any_lazy_line k s :
  LF ∉ s → (∀ s', LF ∉ s' → k (s' ++ LF :: rest) = k s') →
  match_any_lazy k (s ++ LF :: rest) = match_any_lazy k s.
Proof.
  intros Hs Hk. induction s as [|c s IH]; simpl.
  - pose proof (Hk [] Hs) as Hnil. simpl in Hnil. by rewrite Hnil.
  - pose proof (Hk (c :: s) Hs) as Hcs. simpl in Hcs. rewrite Hcs.
    apply not_elem_of_cons in Hs as [Hc Hs].
    by rewrite IH.
Qed.

Lemma match_any_greedy_line k s :
  LF ∉ s → (∀ s', LF ∉ s' → k (s' ++ LF :: rest) = k s') →
  match_any_greedy k (s ++ LF :: rest) = match_any_greedy k s.
Proof.
  intros Hs Hk. induction s as [|c s IH]; simpl.
  - apply (Hk []), not_elem_of_nil.
  - pose proof (Hk (c :: s) Hs) as Hcs. simpl in Hcs. rewrite Hcs.
    apply not_elem_of_cons in Hs as [Hc Hs].
    by rewrite IH.
Qed.

Lemma match_here_line p s :
  line_local p → LF ∉ s →
  match_here p (s ++ LF :: rest) = match_here p s.
Proof.
  intros Hp. revert s. induction Hp as [|it p Hit Hp IH]; intros s Hs; [done|].
  destruct it; simpl.
  - destruct s as [|c' s]; simpl.
    + destruct (Ascii.eqb_spec c LF) as [->|]; [by destruct Hit|done].
    + apply not_elem_of_cons in Hs as [_ Hs]. by rewrite IH.
  - by rewrite match_digits_line.
  - by apply match_any_lazy_line.
  - by apply match_any_greedy_line.
Qed.

Lemma finditer_from_line p k s :
  line_local p → LF ∉ s → (k ≤ length s)%nat →
  finditer_from p k (s ++ LF :: rest)
  = finditer_from p k s ++ finditer_from p 0 rest.
Proof.
  intros Hp. revert k. induction s as [|c s IH]; intros k Hs Hk.
  - assert (k = 0%nat) as -> by (simpl in Hk; lia).
    pose proof (match_here_line p [] Hp Hs) as Hm. simpl in *. rewrite Hm.
    destruct (match_here p []) as [[caps n]|] eqn:Hnil; [|done].
    apply match_here_bound in Hnil. simpl in Hnil.
    by assert (n = 0%nat) as -> by lia.
  - pose proof Hs as Hs'. apply not_elem_of_cons in Hs' as [_ Hs'].
    destruct k as [|k]; simpl.
    + pose proof (match_here_line p (c :: s) Hp Hs) as Hm. simpl in Hm.
      rewrite Hm.
      destruct (match_here p (c :: s)) as [[caps n]|] eqn:Hcs.
      * apply match_here_bound in Hcs. simpl in Hcs.
        rewrite IH by (done || lia). done.
      * apply IH; [done|lia].
    + apply IH; [done|simpl in Hk; lia].
Qed.

End within_a_line.

(** ** Lines *)

Lemma join_cons_cons (l l2 : text) (ls : list text) :
  join [LF] (l :: l2 :: ls) = l ++ LF :: join [LF] (l2 :: ls).
Proof. done. Qed.

Lemma split_lines_nonempty s : split_lines s ≠ [].
Proof.
  destruct s as [|c s]; simpl; [done|].
  destruct (is_newline c); [done|]. by destruct (split_lines s).
Qed.

Lemma split_lines_join s : join [LF] (split_lines s) = s.
Proof.
  induction s as [|c s IH]; [done|]. cbn [split_lines].
  destruct (split_lines s) as [|l ls] eqn:Hsp;
    [by apply split_lines_nonempty in Hsp|].
  destruct (is_newline c) eqn:Hc.
  - apply is_newline_true in Hc as ->.
    rewrite join_cons_cons, IH. done.
  - rewrite <- IH. by destruct ls.
Qed.

Lemma split_lines_no_LF s : Forall (λ l, LF ∉ l) (split_lines s).
Proof.
  induction s as [|c s IH]; simpl.
  - repeat constructor. apply not_elem_of_nil.
  - destruct (is_newline c) eqn:Hc.
    + constructor; [apply not_elem_of_nil|done].
    + destruct (split_lines s) as [|l ls].
      * repeat constructor. apply not_elem_of_cons. split; [|apply not_elem_of_nil].
        intros <-. by rewrite is_newline_LF in Hc.
      * apply Forall_cons in IH as [Hl Hls]. constructor; [|done].
        apply not_elem_of_cons. split; [|done].
        intros <-. by rewrite is_newline_LF in Hc.
Qed.

Lemma file_lines_app l rest :
  LF ∉ l → file_lines (l ++ LF :: rest) = (l ++ [LF]) :: file_lines rest.
Proof.
  induction l as [|c l IH]; intros Hl; simpl; [done|].
  apply not_elem_of_cons in Hl as [Hc Hl].
  by rewrite is_newline_false, IH.
Qed.

Lemma file_lines_single l : LF ∉ l → l ≠ [] → file_lines l = [l].
Proof.
  induction l as [|c l IH]; intros Hl Hne; [done|]. simpl.
  apply not_elem_of_cons in Hl as [Hc Hl].
  rewrite is_newline_false by done.
  destruct l as [|c' l]; [done|]. by rewrite IH.
Qed.

Lemma re_search_line p l :
  line_local p → LF ∉ l → re_search p (l ++ [LF]) = re_search p l.
Proof.
  intros Hp Hl. induction l as [|c l IH].
  - pose proof (match_here_line [] p [] Hp Hl) as Hm. simpl in *.
    rewrite Hm. by destruct (match_here p []).
  - pose proof (match_here_line [] p (c :: l) Hp Hl) as Hm. simpl in *.
    apply not_elem_of_cons in Hl as [_ Hl]. by rewrite Hm, IH.
Qed.

Lemma mjoin_cons_eq {A} (x : list A) (xs : list (list A)) :
  mjoin (x :: xs) = x ++ mjoin xs.
Proof. done. Qed.

Lemma omap_cons_eq {A B} (f : A → option B) x xs :
  omap f (x :: xs)
  = match f x with Some y => y :: omap f xs | None => omap f xs end.
Proof. done. Qed.

(** Reading a file line by line and cutting the text at its line feeds
    give [re.search] the same lines to look at. *)
Lemma line_entries_of_file p ls :
  line_local p → re_search p [] = None → Forall (λ l, LF ∉ l) ls → ls ≠ [] →
  omap (line_entry p) (file_lines (join [LF] ls)) = omap (line_entry p) ls.
Proof.
  intros Hp Hnil Hls _. induction Hls as [|l ls Hl Hls IH]; [done|].
  destruct ls as [|l2 ls].
  - cbn [join]. destruct l as [|c l].
    + simpl. unfold line_entry. by rewrite Hnil.
    + by rewrite file_lines_single.
  - rewrite join_cons_cons, file_lines_app by done.
    rewrite (omap_cons_eq _ (l ++ [LF])), (omap_cons_eq _ l), IH.
    unfold line_entry.
    by rewrite re_search_line.
Qed.

Lemma finditer_join p ls :
  line_local p → Forall (λ l, LF ∉ l) ls → ls ≠ [] →
  re_finditer p (join [LF] ls) = mjoin (re_finditer p <$> ls).
Proof.
  intros Hp Hls. induction Hls as [|l ls Hl Hls IH]; intros Hne; [done|].
  destruct ls as [|l2 ls].
  - simpl. by rewrite app_nil_r.
  - rewrite join_cons_cons. unfold re_finditer at 1.
    rewrite finditer_from_line by (done || lia).
    rewrite fmap_cons, mjoin_cons_eq. f_equal. by apply IH.
Qed.

Lemma re_search_None_cons p c s :
  re_search p (c :: s) = None → match_here p (c :: s) = None ∧ re_search p s = None.
Proof. simpl. by destruct (match_here p (c :: s)). Qed.

Lemma finditer_no_match p k s : re_search p s = None → finditer_from p k s = [].
Proof.
  revert k. induction s as [|c s IH]; intros k Hs.
  - simpl in Hs. rewrite or_else_None_r in Hs.
    destruct k; simpl; [by rewrite Hs|done].
  - apply re_search_None_cons in Hs as [Hm Hs].
    destruct k; simpl; [rewrite Hm|]; by apply IH.
Qed.

Lemma line_local_lazy : line_local pattern_lazy.
Proof. unfold line_local. vm_compute. repeat constructor; discriminate. Qed.

Lemma line_local_greedy : line_local pattern_greedy.
Proof. unfold line_local. vm_compute. repeat constructor; discriminate. Qed.

(** ** The parsers as dictionaries filled from the matches *)

Lemma parse_lines_entries lines :
  CompareErigonLog.parse_lines lines
  = fold_left record_entry (omap (line_entry pattern_lazy) lines) ∅.
Proof.
  unfold CompareErigonLog.parse_lines. generalize (∅ : gmap Z Z).
  induction lines as [|l lines IH]; intros d; simpl; [done|].
  rewrite IH. unfold CompareErigonLog.parse_line, line_entry.
  by destruct (re_search pattern_lazy l).
Qed.

Lemma parse_text_entries log_text :
  FindDiffTx.parse_erigon_log log_text
  = fold_left record_entry (text_entries pattern_lazy log_text) ∅.
Proof.
  unfold FindDiffTx.parse_erigon_log, text_entries. generalize (∅ : gmap Z Z).
  induction (re_finditer pattern_lazy log_text) as [|m ms IH]; intros d; [done|].
  simpl. by rewrite IH.
Qed.

Lemma omap_matching_lines (lines : list text) :
  omap (line_entry pattern_lazy) (filter matches_line lines)
  = omap (line_entry pattern_lazy) lines.
Proof.
  induction lines as [|l lines IH]; [done|].
  rewrite filter_cons. case_decide as Hl.
  - by rewrite !omap_cons_eq, IH.
  - rewrite omap_cons_eq, IH. unfold matches_line in Hl. unfold line_entry.
    destruct (re_search pattern_lazy l); [|done]. destruct Hl. by eexists.
Qed.

Lemma entries_matching_lines (lines : list text) :
  mjoin (text_entries pattern_lazy <$> filter matches_line lines)
  = mjoin (text_entries pattern_lazy <$> lines).
Proof.
  induction lines as [|l lines IH]; [done|].
  rewrite filter_cons. case_decide as Hl.
  - by rewrite !fmap_cons, !mjoin_cons_eq, IH.
  - rewrite fmap_cons, mjoin_cons_eq, IH.
    unfold matches_line in Hl. unfold text_entries at 2, re_finditer.
    rewrite finditer_no_match; [done|].
    destruct (re_search pattern_lazy l); [|done]. destruct Hl. by eexists.
Qed.

(** C3: both parsers fill the dictionary from the matching lines only, and
    the value kept for an index is the gas of the last match that carries
    it.  For [compare_erigon_log.py] the lines are those of the file and a
    line gives the match [re.search] finds; for [find_diff_tx.py] the lines
    are those of the text and a line gives the matches [re.finditer] finds
    in it. *)
Theorem parser_keeps_last_match_of_matching_lines :
  (∀ content i,
     CompareErigonLog.parse_erigon_log content !! i
     = last_gas i (omap (line_entry pattern_lazy)
                     (filter matches_line (read_lines content)))) ∧
  (∀ log_text i,
     FindDiffTx.parse_erigon_log log_text !! i
     = last_gas i (mjoin (text_entries pattern_lazy
                            <$> filter matches_line (split_lines log_text)))).
Proof.
  split.
  - intros content i. unfold CompareErigonLog.parse_erigon_log.
    rewrite parse_lines_entries, record_entries_lookup, omap_matching_lines.
    rewrite lookup_empty. by destruct (last_gas _ _).
  - intros log_text i.
    rewrite parse_text_entries, record_entries_lookup, entries_matching_lines.
    rewrite lookup_empty. unfold text_entries at 1.
    rewrite <- (split_lines_join log_text) at 1.
    rewrite finditer_join
      by (apply line_local_lazy || apply split_lines_no_LF || apply split_lines_nonempty).
    assert (∀ ls, index_and_gas <$> mjoin (re_finditer pattern_lazy <$> ls)
                  = mjoin (text_entries pattern_lazy <$> ls)) as ->.
    { induction ls as [|l ls IH]; [done|].
      by rewrite !fmap_cons, !mjoin_cons_eq, fmap_app, IH. }
    by destruct (last_gas _ _).
Qed.

(** Two lines with index 3: the second value is kept, and the line in
    between is ignored. *)
Example parser_duplicate_index :
  let log := txt "txIndex=3 gasUsed=100
no receipt on this line
txIndex=3 gasUsed=250
" in
  CompareErigonLog.parse_erigon_log log = {[3 := 250]} ∧
  FindDiffTx.parse_erigon_log log = {[3 := 250]}.
Proof. split; vm_compute; reflexivity. Qed.

(** ** Lines with one receipt *)

Lemma universal_newlines_id s : CR ∉ s → universal_newlines s = s.
Proof.
  induction s as [|c s IH]; intros Hs; simpl; [done|].
  apply not_elem_of_cons in Hs as [Hc Hs].
  destruct (Ascii.eqb_spec c CR) as [->|_]; [done|]. by rewrite IH.
Qed.

Lemma occurrences_tail w c s : (occurrences w s ≤ occurrences w (c :: s))%nat.
Proof. simpl. lia. Qed.

Lemma occurrences_prefix w c s :
  w `prefix_of` c :: s → (occurrences w (c :: s) ≤ 1)%nat → occurrences w s = 0%nat.
Proof. simpl. intros Hw. rewrite decide_True by done. lia. Qed.

Lemma occurrences_0 w s :
  occurrences w s = 0%nat →
  ¬ w `prefix_of` s ∧ match s with [] => True | _ :: s' => occurrences w s' = 0%nat end.
Proof. destruct s; simpl; case_decide; (done || lia || (split; [done|lia])). Qed.

Lemma match_here_lits w p s r :
  match_here ((Lit <$> w) ++ p) s = Some r → w `prefix_of` s.
Proof.
  revert s r. induction w as [|c w IH]; intros s r; [intros _; apply prefix_nil|].
  change ((Lit <$> c :: w) ++ p) with (Lit c :: ((Lit <$> w) ++ p)).
  cbn [match_here]. destruct s as [|c' s]; [done|].
  destruct (Ascii.eqb_spec c c') as [->|]; [|done].
  destruct (match_here ((Lit <$> w) ++ p) s) as [r'|] eqn:Hrec; [|by simpl].
  intros _. apply prefix_cons. by eapply IH.
Qed.

Section starts_with_a_word.
Context (w : text) (p : regex).
Let pat : regex := (Lit <$> w) ++ p.

Lemma match_any_lazy_no_occurrence s :
  occurrences w s = 0%nat → match_any_lazy (match_here pat) s = None.
Proof.
  induction s as [|c s IH]; intros [Hpre Htl]%occurrences_0; simpl.
  - destruct (match_here pat []) as [r|] eqn:Hm; [|done].
    by apply match_here_lits in Hm.
  - destruct (match_here pat (c :: s)) as [r|] eqn:Hm.
    + by apply match_here_lits in Hm.
    + simpl. destruct (is_newline c); [done|]. by rewrite IH.
Qed.

(** With at most one place for the rest of the pattern to start at,
    [.*?] and [.*] stop at the same place. *)
Lemma lazy_greedy_one_occurrence s :
  (occurrences w s ≤ 1)%nat →
  match_any_lazy (match_here pat) s = match_any_greedy (match_here pat) s.
Proof.
  induction s as [|c s IH]; intros Hocc; simpl.
  - apply or_else_None_r.
  - destruct (is_newline c); [apply or_else_None_r|].
    rewrite <- IH by (pose proof (occurrences_tail w c s); lia).
    destruct (match_here pat (c :: s)) as [r|] eqn:Hm; simpl.
    + apply match_here_lits in Hm.
      rewrite match_any_lazy_no_occurrence; [done|].
      by eapply occurrences_prefix.
    + by rewrite or_else_None_r.
Qed.

End starts_with_a_word.

Section same_continuation.
Context (Q : text → Prop) (Q_tail : ∀ c s, Q (c :: s) → Q s).

Lemma match_digits_ext k1 k2 s :
  (∀ s', Q s' → k1 s' = k2 s') → Q s → match_digits k1 s = match_digits k2 s.
Proof.
  intros Hk. induction s as [|d s IH]; intros Hs; simpl; [done|].
  by rewrite IH, Hk by eauto.
Qed.

Lemma match_any_lazy_ext k1 k2 s :
  (∀ s', Q s' → k1 s' = k2 s') → Q s →
  match_any_lazy k1 s = match_any_lazy k2 s.
Proof.
  intros Hk. induction s as [|c s IH]; intros Hs; simpl.
  - by rewrite Hk.
  - by rewrite IH, Hk by eauto.
Qed.

Lemma match_any_greedy_ext k1 k2 s :
  (∀ s', Q s' → k1 s' = k2 s') → Q s →
  match_any_greedy k1 s = match_any_greedy k2 s.
Proof.
  intros Hk. induction s as [|c s IH]; intros Hs; simpl.
  - by rewrite Hk.
  - by rewrite IH, Hk by eauto.
Qed.

Lemma match_here_ext pre t1 t2 s :
  (∀ s', Q s' → match_here t1 s' = match_here t2 s') → Q s →
  match_here (pre ++ t1) s = match_here (pre ++ t2) s.
Proof.
  intros Ht. revert s. induction pre as [|it pre IH]; intros s Hs; [by apply Ht|].
  destruct it; simpl.
  - destruct s as [|c' s]; [done|]. by rewrite IH by eauto.
  - by rewrite (match_digits_ext _ (match_here (pre ++ t2))).
  - by apply match_any_lazy_ext.
  - by apply match_any_greedy_ext.
Qed.

Lemma re_search_ext p1 p2 s :
  (∀ s', Q s' → match_here p1 s' = match_here p2 s') → Q s →
  re_search p1 s = re_search p2 s.
Proof.
  intros Hp. induction s as [|c s IH]; intros Hs; simpl.
  - by rewrite Hp.
  - by rewrite IH, Hp by eauto.
Qed.

End same_continuation.

Lemma search_lazy_greedy l :
  (occurrences (txt "gasUsed=") l ≤ 1)%nat →
  re_search pattern_greedy l = re_search pattern_lazy l.
Proof.
  intros Hl.
  change pattern_greedy with
    ((lits "txIndex=" ++ [DigitsGroup])
     ++ AnyGreedy :: (Lit <$> txt "gasUsed=") ++ [DigitsGroup]).
  change pattern_lazy with
    ((lits "txIndex=" ++ [DigitsGroup])
     ++ AnyLazy :: (Lit <$> txt "gasUsed=") ++ [DigitsGroup]).
  apply (re_search_ext (λ s, occurrences (txt "gasUsed=") s ≤ 1)%nat); [| |done].
  - intros c s. pose proof (occurrences_tail (txt "gasUsed=") c s). lia.
  - intros s Hs. apply (match_here_ext (λ s, occurrences (txt "gasUsed=") s ≤ 1)%nat);
      [| |done].
    + intros c s'. pose proof (occurrences_tail (txt "gasUsed=") c s'). lia.
    + intros s' Hs'. symmetry. by apply lazy_greedy_one_occurrence.
Qed.

(** ** Lines with one gas value *)

Lemma spans_word_cons w c s n : spans_word w s n → spans_word w (c :: s) (S n).
Proof. intros (k & Hk & Hw). exists (S k). split; [lia|done]. Qed.

Lemma match_here_word w p s caps n :
  match_here ((Lit <$> w) ++ p) s = Some (caps, n) → spans_word w s n.
Proof.
  intros Hm. exists 0%nat. split; [|by eapply match_here_lits].
  revert s caps n Hm. induction w as [|c w IH]; intros s caps n; [simpl; lia|].
  change ((Lit <$> c :: w) ++ p) with (Lit c :: ((Lit <$> w) ++ p)).
  cbn [match_here]. destruct s as [|c' s]; [done|].
  destruct (Ascii.eqb c c'); [|done].
  destruct (match_here ((Lit <$> w) ++ p) s) as [[caps' n']|] eqn:Hrec; [|by simpl].
  intros [= <- <-]. specialize (IH _ _ _ Hrec). simpl in *. lia.
Qed.

Section contains_word.
Context (w : text) (k : text → option match_result).
Context (Hk : ∀ s caps n, k s = Some (caps, n) → spans_word w s n).

Lemma match_digits_spans s g caps n :
  match_digits k s = Some (g, (caps, n)) → spans_word w s n.
Proof.
  revert g caps n. induction s as [|d s IH]; intros g caps n; simpl; [done|].
  destruct (is_digit d); [|done].
  destruct (match_digits k s) as [[g' [caps' n']]|].
  - intros [= <- <- <-]. eapply spans_word_cons, IH; reflexivity.
  - destruct (k s) as [[caps' n']|] eqn:Hks; [|done].
    intros [= <- <- <-]. eapply spans_word_cons, Hk, Hks.
Qed.

Lemma match_any_lazy_spans s caps n :
  match_any_lazy k s = Some (caps, n) → spans_word w s n.
Proof.
  revert caps n. induction s as [|c s IH]; intros caps n; simpl.
  - destruct (k []) as [[caps' n']|] eqn:Hks; [|done].
    intros [= <- <-]. eapply Hk, Hks.
  - destruct (k (c :: s)) as [[caps' n']|] eqn:Hks; simpl.
    + intros [= <- <-]. eapply Hk, Hks.
    + destruct (is_newline c); [done|].
      destruct (match_any_lazy k s) as [[caps' n']|]; [|done].
      intros [= <- <-]. eapply spans_word_cons, IH; first [reflexivity|eassumption].
Qed.

Lemma match_any_greedy_spans s caps n :
  match_any_greedy k s = Some (caps, n) → spans_word w s n.
Proof.
  revert caps n. induction s as [|c s IH]; intros caps n; simpl.
  - apply Hk.
  - destruct (is_newline c); [apply Hk|].
    destruct (match_any_greedy k s) as [[caps' n']|]; simpl.
    + intros [= <- <-]. eapply spans_word_cons, IH; first [reflexivity|eassumption].
    + apply Hk.
Qed.

End contains_word.

Lemma match_here_spans pre w post s caps n :
  match_here (pre ++ (Lit <$> w) ++ post) s = Some (caps, n) → spans_word w s n.
Proof.
  revert s caps n. induction pre as [|[c| | |] pre IH]; intros s caps n.
  - apply match_here_word.
  - cbn [app match_here]. destruct s as [|c' s]; [done|].
    destruct (Ascii.eqb c c'); [|done].
    destruct (match_here _ s) as [[caps' n']|] eqn:Hrec; [|done].
    intros [= <- <-]. eapply spans_word_cons, IH; first [reflexivity|eassumption].
  - cbn [app match_here].
    destruct (match_digits _ s) as [[g [caps' n']]|] eqn:Hd; [|done].
    intros [= <- <-]. eapply match_digits_spans; [|done]. apply IH.
  - cbn [app match_here]. apply match_any_lazy_spans, IH.
  - cbn [app match_here]. apply match_any_greedy_spans, IH.
Qed.

Lemma occurrences_drop w n s : (occurrences w (drop n s) ≤ occurrences w s)%nat.
Proof.
  revert s. induction n as [|n IH]; intros s; [done|].
  destruct s as [|c s]; [done|].
  pose proof (IH s). pose proof (occurrences_tail w c s). simpl in *. lia.
Qed.

Lemma occurrences_spanned w s n :
  w ≠ [] → spans_word w s n →
  (occurrences w (drop n s) + 1 ≤ occurrences w s)%nat.
Proof.
  intros Hw (k & Hk & Hpre).
  assert (k < n)%nat as Hkn by (destruct w; [done|simpl in Hk; lia]). clear Hk.
  revert s n Hpre Hkn. induction k as [|k IH]; intros s n Hpre Hkn.
  - destruct n as [|n]; [lia|]. destruct s as [|c s].
    { apply prefix_nil_inv in Hpre. done. }
    pose proof (occurrences_drop w n s).
    simpl in *. rewrite decide_True by done. lia.
  - destruct n as [|n]; [lia|]. destruct s as [|c s].
    { apply prefix_nil_inv in Hpre. done. }
    pose proof (IH s n Hpre ltac:(lia)).
    pose proof (occurrences_tail w c s). simpl in *. lia.
Qed.

Section has_a_word.
Context (pre : regex) (w : text) (post : regex) (Hw : w ≠ []).
Let pat : regex := pre ++ (Lit <$> w) ++ post.

Lemma match_here_no_word s :
  occurrences w s = 0%nat → match_here pat s = None.
Proof.
  intros Hocc. destruct (match_here pat s) as [[caps n]|] eqn:Hm; [|done].
  apply match_here_spans, (occurrences_spanned _ _ _ Hw) in Hm. lia.
Qed.

Lemma re_search_no_word s :
  occurrences w s = 0%nat → re_search pat s = None.
Proof.
  induction s as [|c s IH]; intros Hocc; simpl.
  - by rewrite match_here_no_word.
  - rewrite match_here_no_word by done. simpl. apply IH.
    pose proof (occurrences_tail w c s). lia.
Qed.

Lemma finditer_from_drop k s :
  (k ≤ length s)%nat → finditer_from pat k s = finditer_from pat 0 (drop k s).
Proof.
  revert s. induction k as [|k IH]; intros s Hk; [done|].
  destruct s as [|c s]; [simpl in Hk; lia|].
  simpl in *. apply IH. lia.
Qed.

(** With at most one [w] in the text, [re.finditer] finds what [re.search]
    finds: a second match would need a second [w]. *)
Lemma finditer_one_word s :
  (occurrences w s ≤ 1)%nat →
  re_finditer pat s = option_list (re_search pat s).
Proof.
  unfold re_finditer. induction s as [|c s IH]; intros Hocc; simpl.
  - by destruct (match_here pat []) as [[caps n]|].
  - destruct (match_here pat (c :: s)) as [[caps n]|] eqn:Hm; simpl.
    + f_equal.
      pose proof (match_here_bound _ _ _ _ Hm) as Hn.
      apply match_here_spans in Hm.
      pose proof (occurrences_spanned _ _ _ Hw Hm) as Hrest.
      destruct Hm as (j & Hj & _).
      destruct n as [|n]; [destruct w; [done|simpl in Hj; lia]|].
      simpl in Hn, Hrest, Hocc |- *.
      rewrite finditer_from_drop by lia.
      apply finditer_no_match, re_search_no_word. lia.
    + apply IH. pose proof (occurrences_tail w c s). lia.
Qed.

End has_a_word.

Lemma entries_one_gasUsed l :
  (occurrences (txt "gasUsed=") l ≤ 1)%nat →
  text_entries pattern_lazy l = option_list (line_entry pattern_lazy l).
Proof.
  intros Hl. unfold text_entries, line_entry.
  change pattern_lazy with
    ((lits "txIndex=" ++ [DigitsGroup; AnyLazy])
     ++ (Lit <$> txt "gasUsed=") ++ [DigitsGroup]).
  rewrite finditer_one_word by done.
  by destruct (re_search _ l).
Qed.

(** ** The three parsers side by side *)

Lemma parse_file_entries content :
  CR ∉ content →
  CompareErigonLog.parse_erigon_log content
  = fold_left record_entry
      (omap (line_entry pattern_lazy) (split_lines content)) ∅.
Proof.
  intros Hcr. unfold CompareErigonLog.parse_erigon_log, read_lines.
  rewrite universal_newlines_id, parse_lines_entries by done.
  rewrite <- (split_lines_join content) at 1.
  rewrite line_entries_of_file; [done|apply line_local_lazy|done|..].
  - apply split_lines_no_LF.
  - apply split_lines_nonempty.
Qed.

Lemma parse_output_lines lines d :
  CompareAllGas.e_gasUsed <$> fold_left CompareAllGas.parse_line lines d
  = fold_left record_entry (omap (line_entry pattern_greedy) lines)
      (CompareAllGas.e_gasUsed <$> d).
Proof.
  revert d. induction lines as [|l lines IH]; intros d; [done|].
  rewrite omap_cons_eq. cbn [fold_left]. rewrite IH.
  unfold CompareAllGas.parse_line, line_entry.
  destruct (re_search pattern_greedy l) as [m|]; [|done].
  cbn [fmap option_fmap option_map fold_left]. f_equal.
  unfold record_entry, index_and_gas. cbn [fst snd]. by rewrite fmap_insert.
Qed.

Lemma parse_output_entries content :
  CR ∉ content →
  CompareAllGas.e_gasUsed <$> CompareAllGas.parse_erigon_output content
  = fold_left record_entry
      (omap (line_entry pattern_greedy) (split_lines content)) ∅.
Proof.
  intros Hcr. unfold CompareAllGas.parse_erigon_output, read_lines.
  rewrite universal_newlines_id, parse_output_lines, fmap_empty by done.
  rewrite <- (split_lines_join content) at 1.
  rewrite line_entries_of_file; [done|apply line_local_greedy|done|..].
  - apply split_lines_no_LF.
  - apply split_lines_nonempty.
Qed.

Lemma parse_text_lines log_text :
  FindDiffTx.parse_erigon_log log_text
  = fold_left record_entry
      (mjoin (text_entries pattern_lazy <$> split_lines log_text)) ∅.
Proof.
  rewrite parse_text_entries. f_equal. unfold text_entries at 1.
  rewrite <- (split_lines_join log_text) at 1.
  rewrite finditer_join
    by (apply line_local_lazy || apply split_lines_no_LF || apply split_lines_nonempty).
  induction (split_lines log_text) as [|l ls IH]; [done|].
  by rewrite !fmap_cons, !mjoin_cons_eq, fmap_app, IH.
Qed.

(** ** Lines that end in a carriage return *)

Section final_CR.
Context (k : text → option match_result).
Context (Hk : ∀ s, k (s ++ [CR]) = k s).

Lemma match_digits_CR s : match_digits k (s ++ [CR]) = match_digits k s.
Proof.
  induction s as [|d s IH]; [done|].
  simpl. by rewrite IH, Hk.
Qed.

Lemma match_any_lazy_CR s : match_any_lazy k (s ++ [CR]) = match_any_lazy k s.
Proof.
  induction s as [|c s IH].
  - pose proof (Hk []) as Hnil. simpl in *. rewrite Hnil.
    by destruct (k []).
  - pose proof (Hk (c :: s)) as Hc. simpl in *. by rewrite IH, Hc.
Qed.

Lemma match_any_greedy_CR s :
  k [] = None → match_any_greedy k (s ++ [CR]) = match_any_greedy k s.
Proof.
  intros Hnil. induction s as [|c s IH].
  - pose proof (Hk []) as Hcr. simpl in *. by rewrite Hcr, Hnil.
  - pose proof (Hk (c :: s)) as Hc. simpl in *. by rewrite IH, Hc.
Qed.

End final_CR.

Lemma match_here_CR p s :
  ignores_final_CR p → match_here p (s ++ [CR]) = match_here p s.
Proof.
  revert s. induction p as [|[c| | |] p IH]; intros s Hp; [done|..].
  - destruct Hp as [Hc Hp]. destruct s as [|c' s]; simpl.
    + by destruct (Ascii.eqb_spec c CR).
    + by rewrite IH.
  - cbn [match_here]. rewrite match_digits_CR; [done|]. intros s'. by apply IH.
  - cbn [match_here]. apply match_any_lazy_CR. intros s'. by apply IH.
  - destruct Hp as [Hnil Hp]. cbn [match_here].
    apply match_any_greedy_CR; [|done]. intros s'. by apply IH.
Qed.

Lemma re_search_CR p s :
  ignores_final_CR p → match_here p [] = None →
  re_search p (s ++ [CR]) = re_search p s.
Proof.
  intros Hp Hnil. induction s as [|c s IH].
  - pose proof (match_here_CR p [] Hp) as Hcr. simpl in *. by rewrite Hcr, Hnil.
  - pose proof (match_here_CR p (c :: s) Hp) as Hc. simpl in *. by rewrite IH, Hc.
Qed.

Lemma ignores_final_CR_lazy : ignores_final_CR pattern_lazy.
Proof. vm_compute. repeat split; discriminate. Qed.

Lemma line_entry_CR raw clean :
  same_line raw clean → line_entry pattern_lazy raw = line_entry pattern_lazy clean.
Proof.
  intros [->| ->]; [done|]. unfold line_entry.
  by rewrite re_search_CR by (apply ignores_final_CR_lazy || done).
Qed.

Lemma occurrences_app w a b : (occurrences w a ≤ occurrences w (a ++ b))%nat.
Proof.
  induction a as [|c a IH].
  - simpl. case_decide as Hw; [|lia].
    apply prefix_nil_inv in Hw as ->.
    pose proof (prefix_nil b) as Hb.
    destruct b; simpl; repeat case_decide; (lia || done).
  - simpl. case_decide as Hw; [|lia].
    rewrite decide_True; [lia|]. by apply (prefix_app_r _ (c :: a)).
Qed.

Lemma same_line_occurrences w raw clean :
  same_line raw clean → (occurrences w clean ≤ occurrences w raw)%nat.
Proof. intros [->| ->]; [done|apply occurrences_app]. Qed.

(** Where every carriage return comes before a line feed, the lines of the
    text are those of the file, with a carriage return at the end. *)
Lemma lines_of_text_and_file s :
  no_lone_CR s = true →
  Forall2 same_line (split_lines s) (split_lines (universal_newlines s)).
Proof.
  induction s as [|c s IH]; [by repeat constructor|].
  cbn [no_lone_CR universal_newlines].
  destruct (Ascii.eqb_spec c CR) as [->|Hc].
  - destruct s as [|c' s]; [done|].
    destruct (Ascii.eqb_spec c' LF) as [->|]; [|done].
    intros Hs. specialize (IH Hs). simpl in IH |- *.
    apply Forall2_cons_1 in IH as [_ IH].
    constructor; [by right|done].
  - intros Hs. specialize (IH Hs). cbn [split_lines].
    destruct (is_newline c); [constructor; [by left|done]|].
    destruct IH as [|l l' ls ls' Hl Hls]; [repeat constructor|].
    constructor; [|done]. destruct Hl as [->| ->]; [by left|by right].
Qed.

Lemma parse_file_lines content :
  CompareErigonLog.parse_erigon_log content
  = fold_left record_entry
      (omap (line_entry pattern_lazy) (split_lines (universal_newlines content))) ∅.
Proof.
  unfold CompareErigonLog.parse_erigon_log, read_lines.
  rewrite parse_lines_entries.
  rewrite <- (split_lines_join (universal_newlines content)) at 1.
  rewrite line_entries_of_file; [done|apply line_local_lazy|done|..].
  - apply split_lines_no_LF.
  - apply split_lines_nonempty.
Qed.

Lemma parse_output_file_lines content :
  CompareAllGas.e_gasUsed <$> CompareAllGas.parse_erigon_output content
  = fold_left record_entry
      (omap (line_entry pattern_greedy) (split_lines (universal_newlines content))) ∅.
Proof.
  unfold CompareAllGas.parse_erigon_output, read_lines.
  rewrite parse_output_lines, fmap_empty.
  rewrite <- (split_lines_join (universal_newlines content)) at 1.
  rewrite line_entries_of_file; [done|apply line_local_greedy|done|..].
  - apply split_lines_no_LF.
  - apply split_lines_nonempty.
Qed.

(** C6, as the code has it: on a log in which every carriage return comes
    before a line feed and no line has two [gasUsed=], the three parsers
    build the same dictionary. *)
Theorem parsers_agree_on_one_gasUsed_per_line (s : text) :
  one_gasUsed_per_line s →
  FindDiffTx.parse_erigon_log s = CompareErigonLog.parse_erigon_log s ∧
  CompareAllGas.e_gasUsed <$> CompareAllGas.parse_erigon_output s
  = CompareErigonLog.parse_erigon_log s.
Proof.
  intros [Hcr Hlines].
  rewrite parse_file_lines, parse_output_file_lines, parse_text_lines.
  apply lines_of_text_and_file in Hcr.
  revert Hlines. generalize (split_lines (universal_newlines s)) Hcr.
  generalize (split_lines s). clear.
  intros raws cleans Hsame Hraws.
  assert (mjoin (text_entries pattern_lazy <$> raws)
          = omap (line_entry pattern_lazy) cleans) as ->.
  { induction Hsame as [|raw clean raws cleans Hl _ IH]; [done|].
    apply Forall_cons in Hraws as [Hraw Hraws].
    rewrite fmap_cons, mjoin_cons_eq, omap_cons_eq, IH by done.
    rewrite entries_one_gasUsed, (line_entry_CR raw clean) by done.
    by destruct (line_entry pattern_lazy clean). }
  assert (omap (line_entry pattern_greedy) cleans
          = omap (line_entry pattern_lazy) cleans) as ->; [|done].
  induction Hsame as [|raw clean raws cleans Hl _ IH]; [done|].
  apply Forall_cons in Hraws as [Hraw Hraws].
  rewrite !omap_cons_eq, IH by done. unfold line_entry.
  rewrite search_lazy_greedy; [done|].
  pose proof (same_line_occurrences (txt "gasUsed=") raw clean Hl). lia.
Qed.

(** A log of three receipts: its lines end in a carriage return and a line
    feed, and one of them has two [txIndex=]. *)
Lemma parsers_agree_witness :
  one_gasUsed_per_line
    (txt "[DEBUG] TX receipt txIndex=0 txHash=0xab gasUsed=117778" ++ [CR; LF]
     ++ txt "txIndex=1 txIndex=2 gasUsed=5" ++ [CR; LF]
     ++ txt "[DEBUG] TX receipt txIndex=3 txHash=0xcd gasUsed=21000" ++ [LF]) ∧
  (FindDiffTx.parse_erigon_log
     (txt "[DEBUG] TX receipt txIndex=0 txHash=0xab gasUsed=117778" ++ [CR; LF]
      ++ txt "txIndex=1 txIndex=2 gasUsed=5" ++ [CR; LF]
      ++ txt "[DEBUG] TX receipt txIndex=3 txHash=0xcd gasUsed=21000" ++ [LF])
   = CompareErigonLog.parse_erigon_log
     (txt "[DEBUG] TX receipt txIndex=0 txHash=0xab gasUsed=117778" ++ [CR; LF]
      ++ txt "txIndex=1 txIndex=2 gasUsed=5" ++ [CR; LF]
      ++ txt "[DEBUG] TX receipt txIndex=3 txHash=0xcd gasUsed=21000" ++ [LF]) ∧
   CompareAllGas.e_gasUsed <$> CompareAllGas.parse_erigon_output
     (txt "[DEBUG] TX receipt txIndex=0 txHash=0xab gasUsed=117778" ++ [CR; LF]
      ++ txt "txIndex=1 txIndex=2 gasUsed=5" ++ [CR; LF]
      ++ txt "[DEBUG] TX receipt txIndex=3 txHash=0xcd gasUsed=21000" ++ [LF])
   = CompareErigonLog.parse_erigon_log
     (txt "[DEBUG] TX receipt txIndex=0 txHash=0xab gasUsed=117778" ++ [CR; LF]
      ++ txt "txIndex=1 txIndex=2 gasUsed=5" ++ [CR; LF]
      ++ txt "[DEBUG] TX receipt txIndex=3 txHash=0xcd gasUsed=21000" ++ [LF])).
Proof.
  assert (one_gasUsed_per_line
    (txt "[DEBUG] TX receipt txIndex=0 txHash=0xab gasUsed=117778" ++ [CR; LF]
     ++ txt "txIndex=1 txIndex=2 gasUsed=5" ++ [CR; LF]
     ++ txt "[DEBUG] TX receipt txIndex=3 txHash=0xcd gasUsed=21000" ++ [LF]))
    as H by (apply (bool_decide_unpack _); vm_compute; reflexivity).
  split; [exact H|]. apply (parsers_agree_on_one_gasUsed_per_line _ H).
Defined.

(** C6, as stated, fails.  On a line with two [gasUsed=] the non-greedy
    search keeps the first value and the greedy one the last; on a line
    with two receipts [re.search] keeps the first and [re.finditer] both;
    a lone carriage return ends a line of a file but not a line for
    [re.finditer]. *)
Lemma parsers_differ :
  CompareErigonLog.parse_erigon_log (txt "txIndex=1 gasUsed=5 gasUsed=7")
  = {[1 := 5]} ∧
  CompareAllGas.e_gasUsed
    <$> CompareAllGas.parse_erigon_output (txt "txIndex=1 gasUsed=5 gasUsed=7")
  = {[1 := 7]} ∧
  CompareErigonLog.parse_erigon_log (txt "txIndex=1 gasUsed=5 txIndex=2 gasUsed=7")
  = {[1 := 5]} ∧
  FindDiffTx.parse_erigon_log (txt "txIndex=1 gasUsed=5 txIndex=2 gasUsed=7")
  = {[1 := 5; 2 := 7]} ∧
  CompareErigonLog.parse_erigon_log (txt "txIndex=1" ++ [CR] ++ txt "gasUsed=5")
  = ∅ ∧
  FindDiffTx.parse_erigon_log (txt "txIndex=1" ++ [CR] ++ txt "gasUsed=5")
  = {[1 := 5]}.
Proof. split_and!; vm_compute; reflexivity. Qed.

(** ** Integers as decimal strings *)

Lemma parse_digits_acc d p prev :
  parse_digits 10 (Z.pos p) prev (txt (DecimalString.NilEmpty.string_of_uint d))
  = if prev || match d with Decimal.Nil => false | _ => true end
    then Some (Z.pos (Pos.of_uint_acc d p)) else None.
Proof.
  revert p prev. induction d as [|d IH|d IH|d IH|d IH|d IH|d IH|d IH|d IH|d IH|d IH];
    intros p prev; [by destruct prev|..];
    rewrite orb_true_r; simpl;
    match goal with
    | |- parse_digits _ ?a _ _ = Some (Z.pos (Pos.of_uint_acc _ ?q)) =>
        replace a with (Z.pos q)
          by (match goal with
              | |- _ = _ + (Z.of_nat ?n - 48) =>
                  let v := eval vm_compute in (Z.of_nat n) in
                  change (Z.of_nat n) with v; lia
              end)
    end;
    by rewrite IH.
Qed.

Lemma parse_digits_uint d prev :
  parse_digits 10 0 prev (txt (DecimalString.NilEmpty.string_of_uint d))
  = if prev || match d with Decimal.Nil => false | _ => true end
    then Some (Z.of_N (Pos.of_uint d)) else None.
Proof.
  revert prev. induction d as [|d IH|d IH|d IH|d IH|d IH|d IH|d IH|d IH|d IH|d IH];
    intros prev; [by destruct prev|..]; rewrite orb_true_r; simpl;
    match goal with
    | |- parse_digits _ ?a _ _ = _ =>
        let v := eval vm_compute in a in change a with v
    end;
    [by rewrite (IH true)|by rewrite parse_digits_acc..].
Qed.

Lemma uint_chars_digits d :
  Forall (λ c, is_digit c = true) (txt (DecimalString.NilEmpty.string_of_uint d)).
Proof. induction d; simpl; by constructor. Qed.

Lemma digit_not_space c : is_digit c = true → is_int_space c = false.
Proof. by destruct c as [[] [] [] [] [] [] [] []]. Qed.

Lemma digit_not_sign c :
  is_digit c = true → Ascii.eqb c "-" = false ∧ Ascii.eqb c "+" = false.
Proof. by destruct c as [[] [] [] [] [] [] [] []]. Qed.

Lemma lstrip_no_space space s :
  Forall (λ c, space c = false) s → lstrip space s = s.
Proof. destruct 1 as [|c s Hc _]; simpl; [done|]. by rewrite Hc. Qed.

Lemma strip_no_space space s :
  Forall (λ c, space c = false) s → strip_with space s = s.
Proof.
  intros Hs. unfold strip_with. rewrite (lstrip_no_space _ s) by done.
  rewrite lstrip_no_space by by apply Forall_reverse.
  apply reverse_involutive.
Qed.

Lemma parse_unsigned_uint d :
  d ≠ Decimal.Nil →
  parse_int 10 (DecimalString.NilEmpty.string_of_uint d)
  = Some (Z.of_N (Pos.of_uint d)).
Proof.
  intros Hd. unfold parse_int.
  pose proof (uint_chars_digits d) as Hdigits.
  rewrite strip_no_space
    by (eapply Forall_impl; [done|]; apply digit_not_space).
  pose proof (parse_digits_uint d false) as Hparse.
  assert (match d with Decimal.Nil => false | _ => true end = true) as Hnil
    by (by destruct d).
  rewrite Hnil in Hparse. simpl in Hparse.
  destruct (txt (DecimalString.NilEmpty.string_of_uint d)) as [|c s] eqn:Hchars.
  { by destruct d. }
  apply Forall_cons in Hdigits as [[-> ->]%digit_not_sign _].
  unfold parse_unsigned. by rewrite decide_False.
Qed.

Lemma txt_String c s : txt (String c s) = c :: txt s.
Proof. done. Qed.

(** [int(str(n)) == n] *)
Lemma parse_int_py_str (n : Z) : parse_int 10 (py_str n) = Some n.
Proof.
  unfold py_str. destruct n as [|p|p]; [done|..]; simpl.
  - pose proof (DecimalPos.Unsigned.to_uint_nonnil p) as Hp.
    assert (DecimalString.NilZero.string_of_uint (Pos.to_uint p)
            = DecimalString.NilEmpty.string_of_uint (Pos.to_uint p)) as ->
      by (by destruct (Pos.to_uint p)).
    by rewrite parse_unsigned_uint, DecimalPos.Unsigned.of_to.
  - pose proof (DecimalPos.Unsigned.to_uint_nonnil p) as Hp.
    assert (DecimalString.NilZero.string_of_uint (Pos.to_uint p)
            = DecimalString.NilEmpty.string_of_uint (Pos.to_uint p)) as ->
      by (by destruct (Pos.to_uint p)).
    pose proof (parse_unsigned_uint _ Hp) as Hparse.
    pose proof (uint_chars_digits (Pos.to_uint p)) as Hdigits.
    unfold parse_int in *. rewrite txt_String.
    rewrite strip_no_space in Hparse
      by (eapply Forall_impl; [done|]; apply digit_not_space).
    rewrite strip_no_space
      by (constructor; [done|]; eapply Forall_impl; [done|]; apply digit_not_space).
    rewrite Ascii.eqb_refl.
    destruct (txt (DecimalString.NilEmpty.string_of_uint (Pos.to_uint p)))
      as [|c s] eqn:Hchars; [done|].
    apply Forall_cons in Hdigits as [[Hm Hp']%digit_not_sign _].
    rewrite Hm, Hp' in Hparse. rewrite Hparse.
    by rewrite DecimalPos.Unsigned.of_to.
Qed.

#[global] Instance py_str_inj : Inj eq eq py_str.
Proof.
  intros a b Hab. pose proof (parse_int_py_str a) as Ha.
  rewrite Hab, parse_int_py_str in Ha. by injection Ha.
Qed.

(** ** What the groups capture

    The parsers apply [int] to the two groups of a match.  A group is a
    non-empty run of digits, on which [int] is the decimal reading
    [int_of_digits] and cannot fail. *)

Lemma digit_char c :
  is_digit c = true →
  Ascii.eqb c "_" = false ∧ digit_in_base 10 c = Some (digit_value c).
Proof. by destruct c as [[] [] [] [] [] [] [] []]. Qed.

Lemma parse_digits_run ds acc prev :
  Forall (λ c, is_digit c = true) ds → prev = true ∨ ds ≠ [] →
  parse_digits 10 acc prev ds
  = Some (fold_left (λ a d, 10 * a + digit_value d) ds acc).
Proof.
  intros Hds. revert acc prev.
  induction Hds as [|c ds [Hu Hc]%digit_char _ IH]; intros acc prev Hne.
  - destruct Hne as [->|]; done.
  - cbn [parse_digits fold_left]. rewrite Hu, Hc. apply IH. by left.
Qed.

Lemma parse_int_digit_run g :
  digit_run g → parse_int 10 (string_of_list_ascii g) = Some (int_of_digits g).
Proof.
  intros [Hne Hg]. unfold parse_int, txt.
  rewrite list_ascii_of_string_of_list_ascii.
  rewrite strip_no_space by (eapply Forall_impl; [done|]; apply digit_not_space).
  destruct g as [|c g]; [done|].
  pose proof Hg as [[-> ->]%digit_not_sign _]%Forall_cons.
  unfold parse_unsigned. rewrite decide_False by done.
  apply parse_digits_run; [done|by right].
Qed.

Section captures.
Context (k : text → option match_result) (q : list text → Prop).
Context (Hk : ∀ s caps n, k s = Some (caps, n) → q caps).

Lemma match_digits_captures s g caps n :
  match_digits k s = Some (g, (caps, n)) → digit_run g ∧ q caps.
Proof.
  revert g caps n. induction s as [|d s IH]; intros g caps n; simpl; [done|].
  destruct (is_digit d) eqn:Hd; [|done].
  destruct (match_digits k s) as [[g' [caps' n']]|].
  - intros [= <- <- <-]. destruct (IH _ _ _ eq_refl) as [[_ Hg'] Hq].
    split; [|done]. split; [done|by constructor].
  - destruct (k s) as [[caps' n']|] eqn:Hks; [|done].
    intros [= <- <- <-]. split; [|by eapply Hk].
    split; [done|by repeat constructor].
Qed.

Lemma match_any_lazy_captures s caps n :
  match_any_lazy k s = Some (caps, n) → q caps.
Proof.
  revert caps n. induction s as [|c s IH]; intros caps n; simpl.
  - rewrite or_else_None_r. apply Hk.
  - destruct (k (c :: s)) as [[caps' n']|] eqn:Hks; simpl.
    + intros [= <- <-]. by eapply Hk.
    + destruct (is_newline c); [done|].
      destruct (match_any_lazy k s) as [[caps' n']|]; [|done].
      intros [= <- <-]. by eapply IH.
Qed.

Lemma match_any_greedy_captures s caps n :
  match_any_greedy k s = Some (caps, n) → q caps.
Proof.
  revert caps n. induction s as [|c s IH]; intros caps n; simpl; [apply Hk|].
  destruct (is_newline c); [apply Hk|].
  destruct (match_any_greedy k s) as [[caps' n']|]; simpl; [|apply Hk].
  intros [= <- <-]. by eapply IH.
Qed.

End captures.

Lemma match_here_captures p s m : match_here p s = Some m → captures_of p m.
Proof.
  revert s m. induction p as [|it p IH]; intros s [caps n]; cbn [match_here].
  - intros [= <- <-]. by split.
  - destruct it; cbn [groups].
    + destruct s as [|c' s]; [done|]. destruct (Ascii.eqb c c'); [|done].
      destruct (match_here p s) as [[caps' n']|] eqn:Hrec; [|done].
      simpl. intros [= <- <-]. by apply (IH s (caps', n')).
    + destruct (match_digits (match_here p) s) as [[g [caps' n']]|] eqn:Hd; [|done].
      intros [= <- <-].
      apply (match_digits_captures _ (λ caps, captures_of p (caps, 0%nat))) in Hd
        as [Hg [Hlen Hall]]; [|intros s' c' n'' ?; by apply (IH s' (c', n''))].
      split; simpl in *; [by f_equal|by constructor].
    + intros Hm.
      by apply (match_any_lazy_captures _ (λ caps, captures_of p (caps, 0%nat)))
        in Hm; [|intros s' c' n'' ?; by apply (IH s' (c', n''))].
    + intros Hm.
      by apply (match_any_greedy_captures _ (λ caps, captures_of p (caps, 0%nat)))
        in Hm; [|intros s' c' n'' ?; by apply (IH s' (c', n''))].
Qed.

Lemma re_search_captures p s m : re_search p s = Some m → captures_of p m.
Proof.
  induction s as [|c s IH]; simpl.
  - rewrite or_else_None_r. apply match_here_captures.
  - destruct (match_here p (c :: s)) as [m'|] eqn:Hm; simpl; [|done].
    intros [= <-]. by eapply match_here_captures.
Qed.

Lemma finditer_captures p k s m : m ∈ finditer_from p k s → captures_of p m.
Proof.
  revert k. induction s as [|c s IH]; intros k.
  - destruct k; simpl; [|by intros ?%elem_of_nil].
    destruct (match_here p []) as [[caps n]|] eqn:Hm; [|by intros ?%elem_of_nil].
    intros ->%list_elem_of_singleton. by eapply match_here_captures.
  - destruct k; simpl; [|apply IH].
    destruct (match_here p (c :: s)) as [[caps n]|] eqn:Hm; [|apply IH].
    intros [->|?]%elem_of_cons; [by eapply match_here_captures|by eapply IH].
Qed.

(** [int(match.group(i))] is [int_of_digits (group i m)]. *)
Lemma int_of_group p m i :
  captures_of p m → (1 ≤ i ≤ groups p)%nat →
  parse_int 10 (string_of_list_ascii (group i m)) = Some (int_of_digits (group i m)).
Proof.
  intros [Hlen Hall] Hi. apply parse_int_digit_run. unfold group.
  destruct (lookup_lt_is_Some_2 m.1 (pred i)) as [g Hg]; [lia|].
  rewrite Hg. simpl. rewrite Forall_forall in Hall.
  by eapply Hall, list_elem_of_lookup_2.
Qed.

(** X5: [int] accepts what the parsers give it: each of the two groups of
    a match of either pattern, found by [re.search] or by [re.finditer],
    is a run of digits, and on a group of 4300 digits at most [int] is
    the decimal reading of these digits. *)
Lemma parser_groups_are_integers p s m i :
  p = pattern_lazy ∨ p = pattern_greedy →
  re_search p s = Some m ∨ m ∈ re_finditer p s →
  i = 1%nat ∨ i = 2%nat →
  (length (group i m) ≤ 4300)%nat →
  digit_run (group i m) ∧
  parse_int 10 (string_of_list_ascii (group i m)) = Some (int_of_digits (group i m)).
Proof.
  intros Hp Hm Hi _.
  assert (captures_of p m) as Hcaps.
  { destruct Hm as [Hm|Hm]; [by eapply re_search_captures|].
    by eapply finditer_captures. }
  assert (1 ≤ i ≤ groups p)%nat as Hgroups
    by (destruct Hp as [->| ->], Hi as [->| ->]; vm_compute; lia).
  split; [|by apply (int_of_group p)].
  destruct Hcaps as [Hlen Hall]. unfold group.
  destruct (lookup_lt_is_Some_2 m.1 (pred i)) as [g Hg]; [lia|].
  rewrite Hg. simpl. rewrite Forall_forall in Hall.
  by eapply Hall, list_elem_of_lookup_2.
Qed.

(** ** The cache file: written by one script, read by the other *)

Lemma elem_of_dict_items {A} (m : gmap Z A) k v :
  (k, v) ∈ dict_items m ↔ m !! k = Some v.
Proof.
  unfold dict_items. rewrite list_elem_of_omap. split.
  - intros (i & _ & Hi). destruct (m !! i) as [x|] eqn:Hx; [|done].
    simpl in Hi. by injection Hi as -> ->.
  - intros Hk. exists k. split.
    + apply elem_of_sorted, elem_of_elements, elem_of_dom. by eexists.
    + by rewrite Hk.
Qed.

Lemma dict_items_keys {A} (m : gmap Z A) :
  (dict_items m).*1 = sorted (elements (dom m)).
Proof.
  unfold dict_items.
  assert (∀ i, i ∈ sorted (elements (dom m)) → is_Some (m !! i)) as Hdom.
  { intros i Hi. by apply elem_of_dom, elem_of_elements, elem_of_sorted. }
  induction (sorted (elements (dom m))) as [|i l IH]; [done|].
  rewrite omap_cons_eq.
  destruct (Hdom i) as [x Hx]; [by left|]. rewrite Hx.
  cbn [fmap option_fmap option_map]. rewrite fmap_cons. cbn [fst].
  rewrite IH; [done|]. intros j Hj. apply Hdom. by right.
Qed.

Lemma NoDup_dict_items {A} (m : gmap Z A) : NoDup (dict_items m).*1.
Proof. rewrite dict_items_keys. apply NoDup_sorted, NoDup_elements. Qed.

Lemma last_gas_NoDup es i v :
  NoDup es.*1 → last_gas i es = Some v ↔ (i, v) ∈ es.
Proof.
  induction es as [|[k x] es IH] using rev_ind; intros Hnd.
  { split; [done|]. by intros ?%elem_of_nil. }
  rewrite fmap_app in Hnd. apply NoDup_app in Hnd as (Hnd & Hfresh & _).
  rewrite last_gas_snoc, elem_of_app, list_elem_of_singleton. simpl.
  case_decide as Hk.
  - subst k. split; [intros [= ->]; by right|].
    intros [Hin|[= ->]]; [|done].
    exfalso. apply (Hfresh i); [|by left].
    apply list_elem_of_fmap. by exists (i, v).
  - rewrite IH by done. split; [by left|].
    intros [?|[= -> ->]]; done.
Qed.

Lemma record_dict_items (m : gmap Z Z) :
  fold_left record_entry (dict_items m) ∅ = m.
Proof.
  apply map_eq. intros i. rewrite record_entries_lookup, lookup_empty.
  destruct (m !! i) as [v|] eqn:Hm.
  - apply elem_of_dict_items, last_gas_NoDup in Hm as ->;
      [done|apply NoDup_dict_items].
  - destruct (last_gas i (dict_items m)) as [v|] eqn:Hlast; [|done].
    apply last_gas_NoDup, elem_of_dict_items in Hlast;
      [congruence|apply NoDup_dict_items].
Qed.

Lemma dict_set_fresh {A} k (v : A) d :
  k ∉ d.*1 → dict_set k v d = d ++ [(k, v)].
Proof.
  induction d as [|[k' v'] d IH]; intros Hk; simpl; [done|].
  rewrite fmap_cons, not_elem_of_cons in Hk. destruct Hk as [Hne Hk].
  destruct (String.eqb_spec k k') as [->|_]; [done|]. by rewrite IH.
Qed.

Lemma json_load_NoDup {A} (members : list (string * A)) :
  NoDup members.*1 → json_load members = members.
Proof.
  unfold json_load.
  enough (∀ d, NoDup (d ++ members).*1 →
    fold_left (λ d kv, dict_set kv.1 kv.2 d) members d = d ++ members) as H
    by (intros Hnd; by apply (H [])).
  induction members as [|[k v] members IH]; intros d Hnd; simpl.
  - by rewrite app_nil_r.
  - rewrite dict_set_fresh.
    + rewrite IH; rewrite <- app_assoc; done.
    + rewrite fmap_app in Hnd. apply NoDup_app in Hnd as (_ & Hfresh & _).
      intros Hk. apply (Hfresh k Hk). rewrite fmap_cons. by left.
Qed.

Lemma load_rpc_gas_entries (es : list (Z * Z)) (d : gmap Z Z) :
  foldl (λ acc kv,
      match acc, parse_int 10 kv.1 with
      | Ok rpc_gas, Some k => Ok (<[k := kv.2]> rpc_gas)
      | Ok _, None => Raise ValueError
      | Raise e, _ => Raise e
      end)
    (Ok d) (prod_map py_str id <$> es)
  = Ok (fold_left record_entry es d).
Proof.
  revert d. induction es as [|[k v] es IH]; intros d; [done|].
  rewrite fmap_cons. cbn [foldl prod_map fst snd id]. rewrite parse_int_py_str.
  apply IH.
Qed.

(** The members [json.dump] writes are read back as the dictionary, the
    conversions being those of the model. *)
Lemma load_of_dump (rpc_gas : gmap Z Z) :
  CompareErigonLog.load_rpc_gas (json_dump rpc_gas) = Ok rpc_gas.
Proof.
  unfold CompareErigonLog.load_rpc_gas, json_dump.
  rewrite json_load_NoDup.
  - by rewrite load_rpc_gas_entries, record_dict_items.
  - rewrite <- list_fmap_compose.
    change (fst ∘ prod_map py_str id) with (py_str ∘ (fst : Z * Z → Z)).
    rewrite list_fmap_compose.
    apply NoDup_fmap_2; [apply _|apply NoDup_dict_items].
Qed.

(** C7: writing a dictionary of gas values with [json.dump] (which turns
    its integer keys into strings) and reading it back as
    [compare_erigon_log.py] does, with [int(k)] on every key, gives the
    dictionary again, provided no index and no gas value has more than
    4300 digits: beyond, [json.dump] raises [ValueError] and leaves the
    file unfinished. *)
Theorem cache_round_trip (rpc_gas : gmap Z Z) :
  map_Forall (λ i g, printable i ∧ printable g) rpc_gas →
  CompareErigonLog.load_rpc_gas (json_dump rpc_gas) = Ok rpc_gas.
Proof. intros _. apply load_of_dump. Qed.

(** The gas used of two transactions. *)
Lemma cache_round_trip_witness :
  map_Forall (λ i g, printable i ∧ printable g)
    ({[0 := 117778; 1 := 21000]} : gmap Z Z) ∧
  CompareErigonLog.load_rpc_gas (json_dump ({[0 := 117778; 1 := 21000]} : gmap Z Z))
  = Ok {[0 := 117778; 1 := 21000]}.
Proof.
  assert (map_Forall (λ i g, printable i ∧ printable g)
            ({[0 := 117778; 1 := 21000]} : gmap Z Z)) as H.
  { apply map_Forall_insert_2; [split; apply (bool_decide_unpack _); vm_compute; reflexivity|].
    apply map_Forall_singleton.
    split; apply (bool_decide_unpack _); vm_compute; reflexivity. }
  split; [exact H|]. apply (cache_round_trip _ H).
Defined.

(** ** Running the scripts *)

Lemma bind_Ok {A B} (m : M A) (f : A → M B) w a w' :
  m w = (Ok a, w') → (m ≫= f) w = f a w'.
Proof. intros Hm. unfold mbind, M_bind. by rewrite Hm. Qed.

Lemma bind_Raise {A B} (m : M A) (f : A → M B) w e w' :
  m w = (Raise e, w') → (m ≫= f) w = (Raise e, w').
Proof. intros Hm. unfold mbind, M_bind. by rewrite Hm. Qed.

Lemma bind_print {B} t a (f : unit → M B) w :
  (print t a ≫= f) w = f tt (say (Line t a) w).
Proof. done. Qed.

Lemma bind_mret {A B} (a : A) (f : A → M B) w : (mret a ≫= f) w = f a w.
Proof. done. Qed.

Lemma bind_lift_Ok {A B} (a : A) (f : A → M B) w : (lift (Ok a) ≫= f) w = f a w.
Proof. done. Qed.

Lemma bind_lift_Raise {A B} e (f : A → M B) w :
  (lift (Raise e) ≫= f) w = (Raise e, w).
Proof. done. Qed.

(** ** The RPC helpers *)

(** [rpc_call] gives the [result] of the response, or [None] when the
    request fails, the body is not JSON, the response is not an object or
    has no [result]; it never raises. *)
Lemma rpc_call_returns method params w :
  (CheckDelegation.rpc_call method params w).1
  = Ok match head (network w) with
       | Some (Body (PDict d)) => default PNone (assoc "result" d)
       | _ => PNone
       end.
Proof.
  unfold CheckDelegation.rpc_call, try_except_Exception, try_except,
    mbind, M_bind, urlopen_json.
  destruct (network w) as [|[| |[]] rest]; reflexivity.
Qed.

(** Case analysis on the values a script inspects. *)
Ltac py_cases :=
  repeat (simpl;
    match goal with
    | |- context [dict_get ?v _ _] => is_var v; destruct v
    | |- context [subscript ?v _] => is_var v; destruct v
    | |- context [int16 ?v] => is_var v; destruct v
    | |- context [assoc ?k ?d] => destruct (assoc k d) eqn:?
    | |- context [truthy ?v] => destruct (truthy v) eqn:?
    | |- context [parse_int ?b ?s] => destruct (parse_int b s) eqn:?
    | |- context [if ?b then _ else _] => is_var b; destruct b
    | |- context [match ?l with [] => _ | _ :: _ => _ end] => is_var l; destruct l
    | |- context [negb (?z =? 0)] => destruct (z =? 0) eqn:?
    | |- context [negb (String.eqb ?s ?t)] => destruct (String.eqb s t) eqn:?
    end).

(** So does [get_block_tx_hashes] of [compare_gas_block.py]: the same
    request for the block, kept inside a [try]. *)
Lemma get_block_tx_hashes_never_raises block_num w :
  ∃ tx_hashes, (CompareGasBlock.get_block_tx_hashes block_num w).1 = Ok tx_hashes.
Proof.
  unfold CompareGasBlock.get_block_tx_hashes, try_except_Exception, try_except,
    mbind, M_bind, urlopen_json, lift, mret, M_ret.
  destruct (network w) as [|[| |data] rest]; py_cases; eauto.
Qed.

(** C4 fails for the two functions that fetch all receipts: the request
    for the block is outside any [try], so the failure of the HTTP call,
    a body that is not JSON and a response without [result] all reach the
    caller as exceptions.  [get_block_tx_hashes] sends the same request
    and returns the empty list in these cases. *)
Theorem block_request_failure_reaches_the_caller :
  (FindDiffTx.get_block_receipts 23800003 (only_replies [HttpFailure])).1
    = Raise URLError ∧
  (FindDiffTx.get_block_receipts 23800003 (only_replies [BadBody])).1
    = Raise JSONDecodeError ∧
  (FindDiffTx.get_block_receipts 23800003 (only_replies [error_response])).1
    = Raise KeyError ∧
  (CompareAllGas.get_all_receipts (only_replies [HttpFailure])).1
    = Raise URLError ∧
  (CompareAllGas.get_all_receipts (only_replies [BadBody])).1
    = Raise JSONDecodeError ∧
  (CompareAllGas.get_all_receipts (only_replies [error_response])).1
    = Raise KeyError ∧
  (CompareGasBlock.get_block_tx_hashes 23800003 (only_replies [HttpFailure])).1
    = Ok (PList []) ∧
  (CompareGasBlock.get_block_tx_hashes 23800003 (only_replies [error_response])).1
    = Ok (PList []).
Proof. split_and!; vm_compute; reflexivity. Qed.

(** ** A receipt that cannot be fetched *)

Lemma for_each_cons {A S} (body : S → A → M S) s x l w :
  for_each body s (x :: l) w = (body s x ≫= λ s', for_each body s' l) w.
Proof. done. Qed.

Lemma subscript_result data result :
  dict_get data "result" PNone = Ok result → truthy result = true →
  subscript data "result" = Ok result.
Proof.
  destruct data as [| | | | |d]; try done. cbn [dict_get subscript].
  destruct (assoc "result" d) as [r|]; [by intros [= ->]|].
  by intros [= <-].
Qed.

Section failed_fetch.
Context (w : world) (n : nat) (i : Z) (tx_hash : pyval).

Lemma find_diff_tx_skips e rpc_gas :
  fetch_fails fields_of_find_diff_tx (head (network w)) e →
  FindDiffTx.fetch_receipt n rpc_gas (i, tx_hash) w
  = (Ok rpc_gas,
     let w1 := sent (eth_getTransactionReceipt tx_hash) w in
     if decide (i `mod` 50 = 0)
     then say (Line "  {i}/{len(tx_hashes)}..." [FInt i; FInt (Z.of_nat n)]) w1
     else w1).
Proof.
  intros Hfails.
  unfold FindDiffTx.fetch_receipt, try_except, mbind, M_bind, urlopen_json,
    lift, mret, M_ret, print.
  destruct (network w) as [|r rest]; cbn [head] in Hfails;
    inversion Hfails as [| | |data e' Hd|data res Hd Hres|data res e' Hd Hres He];
    subst; try (by case_decide).
  - rewrite Hd. by case_decide.
  - rewrite Hd, Hres. by case_decide.
  - rewrite Hd, Hres, (subscript_result _ _ Hd Hres).
    cbn [field_error fields_of_find_diff_tx] in He.
    destruct (subscript res "gasUsed") as [g|]; [|by case_decide].
    destruct (int16 g); [done|by case_decide].
Qed.

Lemma compare_all_gas_skips e receipts :
  fetch_fails fields_of_compare_all_gas (head (network w)) e →
  CompareAllGas.fetch_receipt n receipts (i, tx_hash) w
  = (Ok receipts,
     let w1 := sent (eth_getTransactionReceipt tx_hash) w in
     let w2 := match e with
               | Some e => say (Line "Error fetching TX {i}: {e}" [FInt i; FExn e]) w1
               | None => w1
               end in
     if decide (i `mod` 20 = 0)
     then say (Line "  Fetched {i}/{len(tx_hashes)}..." [FInt i; FInt (Z.of_nat n)]) w2
     else w2).
Proof.
  intros Hfails.
  unfold CompareAllGas.fetch_receipt, try_except_Exception, try_except,
    mbind, M_bind, urlopen_json, lift, mret, M_ret, print.
  destruct (network w) as [|r rest]; cbn [head] in Hfails;
    inversion Hfails as [| | |data e' Hd|data res Hd Hres|data res e' Hd Hres He];
    subst; cbn [is_Exception]; try (by case_decide).
  - rewrite Hd.
    assert (is_Exception e' = true) as ->; [|by case_decide].
    destruct data; simpl in Hd; by simplify_eq.
  - rewrite Hd, Hres. by case_decide.
  - rewrite Hd, Hres, (subscript_result _ _ Hd Hres).
    assert (is_Exception e' = true) as Hexc.
    { cbn [field_error fields_of_compare_all_gas] in He.
      repeat match type of He with
             | match ?x with _ => _ end = _ =>
                 let H := fresh in destruct x eqn:H
             end; simplify_eq;
      repeat match goal with
             | H : subscript ?v _ = Raise _ |- _ =>
                 destruct v; simpl in H; repeat case_match; simplify_eq
             | H : int16 ?v = Raise _ |- _ =>
                 destruct v; simpl in H; repeat case_match; simplify_eq
             end; done. }
    cbn [field_error fields_of_compare_all_gas] in He.
    destruct (subscript res "gasUsed") as [g|];
      [|simplify_eq; rewrite Hexc; by case_decide].
    destruct (int16 g); [|simplify_eq; rewrite Hexc; by case_decide].
    destruct (subscript res "cumulativeGasUsed") as [c|];
      [|simplify_eq; rewrite Hexc; by case_decide].
    destruct (int16 c); [done|simplify_eq; rewrite Hexc; by case_decide].
Qed.

Lemma compare_gas_block_skips e :
  fetch_fails fields_of_compare_gas_block (head (network w)) e →
  CompareGasBlock.get_receipt_from_rpc tx_hash w
  = (Ok None, sent (eth_getTransactionReceipt tx_hash) w).
Proof.
  intros Hfails.
  unfold CompareGasBlock.get_receipt_from_rpc, try_except_Exception, try_except,
    mbind, M_bind, urlopen_json, lift, mret, M_ret.
  destruct (network w) as [|r rest]; cbn [head] in Hfails;
    inversion Hfails as [| | |data e' Hd|data res Hd Hres|data res e' Hd Hres He];
    subst; cbn [is_Exception]; try done.
  - rewrite Hd. destruct data; simpl in Hd; by simplify_eq.
  - by rewrite Hd, Hres.
  - rewrite Hd, Hres, (subscript_result _ _ Hd Hres).
    assert (is_Exception e' = true) as Hexc.
    { cbn [field_error fields_of_compare_gas_block] in He.
      repeat match type of He with
             | match ?x with _ => _ end = _ =>
                 let H := fresh in destruct x eqn:H
             end; simplify_eq;
      repeat match goal with
             | H : subscript ?v _ = Raise _ |- _ =>
                 destruct v; simpl in H; repeat case_match; simplify_eq
             | H : dict_get ?v _ _ = Raise _ |- _ =>
                 destruct v; simpl in H; repeat case_match; simplify_eq
             | H : int16 ?v = Raise _ |- _ =>
                 destruct v; simpl in H; repeat case_match; simplify_eq
             end; done. }
    cbn [field_error fields_of_compare_gas_block] in He.
    destruct (subscript res "gasUsed") as [g|]; [|simplify_eq; by rewrite Hexc].
    destruct (int16 g); [|simplify_eq; by rewrite Hexc].
    destruct (subscript res "cumulativeGasUsed") as [c|];
      [|simplify_eq; by rewrite Hexc].
    destruct (int16 c); [|simplify_eq; by rewrite Hexc].
    destruct (dict_get res "type" (PStr "0x0")) as [t|];
      [|simplify_eq; by rewrite Hexc].
    destruct (int16 t); [done|simplify_eq; by rewrite Hexc].
Qed.

End failed_fetch.

(** A reply either fails in one of the ways of [fetch_fails], or carries a
    result in which every field is read. *)
Lemma fetch_fails_or_reads fields r :
  (∃ e, fetch_fails fields r e) ∨
  (∃ data result,
     r = Some (Body data) ∧ dict_get data "result" PNone = Ok result ∧
     truthy result = true ∧ field_error fields result = None).
Proof.
  destruct r as [[| |data]|];
    [left; eexists; constructor..| |left; eexists; constructor].
  destruct (dict_get data "result" PNone) as [result|e] eqn:Hd;
    [|left; eexists; by apply no_object].
  destruct (truthy result) eqn:Hres;
    [|left; eexists; by eapply missing_result].
  destruct (field_error fields result) as [e|] eqn:He.
  - left. eexists. by eapply unreadable_field.
  - right. by exists data, result.
Qed.

Lemma read_field result k :
  match subscript result k with
  | Ok v => match int16 v with Ok z => Some z | Raise _ => None end
  | Raise _ => None
  end
  = match result with
    | PDict res =>
        match assoc k res with
        | Some (PStr g) => parse_int 16 g
        | _ => None
        end
    | _ => None
    end.
Proof.
  destruct result as [| | | | |res]; try done. cbn [subscript].
  destruct (assoc k res) as [[| | |g| |]|]; try done.
  cbn [int16]. by destruct (parse_int 16 g).
Qed.

Lemma no_gas_is_a_failure r :
  receipt_gas r = None → ∃ e, fetch_fails fields_of_find_diff_tx r e.
Proof.
  intros Hnone.
  destruct (fetch_fails_or_reads fields_of_find_diff_tx r)
    as [?|(data & result & -> & Hd & Hres & He)]; [done|exfalso].
  cbn [field_error fields_of_find_diff_tx] in He.
  pose proof (read_field result "gasUsed") as Hg.
  destruct data as [| | | | |d]; try done. cbn [dict_get] in Hd.
  cbn [receipt_gas] in Hnone.
  destruct (assoc "result" d) as [r|]; cbn [default] in Hd; simplify_eq;
    try done.
  destruct result as [| | | | |res]; try done.
  rewrite Hres in Hnone. rewrite <- Hg in Hnone.
  destruct (subscript (PDict res) "gasUsed") as [v|]; [|done].
  by destruct (int16 v).
Qed.

Lemma no_fields_is_a_failure r :
  receipt_fields r = None → ∃ e, fetch_fails fields_of_compare_all_gas r e.
Proof.
  intros Hnone.
  destruct (fetch_fails_or_reads fields_of_compare_all_gas r)
    as [?|(data & result & -> & Hd & Hres & He)]; [done|exfalso].
  cbn [field_error fields_of_compare_all_gas] in He.
  pose proof (read_field result "gasUsed") as Hg.
  pose proof (read_field result "cumulativeGasUsed") as Hc.
  destruct data as [| | | | |d]; try done. cbn [dict_get] in Hd.
  cbn [receipt_fields] in Hnone.
  destruct (assoc "result" d) as [r|]; cbn [default] in Hd; simplify_eq;
    try done.
  destruct result as [| | | | |res]; try done.
  rewrite Hres in Hnone.
  destruct (subscript (PDict res) "gasUsed") as [v|]; [|done].
  destruct (int16 v) as [g|]; [|done].
  destruct (subscript (PDict res) "cumulativeGasUsed") as [v'|]; [|done].
  destruct (int16 v') as [c|]; [|done].
  destruct (assoc "gasUsed" res) as [[| | |sg| |]|]; try done.
  destruct (assoc "cumulativeGasUsed" res) as [[| | |sc| |]|]; try done.
  rewrite <- Hg, <- Hc in Hnone. done.
Qed.

Lemma no_receipt_is_a_failure tx_hash w :
  (CompareGasBlock.get_receipt_from_rpc tx_hash w).1 = Ok None →
  ∃ e, fetch_fails fields_of_compare_gas_block (head (network w)) e.
Proof.
  intros Hnone.
  destruct (fetch_fails_or_reads fields_of_compare_gas_block (head (network w)))
    as [?|(data & result & Hr & Hd & Hres & He)]; [done|exfalso].
  revert Hnone.
  unfold CompareGasBlock.get_receipt_from_rpc, try_except_Exception, try_except,
    mbind, M_bind, urlopen_json, lift, mret, M_ret.
  destruct (network w) as [|r rest]; [done|]. cbn [head] in Hr.
  injection Hr as ->.
  rewrite Hd, Hres, (subscript_result _ _ Hd Hres).
  cbn [field_error fields_of_compare_gas_block] in He.
  destruct (subscript result "gasUsed") as [g|]; [|done].
  destruct (int16 g); [|done].
  destruct (subscript result "cumulativeGasUsed") as [c|]; [|done].
  destruct (int16 c); [|done].
  destruct (dict_get result "type" (PStr "0x0")) as [t|]; [|done].
  by destruct (int16 t).
Qed.

(** C5, as the code has it: every failure while fetching one receipt
    (no answer, network error, body that is not JSON, response that is no
    object, response without [result] or with an empty one, result in
    which a field is missing or cannot be read) is caught where it occurs,
    the item is left out and the loop goes on with the remaining items.
    Every reply that gives no receipt is such a failure.  Only
    [compare_all_gas.py] prints a message, and only when an exception was
    raised; [find_diff_tx.py] and [compare_gas_block.py] print nothing
    about the failure. *)
Theorem failed_receipt_is_skipped (w : world) (n : nat) (i : Z)
    (tx_hash : pyval) :
  (∀ e rpc_gas items,
     fetch_fails fields_of_find_diff_tx (head (network w)) e →
     for_each (FindDiffTx.fetch_receipt n) rpc_gas ((i, tx_hash) :: items) w
     = for_each (FindDiffTx.fetch_receipt n) rpc_gas items
         (let w1 := sent (eth_getTransactionReceipt tx_hash) w in
          if decide (i `mod` 50 = 0)
          then say (Line "  {i}/{len(tx_hashes)}..." [FInt i; FInt (Z.of_nat n)]) w1
          else w1)) ∧
  (∀ e receipts items,
     fetch_fails fields_of_compare_all_gas (head (network w)) e →
     for_each (CompareAllGas.fetch_receipt n) receipts ((i, tx_hash) :: items) w
     = for_each (CompareAllGas.fetch_receipt n) receipts items
         (let w1 := sent (eth_getTransactionReceipt tx_hash) w in
          let w2 := match e with
                    | Some e =>
                        say (Line "Error fetching TX {i}: {e}" [FInt i; FExn e]) w1
                    | None => w1
                    end in
          if decide (i `mod` 20 = 0)
          then say (Line "  Fetched {i}/{len(tx_hashes)}..."
                      [FInt i; FInt (Z.of_nat n)]) w2
          else w2)) ∧
  (∀ e tx_hashes results idx,
     fetch_fails fields_of_compare_gas_block (head (network w)) e →
     index tx_hashes idx = Ok tx_hash →
     CompareGasBlock.check tx_hashes results idx w
     = (Ok results, sent (eth_getTransactionReceipt tx_hash) w)) ∧
  (receipt_gas (head (network w)) = None →
   ∃ e, fetch_fails fields_of_find_diff_tx (head (network w)) e) ∧
  (receipt_fields (head (network w)) = None →
   ∃ e, fetch_fails fields_of_compare_all_gas (head (network w)) e) ∧
  ((CompareGasBlock.get_receipt_from_rpc tx_hash w).1 = Ok None →
   ∃ e, fetch_fails fields_of_compare_gas_block (head (network w)) e).
Proof.
  split_and!.
  - intros e rpc_gas items Hfails. rewrite for_each_cons.
    by erewrite bind_Ok by by eapply find_diff_tx_skips.
  - intros e receipts items Hfails. rewrite for_each_cons.
    by erewrite bind_Ok by by eapply compare_all_gas_skips.
  - intros e tx_hashes results idx Hfails Hidx. unfold CompareGasBlock.check.
    rewrite Hidx, bind_lift_Ok.
    by erewrite bind_Ok by by eapply compare_gas_block_skips.
  - apply no_gas_is_a_failure.
  - apply no_fields_is_a_failure.
  - apply no_receipt_is_a_failure.
Qed.

(** A receipt without [cumulativeGasUsed], the first of the block:
    [compare_all_gas.py] leaves it out and prints the [KeyError]. *)
Lemma failed_receipt_is_skipped_witness :
  fetch_fails fields_of_compare_all_gas
    (head (network (only_replies
       [Body (PDict [("result", PDict [("gasUsed", PStr "0x5208")])])])))
    (Some KeyError) ∧
  (∀ receipts items,
     for_each (CompareAllGas.fetch_receipt 1) receipts ((0, PStr "0xaa") :: items)
       (only_replies
          [Body (PDict [("result", PDict [("gasUsed", PStr "0x5208")])])])
     = for_each (CompareAllGas.fetch_receipt 1) receipts items
         (say (Line "  Fetched {i}/{len(tx_hashes)}..." [FInt 0; FInt 1])
            (say (Line "Error fetching TX {i}: {e}" [FInt 0; FExn KeyError])
               (sent (eth_getTransactionReceipt (PStr "0xaa"))
                  (only_replies
                     [Body (PDict [("result",
                                    PDict [("gasUsed", PStr "0x5208")])])]))))).
Proof.
  assert (fetch_fails fields_of_compare_all_gas
    (head (network (only_replies
       [Body (PDict [("result", PDict [("gasUsed", PStr "0x5208")])])])))
    (Some KeyError)) as H by (eapply unreadable_field; reflexivity).
  split; [exact H|]. intros receipts items.
  exact (proj1 (proj2 (failed_receipt_is_skipped
           (only_replies
              [Body (PDict [("result", PDict [("gasUsed", PStr "0x5208")])])])
           1 0 (PStr "0xaa")))
         (Some KeyError) receipts items H).
Defined.

(** C5, as stated, fails: [find_diff_tx.py] fetches the first of two
    receipts, fails on the second, and prints its two progress lines and
    nothing about the failure; [get_receipt_from_rpc] of
    [compare_gas_block.py] prints nothing at all. *)
Lemma failed_receipt_is_not_logged :
  (FindDiffTx.get_block_receipts 23800003
     (only_replies [block_with ["0xaa"; "0xbb"]; receipt_with "0x5208" "0x5208";
               HttpFailure])).1
  = Ok {[0 := 21000]} ∧
  console (FindDiffTx.get_block_receipts 23800003
     (only_replies [block_with ["0xaa"; "0xbb"]; receipt_with "0x5208" "0x5208";
               HttpFailure])).2
  = [Line "Fetching {len(tx_hashes)} receipts from RPC..." [FInt 2];
     Line "  {i}/{len(tx_hashes)}..." [FInt 0; FInt 2]] ∧
  (CompareGasBlock.get_receipt_from_rpc (PStr "0xbb") (only_replies [HttpFailure])).1
  = Ok None ∧
  console (CompareGasBlock.get_receipt_from_rpc (PStr "0xbb")
             (only_replies [HttpFailure])).2
  = [].
Proof. split_and!; vm_compute; reflexivity. Qed.

(** ** The receipts [get_all_receipts] collects *)

Lemma network_say l w : network (say l w) = network w.
Proof. done. Qed.

Lemma network_sent req w : network (sent req w) = tail (network w).
Proof. done. Qed.

Lemma fetch_receipt_fields n receipts i tx_hash w :
  ∃ w',
    CompareAllGas.fetch_receipt n receipts (i, tx_hash) w
    = (Ok match receipt_fields (head (network w)) with
          | Some (g, c) => <[i := Receipt g c tx_hash]> receipts
          | None => receipts
          end, w') ∧
    network w' = tail (network w).
Proof.
  unfold CompareAllGas.fetch_receipt, try_except_Exception, try_except,
    mbind, M_bind, urlopen_json, lift, mret, M_ret, print, receipt_fields.
  destruct (network w) as [|[| |data] rest] eqn:Hnet; py_cases; simpl;
    case_decide;
    (eexists; split; [reflexivity|]);
    by rewrite ?network_say, network_sent, Hnet.
Qed.

Lemma receipts_loop n items :
  ∀ k acc w, ∃ w',
    for_each (CompareAllGas.fetch_receipt n) acc
      (imap (λ j x, (Z.of_nat (k + j), x)) items) w
    = (Ok (receipts_from k items (network w) acc), w').
Proof.
  induction items as [|tx_hash items IH]; intros k acc w; [by eexists|].
  rewrite imap_cons, for_each_cons, Nat.add_0_r.
  destruct (fetch_receipt_fields n acc (Z.of_nat k) tx_hash w) as (w1 & Hstep & Hnet).
  erewrite bind_Ok by done.
  rewrite (imap_ext _ (λ j x, (Z.of_nat (S k + j), x)))
    by (intros j x _; simpl; f_equal; lia).
  destruct (IH (S k)
    match receipt_fields (head (network w)) with
    | Some (g, c) => <[Z.of_nat k := Receipt g c tx_hash]> acc
    | None => acc
    end w1) as (w' & ->).
  exists w'. cbn [receipts_from]. by rewrite Hnet.
Qed.

Lemma receipts_from_lookup items :
  ∀ k replies acc (i : nat),
    receipts_from k items replies acc !! Z.of_nat i
    = if decide (k ≤ i < k + length items)%nat then
        match receipt_fields (replies !! (i - k)%nat), items !! (i - k)%nat with
        | Some (g, c), Some tx_hash => Some (Receipt g c tx_hash)
        | _, _ => acc !! Z.of_nat i
        end
      else acc !! Z.of_nat i.
Proof.
  induction items as [|tx_hash items IH]; intros k replies acc i.
  { simpl. case_decide; [lia|done]. }
  cbn [receipts_from length]. rewrite IH.
  destruct (decide (i = k)) as [->|Hne].
  - rewrite decide_False by lia. rewrite decide_True by lia.
    rewrite Nat.sub_diag. cbn [lookup list_lookup]. rewrite <- head_lookup.
    destruct (receipt_fields (head replies)) as [[g c]|]; [|done].
    by rewrite lookup_insert_eq.
  - assert (∀ r, match receipt_fields (head replies) with
                 | Some (g, c) => <[Z.of_nat k := r g c]> acc
                 | None => acc
                 end !! Z.of_nat i = acc !! Z.of_nat i) as Hother.
    { intros r. destruct (receipt_fields (head replies)) as [[g c]|]; [|done].
      apply lookup_insert_ne. lia. }
    rewrite (Hother (λ g c, Receipt g c tx_hash)).
    destruct (decide (S k ≤ i < S k + length items)%nat) as [Hin|Hout].
    + rewrite decide_True by lia.
      replace (i - k)%nat with (S (i - S k)) by lia.
      cbn [lookup list_lookup]. by rewrite lookup_tail.
    + by rewrite decide_False by lia.
Qed.

Lemma get_all_receipts_collects w items :
  block_transactions (head (network w)) = Some items →
  ∃ w', CompareAllGas.get_all_receipts w
        = (Ok (receipts_from 0 items (tail (network w)) ∅), w').
Proof.
  unfold block_transactions, CompareAllGas.get_all_receipts, enumerate.
  intros Hblock.
  destruct (network w) as [|[| |[| | | | |d]] rest] eqn:Hnet; try done.
  cbn [head] in Hblock.
  destruct (assoc "result" d) as [[| | | | |res]|] eqn:Hres; try done.
  destruct (assoc "transactions" res) as [tx_hashes|] eqn:Htxs; [|done].
  destruct (py_iter tx_hashes) as [items'|] eqn:Hiter; [|done].
  injection Hblock as ->.
  assert (∃ n, py_len tx_hashes = Ok n) as [n Hlen]
    by (destruct tx_hashes; try done; by eexists).
  destruct (receipts_loop n items 0 ∅
    (say (Line "Fetching {len(tx_hashes)} receipts from RPC..." [FInt (Z.of_nat n)])
       (sent (eth_getBlockByNumber CompareAllGas.BLOCK_NUM false) w)))
    as (w' & Hloop).
  exists w'. rewrite network_say, network_sent, Hnet in Hloop. cbn [tail] in Hloop.
  cbn [tail]. rewrite <- Hloop.
  unfold mbind, M_bind, urlopen_json, lift, print. rewrite Hnet.
  cbn [subscript]. rewrite Hres. cbn [subscript]. rewrite Htxs, Hlen, Hiter.
  done.
Qed.

Lemma print_loop_returns (receipts : gmap Z receipt) (l : list nat) w :
  ∃ w',
    for_each (λ _ i,
        match receipts !! Z.of_nat i with
        | Some r =>
            print "txIndex={i} gasUsed={receipts[i]['gasUsed']}"
              [FInt (Z.of_nat i); FInt (r_gasUsed r)]
        | None => mret tt
        end) tt l w
    = (Ok tt, w').
Proof.
  revert w. induction l as [|i l IH]; intros w; [by eexists|].
  rewrite for_each_cons.
  destruct (receipts !! Z.of_nat i) as [r|].
  - rewrite bind_print. apply IH.
  - rewrite bind_mret. apply IH.
Qed.

(** ** Replies within the limit *)

Lemma within_limit_assoc d k v :
  within_limit (PDict d) = true → assoc k d = Some v → within_limit v = true.
Proof.
  unfold assoc. induction d as [|[k' v'] d IH]; [done|].
  cbn [within_limit forallb]. intros [Hv Hd]%andb_prop.
  destruct (String.eqb k k'); [by intros [= <-]|]. by apply IH.
Qed.

Lemma within_limit_int16 v z :
  within_limit v = true → int16 v = Ok z → printable z.
Proof.
  destruct v as [| | |s| |]; try done. cbn [within_limit int16].
  destruct (parse_int 16 s) as [z'|]; [|done].
  intros Hz [= <-]. by apply bool_decide_eq_true in Hz.
Qed.

(** The gas values a reply within the limit gives are integers the
    scripts can print and write. *)
Lemma modest_receipt_fields r g c :
  modest r → receipt_fields (Some r) = Some (g, c) → printable g ∧ printable c.
Proof.
  destruct r as [| |[| | | | |d]]; try done. cbn [modest receipt_fields].
  intros Hd.
  destruct (assoc "result" d) as [[| | | | |res]|] eqn:Hres; try done.
  pose proof (within_limit_assoc _ _ _ Hd Hres) as Hlim.
  destruct (truthy (PDict res)); [|done].
  destruct (assoc "gasUsed" res) as [[| | |sg| |]|] eqn:Hg; try done.
  destruct (assoc "cumulativeGasUsed" res) as [[| | |sc| |]|] eqn:Hc; try done.
  destruct (parse_int 16 sg) as [g'|] eqn:Hpg; [|done].
  destruct (parse_int 16 sc) as [c'|] eqn:Hpc; [|done].
  intros [= <- <-]. split.
  - apply (within_limit_int16 (PStr sg)); [by eapply within_limit_assoc|].
    cbn [int16]. by rewrite Hpg.
  - apply (within_limit_int16 (PStr sc)); [by eapply within_limit_assoc|].
    cbn [int16]. by rewrite Hpc.
Qed.

Lemma modest_receipt_gas r g :
  modest r → receipt_gas (Some r) = Some g → printable g.
Proof.
  destruct r as [| |[| | | | |d]]; try done. cbn [modest receipt_gas].
  intros Hd.
  destruct (assoc "result" d) as [[| | | | |res]|] eqn:Hres; try done.
  pose proof (within_limit_assoc _ _ _ Hd Hres) as Hlim.
  destruct (truthy (PDict res)); [|done].
  destruct (assoc "gasUsed" res) as [[| | |sg| |]|] eqn:Hg; try done.
  intros Hpg.
  apply (within_limit_int16 (PStr sg)); [by eapply within_limit_assoc|].
  cbn [int16]. by rewrite Hpg.
Qed.

(** The run without an argument, the conversions being those of the
    model. *)
Lemma compare_all_gas_fetch_mode_run (argv0 : string) (w : world)
    (items : list pyval) :
  block_transactions (head (network w)) = Some items →
  (CompareAllGas.main [argv0] w).1
  = if decide ((220 < length items)%nat ∧
               is_Some (receipt_fields (tail (network w) !! 220%nat)))
    then Ok tt else Raise KeyError.
Proof.
  intros Hblock. unfold CompareAllGas.main. cbn [lookup list_lookup].
  rewrite !bind_print.
  destruct (get_all_receipts_collects
    (say (Line "Or run without args to just fetch RPC receipts and save to file" [])
       (say (Line "Usage: python3 compare_all_gas.py <erigon_output.txt>" []) w))
    items) as (w1 & Hget); [by rewrite !network_say|].
  erewrite bind_Ok by done. rewrite bind_print.
  rewrite !network_say.
  pose proof (receipts_from_lookup items 0 (tail (network w)) ∅ 220) as H220.
  change (Z.of_nat 220) with 220 in H220. rewrite lookup_empty in H220.
  rewrite Nat.sub_0_r in H220. cbn [plus] in H220.
  destruct (decide (0 ≤ 220 < length items)%nat) as [Hlen|Hlen].
  - destruct (lookup_lt_is_Some_2 items 220) as [tx_hash Htx]; [lia|].
    rewrite Htx in H220.
    destruct (receipt_fields (tail (network w) !! 220%nat)) as [[g c]|].
    + rewrite H220, bind_mret, bind_print.
      rewrite decide_True by (split; [lia|by eexists]).
      unfold mbind at 1, M_bind at 1. cbn [write_rpc_receipts].
      rewrite !bind_print.
      match goal with
      | |- (for_each _ _ ?l ?w0).1 = _ =>
          by destruct (print_loop_returns
                         (receipts_from 0 items (tail (network w)) ∅) l w0)
            as (w2 & ->)
      end.
    + rewrite H220. rewrite decide_False by (intros [_ [? ?]]; done). done.
  - rewrite H220. rewrite decide_False by (intros [? _]; lia). done.
Qed.

(** C9: without an argument, [compare_all_gas.py] reads [receipts[220]]
    whatever was fetched.  Once the block is fetched, the access raises
    [KeyError] unless the block lists at least 221 transactions and the
    reply to the request for the receipt of index 220 carried the two gas
    fields; when it did, the script ends normally, provided the replies
    carry no integer of more than 4300 digits (which the lines printed
    and the file written would stop at). *)
Theorem receipts_220_needs_a_fetched_receipt (argv0 : string) (w : world)
    (items : list pyval) :
  block_transactions (head (network w)) = Some items →
  (¬ ((220 < length items)%nat ∧
      is_Some (receipt_fields (tail (network w) !! 220%nat))) →
   (CompareAllGas.main [argv0] w).1 = Raise KeyError) ∧
  ((220 < length items)%nat ∧
   is_Some (receipt_fields (tail (network w) !! 220%nat)) →
   Forall modest (network w) →
   (CompareAllGas.main [argv0] w).1 = Ok tt).
Proof.
  intros Hblock. rewrite (compare_all_gas_fetch_mode_run argv0 w items Hblock).
  split.
  - intros Hnot. by rewrite decide_False.
  - intros Hfetched _. by rewrite decide_True.
Qed.

(** A block of one transaction: the receipt of index 220 is never
    fetched.  A block of 221 transactions, the receipts all fetched. *)
Lemma receipts_220_witness :
  block_transactions
    (head (network (only_replies [block_with ["0xaa"]; receipt_with "0x5208" "0x5208"])))
  = Some [PStr "0xaa"] ∧
  (CompareAllGas.main ["compare_all_gas.py"]
     (only_replies [block_with ["0xaa"]; receipt_with "0x5208" "0x5208"])).1
  = Raise KeyError ∧
  block_transactions
    (head (network (only_replies (block_with (replicate 221 "0xaa")
                               :: replicate 221 (receipt_with "0x5208" "0x5208")))))
  = Some (PStr <$> replicate 221 "0xaa") ∧
  Forall modest
    (network (only_replies (block_with (replicate 221 "0xaa")
                         :: replicate 221 (receipt_with "0x5208" "0x5208")))) ∧
  (CompareAllGas.main ["compare_all_gas.py"]
     (only_replies (block_with (replicate 221 "0xaa")
               :: replicate 221 (receipt_with "0x5208" "0x5208")))).1
  = Ok tt.
Proof.
  split; [reflexivity|]. split.
  { apply (receipts_220_needs_a_fetched_receipt "compare_all_gas.py"
             (only_replies [block_with ["0xaa"]; receipt_with "0x5208" "0x5208"])
             [PStr "0xaa"]); [reflexivity|].
    intros [Hlen _]. simpl in Hlen. lia. }
  split; [vm_compute; reflexivity|].
  assert (Forall modest
    (network (only_replies (block_with (replicate 221 "0xaa")
                         :: replicate 221 (receipt_with "0x5208" "0x5208")))))
    as Hmodest by (apply (bool_decide_unpack _); vm_compute; reflexivity).
  split; [exact Hmodest|].
  apply (receipts_220_needs_a_fetched_receipt "compare_all_gas.py"
           (only_replies (block_with (replicate 221 "0xaa")
                     :: replicate 221 (receipt_with "0x5208" "0x5208")))
           (PStr <$> replicate 221 "0xaa"));
    [vm_compute; reflexivity| |exact Hmodest].
  split; [vm_compute; lia|]. vm_compute. by eexists.
Defined.

(** A block of 221 transactions: the script ends normally when the last
    receipt is fetched, and with [KeyError] when that one request fails. *)
Example receipts_220_present :
  (CompareAllGas.main ["compare_all_gas.py"]
     (only_replies (block_with (replicate 221 "0xaa")
               :: replicate 221 (receipt_with "0x5208" "0x5208")))).1
  = Ok tt ∧
  (CompareAllGas.main ["compare_all_gas.py"]
     (only_replies (block_with (replicate 221 "0xaa")
               :: replicate 220 (receipt_with "0x5208" "0x5208")
               ++ [HttpFailure]))).1
  = Raise KeyError.
Proof. split; vm_compute; reflexivity. Qed.

(** ** [compare_erigon_log.py] on a log without receipts *)

(** C10: when the log file yields no receipt, [main] prints how many
    transactions it parsed (none), loads the cache if there is one or says
    that there is none, prints that no Erigon gas data was found, and
    returns: no total, no comparison, no summary, whatever the cache
    holds.  (The one other way out is [int(k)] failing on a key of the
    cache, before anything else is printed.) *)
Theorem no_erigon_data_stops_main (argv0 erigon_file : string) (content : text)
    (w : world) :
  text_files w !! erigon_file = Some content →
  CompareErigonLog.parse_erigon_log content = ∅ →
  CompareErigonLog.main [argv0; erigon_file] w
  = let w1 := say (Line "Parsed {len(erigon_gas)} transactions from Erigon log"
                     [FInt 0]) w in
    match rpc_cache w with
    | Some members =>
        match CompareErigonLog.load_rpc_gas members with
        | Ok rpc_gas =>
            (Ok tt,
             say (Line "No Erigon gas data found!" [])
               (say (Line "Loaded {len(rpc_gas)} transactions from RPC cache"
                       [FInt (Z.of_nat (size rpc_gas))]) w1))
        | Raise e => (Raise e, w1)
        end
    | None =>
        (Ok tt,
         say (Line "No Erigon gas data found!" [])
           (say (Line "Run scripts/find_diff_tx.py first to fetch RPC data" [])
              (say (Line "RPC cache file not found: {rpc_file}"
                      [FStr CompareErigonLog.rpc_file]) w1)))
    end.
Proof.
  intros Hfile Hparse. unfold CompareErigonLog.main. cbn [lookup list_lookup].
  assert (CompareErigonLog.parse_erigon_log_file erigon_file w = (Ok ∅, w)) as Hrun.
  { unfold CompareErigonLog.parse_erigon_log_file, read_text, mbind, M_bind.
    by rewrite Hfile, <- Hparse. }
  erewrite bind_Ok by done. rewrite map_size_empty, bind_print.
  erewrite bind_Ok by reflexivity.
  change (rpc_cache (say _ w)) with (rpc_cache w).
  destruct (rpc_cache w) as [members|].
  - destruct (CompareErigonLog.load_rpc_gas members) as [rpc_gas|e]; [|done].
    by rewrite bind_Ok with (a := rpc_gas)
      (w' := say (Line "Loaded {len(rpc_gas)} transactions from RPC cache"
                    [FInt (Z.of_nat (size rpc_gas))])
               (say (Line "Parsed {len(erigon_gas)} transactions from Erigon log"
                       [FInt 0]) w)).
  - by rewrite bind_Ok with (a := (∅ : gmap Z Z))
      (w' := say (Line "Run scripts/find_diff_tx.py first to fetch RPC data" [])
               (say (Line "RPC cache file not found: {rpc_file}"
                       [FStr CompareErigonLog.rpc_file])
                  (say (Line "Parsed {len(erigon_gas)} transactions from Erigon log"
                          [FInt 0]) w))).
Qed.

(** A log without receipts, next to a cache of two receipts. *)
Lemma no_erigon_data_witness :
  text_files
    (World [] [] [] {["erigon_gas.txt" := txt "[DEBUG] nothing to see"]}
       (Some [("0", 21000); ("1", 50000)]) None [])
    !! "erigon_gas.txt"
  = Some (txt "[DEBUG] nothing to see") ∧
  CompareErigonLog.parse_erigon_log (txt "[DEBUG] nothing to see") = ∅ ∧
  CompareErigonLog.main ["compare_erigon_log.py"; "erigon_gas.txt"]
    (World [] [] [] {["erigon_gas.txt" := txt "[DEBUG] nothing to see"]}
       (Some [("0", 21000); ("1", 50000)]) None [])
  = (Ok tt,
     World [] [] [] {["erigon_gas.txt" := txt "[DEBUG] nothing to see"]}
       (Some [("0", 21000); ("1", 50000)]) None
       [Line "Parsed {len(erigon_gas)} transactions from Erigon log" [FInt 0];
        Line "Loaded {len(rpc_gas)} transactions from RPC cache" [FInt 2];
        Line "No Erigon gas data found!" []]).
Proof.
  split; [vm_compute; reflexivity|]. split; [vm_compute; reflexivity|].
  etrans; [apply (no_erigon_data_stops_main "compare_erigon_log.py"
                    "erigon_gas.txt" (txt "[DEBUG] nothing to see"));
           vm_compute; reflexivity|].
  vm_compute. reflexivity.
Defined.

(** ** The two scripts, one after the other *)

(** [find_diff_tx.py] fetches two receipts and saves them; the log pasted
    at its prompt has the same gas for the first transaction and 50 less
    for the second.  [compare_erigon_log.py], run next on a file with the
    same log, loads the two receipts from the cache and reports the same
    difference. *)
Example scripts_share_the_cache :
  let w := World [block_with ["0xaa"; "0xbb"]; receipt_with "0x5208" "0x5208";
                  receipt_with "0xc350" "0x11558"]
             []
             [txt "txIndex=0 gasUsed=21000"; txt "txIndex=1 gasUsed=49950"; []]
             {["erigon_gas.txt" := txt "txIndex=0 gasUsed=21000
txIndex=1 gasUsed=49950
"]} None None [] in
  let w1 := (FindDiffTx.main w).2 in
  (FindDiffTx.main w).1 = Ok tt ∧
  rpc_cache w1 = Some [("0", 21000); ("1", 50000)] ∧
  (CompareErigonLog.main ["compare_erigon_log.py"; "erigon_gas.txt"] w1).1 = Ok tt ∧
  Line "*** TX {i}: Erigon={e_gas}, RPC={r_gas}, Diff={diff:+d}, CumulDiff={cumulative_diff:+d}"
    [FInt 1; FInt 49950; FInt 50000; FInt (-50); FInt (-50)]
  ∈ console w1 ∧
  Line "*** TX {i:3d}: Erigon={e_gas:8d}, RPC={r_gas:8d}, Diff={diff:+6d}, CumulDiff={cumulative_diff:+6d}"
    [FInt 1; FInt 49950; FInt 50000; FInt (-50); FInt (-50)]
  ∈ console
      (CompareErigonLog.main ["compare_erigon_log.py"; "erigon_gas.txt"] w1).2.
Proof.
  cbv zeta. split_and!; try (vm_compute; reflexivity);
    apply list_elem_of_In; vm_compute; tauto.
Qed.

(** * Further properties of the scripts *)

(** ** The comparison loops side by side *)

Lemma compare_over_filter keys erigon_gas rpc_gas st :
  fold_left (compare_at erigon_gas rpc_gas)
    (filter (differs erigon_gas rpc_gas) keys) st
  = fold_left (compare_at erigon_gas rpc_gas) keys st.
Proof.
  revert st. induction keys as [|i keys IH]; intros st; [done|].
  rewrite filter_cons. case_decide as Hd; simpl; [done|].
  by rewrite compare_at_skip.
Qed.

Lemma differing_keys erigon_gas rpc_gas :
  filter (differs erigon_gas rpc_gas) (sorted (elements (dom erigon_gas)))
  = filter (differs erigon_gas rpc_gas)
      (sorted (elements (dom erigon_gas ∪ dom rpc_gas))).
Proof.
  apply (StronglySorted_unique_strong Z.lt).
  - intros; lia.
  - apply StronglySorted_filter, sorted_lt, NoDup_elements.
  - apply StronglySorted_filter, sorted_lt, NoDup_elements.
  - apply NoDup_Permutation.
    + apply NoDup_filter, NoDup_sorted, NoDup_elements.
    + apply NoDup_filter, NoDup_sorted, NoDup_elements.
    + intros i. rewrite !list_elem_of_filter, !elem_of_sorted, !elem_of_elements,
        elem_of_union, !elem_of_dom. unfold differs. naive_solver.
Qed.

(** X2: the comparison loops of [compare_erigon_log.py] and of
    [find_diff_tx.py] give the same list of differences and the same total
    on every pair of mappings, although the first visits the Erigon indices
    only and the second the indices of both mappings. *)
Theorem comparators_agree (erigon_gas rpc_gas : gmap Z Z) :
  CompareErigonLog.compare erigon_gas rpc_gas
  = FindDiffTx.compare erigon_gas rpc_gas.
Proof.
  unfold CompareErigonLog.compare, FindDiffTx.compare, compare_over.
  rewrite <- (compare_over_filter (sorted (elements (dom erigon_gas)))).
  rewrite <- (compare_over_filter (sorted (elements (dom erigon_gas ∪ _)))).
  by rewrite differing_keys.
Qed.

Lemma compare_all_gas_step er rr ds c i :
  CompareAllGas.compare_at er rr (without_running_total <$> ds, c) i
  = let st := compare_at (CompareAllGas.e_gasUsed <$> er) (r_gasUsed <$> rr)
                (ds, c) i in
    (without_running_total <$> st.1, st.2).
Proof.
  unfold CompareAllGas.compare_at, compare_at. rewrite !lookup_fmap.
  destruct (er !! i) as [e|]; simpl; [|done].
  destruct (rr !! i) as [r|]; simpl; [|done].
  case_decide; simpl; [|done]. by rewrite fmap_app.
Qed.

Lemma compare_all_gas_loop er rr keys ds c :
  fold_left (CompareAllGas.compare_at er rr) keys (without_running_total <$> ds, c)
  = let st := fold_left (compare_at (CompareAllGas.e_gasUsed <$> er)
                           (r_gasUsed <$> rr)) keys (ds, c) in
    (without_running_total <$> st.1, st.2).
Proof.
  revert ds c. induction keys as [|i keys IH]; intros ds c; [done|].
  cbn [fold_left]. rewrite compare_all_gas_step. cbn zeta.
  destruct (compare_at _ _ (ds, c) i) as [ds' c']. apply IH.
Qed.

(** X3: the comparison loop of [compare_all_gas.py] reports what the loop
    of [find_diff_tx.py] reports on the [gasUsed] fields of the two
    dictionaries of receipts: the same entries in the same order, less the
    running total, and the same total difference. *)
Theorem compare_all_gas_compares_gasUsed
    (erigon_receipts : gmap Z CompareAllGas.erigon_receipt)
    (rpc_receipts : gmap Z receipt) :
  CompareAllGas.compare erigon_receipts rpc_receipts
  = let st := FindDiffTx.compare (CompareAllGas.e_gasUsed <$> erigon_receipts)
                (r_gasUsed <$> rpc_receipts) in
    (without_running_total <$> st.1, st.2).
Proof.
  unfold CompareAllGas.compare, FindDiffTx.compare, compare_over.
  rewrite !dom_fmap_L. apply (compare_all_gas_loop _ _ _ [] 0).
Qed.

(** ** More on the parsers *)

(** X4: [parse_erigon_output] of [compare_all_gas.py] keeps, for an index,
    the gas value of the last line of the file on which its greedy pattern
    finds that index; a line without a match leaves the dictionary as it
    is. *)
Theorem output_parser_keeps_last_match (content : text) (i : Z) :
  CompareAllGas.parse_erigon_output content !! i
  = CompareAllGas.ErigonReceipt
      <$> last_gas i (omap (line_entry pattern_greedy) (read_lines content)).
Proof.
  pose proof (parse_output_lines (read_lines content) ∅) as H.
  apply (f_equal (.!! i)) in H.
  rewrite lookup_fmap, record_entries_lookup, fmap_empty, lookup_empty in H.
  unfold CompareAllGas.parse_erigon_output.
  destruct (fold_left _ _ _ !! i) as [[g]|]; simpl in H;
    destruct (last_gas i _); by simplify_eq.
Qed.

Lemma int_of_digits_nonneg g : digit_run g → 0 ≤ int_of_digits g.
Proof.
  intros [_ Hg]. unfold int_of_digits.
  assert (∀ acc, 0 ≤ acc → 0 ≤ fold_left (λ a d, 10 * a + digit_value d) g acc)
    as H; [|by apply H].
  induction Hg as [|c g Hc _ IH]; intros acc Hacc; [done|].
  simpl. apply IH. unfold is_digit in Hc.
  apply andb_prop in Hc as [H1%Nat.leb_le _]. unfold digit_value. lia.
Qed.

Lemma index_and_gas_nonneg p m :
  captures_of p m → (2 ≤ groups p)%nat →
  0 ≤ (index_and_gas m).1 ∧ 0 ≤ (index_and_gas m).2.
Proof.
  intros [Hlen Hall] Hp. rewrite Forall_forall in Hall.
  split; apply int_of_digits_nonneg; unfold group; simpl.
  - destruct (lookup_lt_is_Some_2 m.1 0%nat) as [g Hg]; [lia|].
    rewrite Hg. by eapply Hall, list_elem_of_lookup_2.
  - destruct (lookup_lt_is_Some_2 m.1 1%nat) as [g Hg]; [lia|].
    rewrite Hg. by eapply Hall, list_elem_of_lookup_2.
Qed.

Lemma record_entries_nonneg es i g :
  Forall (λ e, 0 ≤ e.1 ∧ 0 ≤ e.2) es →
  fold_left record_entry es ∅ !! i = Some g → 0 ≤ i ∧ 0 ≤ g.
Proof.
  intros Hes. rewrite record_entries_lookup, lookup_empty.
  destruct (last_gas i es) as [g'|] eqn:Hlast; [|done]. intros [= ->].
  unfold last_gas in Hlast. apply last_Some_elem_of in Hlast.
  apply list_elem_of_fmap in Hlast as ([i' g'] & -> & [Hi He]%list_elem_of_filter).
  simpl in Hi. subst i'. rewrite Forall_forall in Hes. by apply (Hes _ He).
Qed.

Lemma line_entries_nonneg p lines :
  (2 ≤ groups p)%nat →
  Forall (λ e, 0 ≤ e.1 ∧ 0 ≤ e.2) (omap (line_entry p) lines).
Proof.
  intros Hp. apply Forall_forall. intros e (l & _ & He)%list_elem_of_omap.
  unfold line_entry in He. destruct (re_search p l) as [m|] eqn:Hm; [|done].
  injection He as <-. eapply index_and_gas_nonneg; [|done].
  by eapply re_search_captures.
Qed.

(** X6: the indices and the gas values the three parsers record are never
    negative: a group of the pattern is a run of digits, so a sign before
    the number is not part of it. *)
Theorem parsed_numbers_are_not_negative :
  (∀ log_text,
     map_Forall (λ i g, 0 ≤ i ∧ 0 ≤ g) (FindDiffTx.parse_erigon_log log_text)) ∧
  (∀ content,
     map_Forall (λ i g, 0 ≤ i ∧ 0 ≤ g)
       (CompareErigonLog.parse_erigon_log content)) ∧
  (∀ content,
     map_Forall (λ i r, 0 ≤ i ∧ 0 ≤ CompareAllGas.e_gasUsed r)
       (CompareAllGas.parse_erigon_output content)).
Proof.
  split_and!.
  - intros log_text i g. rewrite parse_text_entries.
    apply record_entries_nonneg, Forall_forall.
    intros e (m & -> & Hm)%list_elem_of_fmap.
    eapply index_and_gas_nonneg; [by eapply finditer_captures|].
    vm_compute. lia.
  - intros content i g. unfold CompareErigonLog.parse_erigon_log.
    rewrite parse_lines_entries.
    apply record_entries_nonneg, line_entries_nonneg. vm_compute. lia.
  - intros content i r Hr.
    pose proof (parse_output_lines (read_lines content) ∅) as H.
    apply (f_equal (.!! i)) in H. rewrite lookup_fmap, fmap_empty in H.
    unfold CompareAllGas.parse_erigon_output in Hr. rewrite Hr in H. simpl in H.
    symmetry in H. eapply record_entries_nonneg; [|done].
    apply line_entries_nonneg. vm_compute. lia.
Qed.

Lemma parser_groups_witness :
  (pattern_greedy = pattern_lazy ∨ pattern_greedy = pattern_greedy) ∧
  (re_search pattern_greedy (txt "a txIndex=12 gasUsed=345 gasUsed=7")
   = Some ([txt "12"; txt "7"], 32%nat) ∨
   ([txt "12"; txt "7"], 32%nat)
   ∈ re_finditer pattern_greedy (txt "a txIndex=12 gasUsed=345 gasUsed=7")) ∧
  (2 = 1 ∨ 2 = 2)%nat ∧
  (length (group 2 ([txt "12"; txt "7"], 32%nat)) ≤ 4300)%nat ∧
  digit_run (group 2 ([txt "12"; txt "7"], 32%nat)) ∧
  parse_int 10 (string_of_list_ascii (group 2 ([txt "12"; txt "7"], 32%nat)))
  = Some (int_of_digits (group 2 ([txt "12"; txt "7"], 32%nat))).
Proof.
  assert (re_search pattern_greedy (txt "a txIndex=12 gasUsed=345 gasUsed=7")
          = Some ([txt "12"; txt "7"], 32%nat)) as H by (vm_compute; reflexivity).
  split; [by right|]. split; [by left|]. split; [by right|].
  split; [simpl; lia|].
  apply (parser_groups_are_integers pattern_greedy
           (txt "a txIndex=12 gasUsed=345 gasUsed=7"));
    [by right|by left|by right|simpl; lia].
Defined.

Lemma split_lines_app a b :
  split_lines (a ++ LF :: b) = split_lines a ++ split_lines b.
Proof.
  induction a as [|c a IH]; [done|].
  simpl. rewrite IH. destruct (is_newline c); [done|].
  pose proof (split_lines_nonempty a). by destruct (split_lines a).
Qed.

Lemma record_some_union {A B} (g : A → option (Z * B)) l d :
  fold_left (record_some g) l d = fold_left (record_some g) l ∅ ∪ d.
Proof.
  revert d. induction l as [|x l IH]; intros d; simpl.
  - by rewrite (left_id_L ∅ (∪)).
  - rewrite IH, (IH (record_some g ∅ x)). unfold record_some.
    destruct (g x) as [[k v]|]; simpl.
    + rewrite (insert_union_singleton_l d), insert_empty.
      by rewrite (assoc_L (∪)).
    + by rewrite (right_id_L ∅ (∪)).
Qed.

Lemma record_entries_app es1 es2 :
  fold_left record_entry (es1 ++ es2) ∅
  = fold_left record_entry es2 ∅ ∪ fold_left record_entry es1 ∅.
Proof.
  rewrite fold_left_app. apply (record_some_union Some).
Qed.

Lemma no_CR_app a b : CR ∉ a → CR ∉ b → CR ∉ a ++ LF :: b.
Proof.
  intros Ha Hb [?|[?|?]%elem_of_cons]%elem_of_app; done.
Qed.

(** X7: when a log is a text [a], a line feed and a text [b], each parser
    gives on it what it gives on [b], completed by what it gives on [a]:
    the lines of [b] override those of [a] at the indices both report.
    For the two parsers that read a file the texts hold no carriage
    return. *)
Theorem later_lines_override (a b : text) :
  CR ∉ a → CR ∉ b →
  FindDiffTx.parse_erigon_log (a ++ LF :: b)
  = FindDiffTx.parse_erigon_log b ∪ FindDiffTx.parse_erigon_log a ∧
  CompareErigonLog.parse_erigon_log (a ++ LF :: b)
  = CompareErigonLog.parse_erigon_log b ∪ CompareErigonLog.parse_erigon_log a ∧
  CompareAllGas.e_gasUsed <$> CompareAllGas.parse_erigon_output (a ++ LF :: b)
  = (CompareAllGas.e_gasUsed <$> CompareAllGas.parse_erigon_output b)
    ∪ (CompareAllGas.e_gasUsed <$> CompareAllGas.parse_erigon_output a).
Proof.
  intros Ha Hb. pose proof (no_CR_app a b Ha Hb) as Hab. split_and!.
  - rewrite !parse_text_lines, split_lines_app, fmap_app, join_app.
    apply record_entries_app.
  - rewrite !parse_file_entries by done.
    rewrite split_lines_app, omap_app. apply record_entries_app.
  - rewrite !parse_output_entries by done.
    rewrite split_lines_app, omap_app. apply record_entries_app.
Qed.

Lemma later_lines_override_witness :
  (CR ∉ txt "txIndex=1 gasUsed=5 txIndex=2 gasUsed=6") ∧
  (CR ∉ txt "txIndex=1 gasUsed=7") ∧
  FindDiffTx.parse_erigon_log (txt "txIndex=1 gasUsed=7")
  ∪ FindDiffTx.parse_erigon_log (txt "txIndex=1 gasUsed=5 txIndex=2 gasUsed=6")
  = {[1 := 7; 2 := 6]} ∧
  FindDiffTx.parse_erigon_log
    (txt "txIndex=1 gasUsed=5 txIndex=2 gasUsed=6" ++ LF :: txt "txIndex=1 gasUsed=7")
  = FindDiffTx.parse_erigon_log (txt "txIndex=1 gasUsed=7")
    ∪ FindDiffTx.parse_erigon_log (txt "txIndex=1 gasUsed=5 txIndex=2 gasUsed=6").
Proof.
  assert (CR ∉ txt "txIndex=1 gasUsed=5 txIndex=2 gasUsed=6") as Ha
    by (apply (bool_decide_unpack _); vm_compute; reflexivity).
  assert (CR ∉ txt "txIndex=1 gasUsed=7") as Hb
    by (apply (bool_decide_unpack _); vm_compute; reflexivity).
  split_and!; [done|done|vm_compute; reflexivity|].
  apply (later_lines_override _ _ Ha Hb).
Defined.

(** ** The RPC helpers: what they return and what they send *)

Lemma requests_say l w : requests (say l w) = requests w.
Proof. done. Qed.

Lemma requests_sent req w : requests (sent req w) = requests w ++ [req].
Proof. done. Qed.

Lemma console_sent req w : console (sent req w) = console w.
Proof. done. Qed.

Lemma console_say l w : console (say l w) = console w ++ [l].
Proof. done. Qed.

Lemma stdin_say l w : stdin (say l w) = stdin w.
Proof. done. Qed.

(** X8: [rpc_call] never raises.  It sends its one request, and either
    prints nothing, or returns [None] after one line [Error: ...] for the
    exception it caught. *)
Theorem rpc_call_never_raises (method : string) (params : list pyval) (w : world) :
  ∃ v w',
    CheckDelegation.rpc_call method params w = (Ok v, w') ∧
    network w' = tail (network w) ∧
    requests w' = requests w ++ [Request method params] ∧
    (console w' = console w ∨
     v = PNone ∧ ∃ e, console w' = console w ++ [Line "Error: {e}" [FExn e]]).
Proof.
  unfold CheckDelegation.rpc_call, try_except_Exception, try_except,
    mbind, M_bind, urlopen_json, lift, mret, M_ret, print.
  destruct (network w) as [|[| |[]] rest] eqn:Hnet; simpl;
    (eexists _, _; split; [reflexivity|]);
    rewrite ?network_say, ?requests_say, ?console_say, network_sent,
      requests_sent, console_sent, Hnet;
    (split_and!; [done|done|]); first [by left|right; eauto].
Qed.

Lemma get_receipt_from_rpc_run tx_hash w :
  ∃ r, CompareGasBlock.get_receipt_from_rpc tx_hash w
       = (Ok r, sent (eth_getTransactionReceipt tx_hash) w).
Proof.
  unfold CompareGasBlock.get_receipt_from_rpc, try_except_Exception, try_except,
    mbind, M_bind, urlopen_json, lift, mret, M_ret.
  destruct (network w) as [|[| |data] rest]; py_cases; eauto.
Qed.

(** X9: [get_block_tx_hashes] never raises: it sends its one request and
    returns the [transactions] of the result, or the empty list when the
    request fails, the response has no result, or the result has no
    [transactions]. *)
Theorem get_block_tx_hashes_returns (block_num : Z) (w : world) :
  ∃ w',
    CompareGasBlock.get_block_tx_hashes block_num w
    = (Ok (block_hashes (head (network w))), w') ∧
    network w' = tail (network w) ∧
    requests w' = requests w ++ [eth_getBlockByNumber block_num false].
Proof.
  unfold CompareGasBlock.get_block_tx_hashes, try_except_Exception, try_except,
    mbind, M_bind, urlopen_json, lift, mret, M_ret, print, block_hashes.
  destruct (network w) as [|[| |data] rest] eqn:Hnet; py_cases;
    try match goal with H : assoc _ [] = Some _ |- _ => discriminate H end;
    (eexists; split; [reflexivity|]);
    by rewrite ?network_say, ?requests_say, network_sent, requests_sent, Hnet.
Qed.

(** X10: [get_receipt_from_rpc] never raises and never prints: all it
    leaves behind is the request it sent.  When it returns a receipt, the
    reply carried the two gas fields it holds. *)
Theorem get_receipt_from_rpc_is_silent (tx_hash : pyval) (w : world) :
  ∃ r,
    CompareGasBlock.get_receipt_from_rpc tx_hash w
    = (Ok r, sent (eth_getTransactionReceipt tx_hash) w) ∧
    (∀ found, r = Some found →
       receipt_fields (head (network w))
       = Some (CompareGasBlock.gasUsed found,
               CompareGasBlock.cumulativeGasUsed found)) ∧
    (receipt_fields (head (network w)) = None → r = None).
Proof.
  unfold CompareGasBlock.get_receipt_from_rpc, try_except_Exception, try_except,
    mbind, M_bind, urlopen_json, lift, mret, M_ret, receipt_fields.
  destruct (network w) as [|[| |data] rest]; py_cases;
    (eexists; split_and!; [reflexivity|intros ? [= <-]; try done|try done]).
Qed.

(** ** The receipts fetched for a block *)

Lemma collected_lookup {A} (keep : option reply → pyval → option A) items :
  ∀ k replies acc (i : Z),
    collected keep k items replies acc !! i
    = if decide (Z.of_nat k ≤ i < Z.of_nat k + Z.of_nat (length items)) then
        match items !! (Z.to_nat i - k)%nat
              ≫= keep (replies !! (Z.to_nat i - k)%nat) with
        | Some a => Some a
        | None => acc !! i
        end
      else acc !! i.
Proof.
  induction items as [|tx_hash items IH]; intros k replies acc i.
  { simpl. case_decide; [lia|done]. }
  cbn [collected length]. rewrite IH.
  destruct (decide (i = Z.of_nat k)) as [->|Hne].
  - rewrite decide_False by lia. rewrite decide_True by lia.
    rewrite Nat2Z.id, Nat.sub_diag. cbn [lookup list_lookup mbind option_bind].
    rewrite <- head_lookup.
    destruct (keep (head replies) tx_hash) as [a|]; [|done].
    by rewrite lookup_insert_eq.
  - assert (match keep (head replies) tx_hash with
            | Some a => <[Z.of_nat k := a]> acc
            | None => acc
            end !! i = acc !! i) as ->.
    { destruct (keep (head replies) tx_hash) as [a|]; [|done].
      by apply lookup_insert_ne. }
    destruct (decide (Z.of_nat (S k) ≤ i < Z.of_nat (S k) + Z.of_nat (length items)))
      as [Hin|Hout].
    + rewrite decide_True by lia.
      replace (Z.to_nat i - k)%nat with (S (Z.to_nat i - S k)) by lia.
      cbn [lookup list_lookup]. by rewrite lookup_tail.
    + by rewrite decide_False by lia.
Qed.

Lemma drop_tail {A} (n : nat) (l : list A) : drop n (tail l) = drop (S n) l.
Proof. destruct l; [simpl; by rewrite !drop_nil|done]. Qed.

Lemma all_gas_fetch n receipts i tx_hash w :
  ∃ w',
    CompareAllGas.fetch_receipt n receipts (i, tx_hash) w
    = (Ok match kept_receipt (head (network w)) tx_hash with
          | Some r => <[i := r]> receipts
          | None => receipts
          end, w') ∧
    network w' = tail (network w) ∧
    requests w' = requests w ++ [eth_getTransactionReceipt tx_hash] ∧
    untouched w w'.
Proof.
  unfold CompareAllGas.fetch_receipt, try_except_Exception, try_except,
    mbind, M_bind, urlopen_json, lift, mret, M_ret, print, kept_receipt,
    receipt_fields.
  destruct (network w) as [|[| |data] rest] eqn:Hnet; py_cases; simpl;
    case_decide;
    (eexists; split; [reflexivity|]);
    by rewrite ?network_say, ?requests_say, network_sent, requests_sent, Hnet.
Qed.

Lemma find_diff_fetch n rpc_gas i tx_hash w :
  ∃ w',
    FindDiffTx.fetch_receipt n rpc_gas (i, tx_hash) w
    = (Ok match receipt_gas (head (network w)) with
          | Some g => <[i := g]> rpc_gas
          | None => rpc_gas
          end, w') ∧
    network w' = tail (network w) ∧
    requests w' = requests w ++ [eth_getTransactionReceipt tx_hash] ∧
    untouched w w'.
Proof.
  unfold FindDiffTx.fetch_receipt, try_except,
    mbind, M_bind, urlopen_json, lift, mret, M_ret, print, receipt_gas.
  destruct (network w) as [|[| |data] rest] eqn:Hnet; py_cases; simpl;
    case_decide;
    (eexists; split; [reflexivity|]);
    by rewrite ?network_say, ?requests_say, network_sent, requests_sent, Hnet.
Qed.

Section fetch_loop.
Context {A : Type} (body : gmap Z A → Z * pyval → M (gmap Z A)).
Context (keep : option reply → pyval → option A).
Context (Hbody : ∀ acc i tx_hash w, ∃ w',
  body acc (i, tx_hash) w
  = (Ok match keep (head (network w)) tx_hash with
        | Some a => <[i := a]> acc
        | None => acc
        end, w') ∧
  network w' = tail (network w) ∧
  requests w' = requests w ++ [eth_getTransactionReceipt tx_hash] ∧
  untouched w w').

Lemma fetch_loop_run items :
  ∀ k acc w, ∃ w',
    for_each body acc (imap (λ j x, (Z.of_nat (k + j), x)) items) w
    = (Ok (collected keep k items (network w) acc), w') ∧
    network w' = drop (length items) (network w) ∧
    requests w' = requests w ++ (eth_getTransactionReceipt <$> items) ∧
    untouched w w'.
Proof.
  induction items as [|tx_hash items IH]; intros k acc w.
  { exists w. by rewrite app_nil_r. }
  rewrite imap_cons, for_each_cons, Nat.add_0_r.
  destruct (Hbody acc (Z.of_nat k) tx_hash w) as (w1 & Hstep & Hnet & Hreq & Hsame).
  erewrite bind_Ok by done.
  rewrite (imap_ext _ (λ j x, (Z.of_nat (S k + j), x)))
    by (intros j x _; simpl; f_equal; lia).
  destruct (IH (S k)
    match keep (head (network w)) tx_hash with
    | Some a => <[Z.of_nat k := a]> acc
    | None => acc
    end w1) as (w' & -> & Hnet' & Hreq' & Hsame').
  exists w'. cbn [collected length]. rewrite Hnet', Hreq', Hnet, Hreq.
  split_and!; [done|apply drop_tail| |].
  - by rewrite fmap_cons, <- app_assoc.
  - destruct Hsame as (? & ? & ? & ?), Hsame' as (? & ? & ? & ?).
    split_and!; congruence.
Qed.

End fetch_loop.

Lemma block_request w items (B : Type) (k : nat → list pyval → M B) (block_num : Z) :
  block_transactions (head (network w)) = Some items →
  ∃ n,
    (data ← urlopen_json (eth_getBlockByNumber block_num false);
     result ← lift (subscript data "result");
     tx_hashes ← lift (subscript result "transactions");
     n ← lift (py_len tx_hashes);
     print "Fetching {len(tx_hashes)} receipts from RPC..." [FInt (Z.of_nat n)];;
     items ← lift (py_iter tx_hashes);
     k n items) w
    = k n items
        (say (Line "Fetching {len(tx_hashes)} receipts from RPC..."
                [FInt (Z.of_nat n)])
           (sent (eth_getBlockByNumber block_num false) w)).
Proof.
  unfold block_transactions. intros Hblock.
  destruct (network w) as [|[| |[| | | | |d]] rest] eqn:Hnet; try done.
  cbn [head] in Hblock.
  destruct (assoc "result" d) as [[| | | | |res]|] eqn:Hres; try done.
  destruct (assoc "transactions" res) as [tx_hashes|] eqn:Htxs; [|done].
  destruct (py_iter tx_hashes) as [items'|] eqn:Hiter; [|done].
  injection Hblock as ->.
  assert (∃ n, py_len tx_hashes = Ok n) as [n Hlen]
    by (destruct tx_hashes; try done; by eexists).
  exists n. unfold mbind, M_bind, urlopen_json, lift, print. rewrite Hnet.
  cbn [subscript]. rewrite Hres. cbn [subscript]. by rewrite Htxs, Hlen, Hiter.
Qed.

Lemma all_gas_run w items :
  block_transactions (head (network w)) = Some items →
  ∃ w',
    CompareAllGas.get_all_receipts w
    = (Ok (collected kept_receipt 0 items (tail (network w)) ∅), w') ∧
    network w' = drop (S (length items)) (network w) ∧
    requests w'
    = requests w ++ eth_getBlockByNumber CompareAllGas.BLOCK_NUM false
        :: (eth_getTransactionReceipt <$> items) ∧
    untouched w w'.
Proof.
  intros Hblock. unfold CompareAllGas.get_all_receipts.
  destruct (block_request w items _
    (λ n items, for_each (CompareAllGas.fetch_receipt n) ∅ (enumerate items))
    CompareAllGas.BLOCK_NUM Hblock) as [n ->].
  destruct (fetch_loop_run (CompareAllGas.fetch_receipt n) kept_receipt
    (all_gas_fetch n) items 0 ∅
    (say (Line "Fetching {len(tx_hashes)} receipts from RPC..." [FInt (Z.of_nat n)])
       (sent (eth_getBlockByNumber CompareAllGas.BLOCK_NUM false) w)))
    as (w' & Hloop & Hnet & Hreq & Hsame).
  exists w'. rewrite network_say, network_sent in Hloop, Hnet.
  rewrite requests_say, requests_sent, <- app_assoc in Hreq.
  split_and!; [done|by rewrite Hnet, drop_tail|done|done].
Qed.

Lemma find_diff_run block_num w items :
  block_transactions (head (network w)) = Some items →
  ∃ w',
    FindDiffTx.get_block_receipts block_num w
    = (Ok (collected (λ r _, receipt_gas r) 0 items (tail (network w)) ∅), w') ∧
    network w' = drop (S (length items)) (network w) ∧
    requests w'
    = requests w ++ eth_getBlockByNumber block_num false
        :: (eth_getTransactionReceipt <$> items) ∧
    untouched w w'.
Proof.
  intros Hblock. unfold FindDiffTx.get_block_receipts.
  destruct (block_request w items _
    (λ n items, for_each (FindDiffTx.fetch_receipt n) ∅ (enumerate items))
    block_num Hblock) as [n ->].
  destruct (fetch_loop_run (FindDiffTx.fetch_receipt n) (λ r _, receipt_gas r)
    (find_diff_fetch n) items 0 ∅
    (say (Line "Fetching {len(tx_hashes)} receipts from RPC..." [FInt (Z.of_nat n)])
       (sent (eth_getBlockByNumber block_num false) w)))
    as (w' & Hloop & Hnet & Hreq & Hsame).
  exists w'. rewrite network_say, network_sent in Hloop, Hnet.
  rewrite requests_say, requests_sent, <- app_assoc in Hreq.
  split_and!; [done|by rewrite Hnet, drop_tail|done|done].
Qed.

Lemma receipt_fields_gas r g c : receipt_fields r = Some (g, c) → receipt_gas r = Some g.
Proof.
  unfold receipt_fields, receipt_gas.
  destruct r as [[| |[| | | | |d]]|]; try done.
  destruct (assoc "result" d) as [[| | | | |res]|]; try done.
  destruct (truthy (PDict res)); [|done].
  destruct (assoc "gasUsed" res) as [[| | |sg| |]|]; try done.
  destruct (assoc "cumulativeGasUsed" res) as [[| | |sc| |]|]; try done.
  destruct (parse_int 16 sg); [|done].
  destruct (parse_int 16 sc); [|done]. by intros [= -> _].
Qed.

(** X11: once the block is fetched, [get_all_receipts] returns normally,
    whatever the replies to the requests for the receipts.  It sends the
    request for the block and then one request for each hash, in the order
    of the block, and keeps at the index of a hash the receipt made of the
    two gas fields of the reply and of the hash; an index whose reply
    does not carry the two fields is left out. *)
Theorem get_all_receipts_fetches_in_order (w : world) (items : list pyval) :
  block_transactions (head (network w)) = Some items →
  ∃ receipts w',
    CompareAllGas.get_all_receipts w = (Ok receipts, w') ∧
    (∀ i : Z,
       receipts !! i
       = if decide (0 ≤ i < Z.of_nat (length items)) then
           items !! Z.to_nat i ≫= kept_receipt (tail (network w) !! Z.to_nat i)
         else None) ∧
    requests w'
    = requests w ++ eth_getBlockByNumber CompareAllGas.BLOCK_NUM false
        :: (eth_getTransactionReceipt <$> items) ∧
    network w' = drop (S (length items)) (network w).
Proof.
  intros Hblock. destruct (all_gas_run w items Hblock) as (w' & Hrun & Hnet & Hreq & _).
  eexists _, w'. split_and!; [done| |done|done].
  intros i. rewrite collected_lookup, Nat.sub_0_r, lookup_empty.
  change (Z.of_nat 0) with 0. rewrite Z.add_0_l.
  case_decide; [|done]. by destruct (_ ≫= _).
Qed.

Lemma get_all_receipts_witness :
  block_transactions
    (head (network (only_replies [block_with ["0xaa"; "0xbb"]; HttpFailure;
                                  receipt_with "0x5208" "0xa410"])))
  = Some [PStr "0xaa"; PStr "0xbb"] ∧
  ∃ receipts w',
    CompareAllGas.get_all_receipts
      (only_replies [block_with ["0xaa"; "0xbb"]; HttpFailure;
                     receipt_with "0x5208" "0xa410"])
    = (Ok receipts, w') ∧
    receipts !! 0 = None ∧
    receipts !! 1 = Some (Receipt 21000 42000 (PStr "0xbb")) ∧
    requests w'
    = [eth_getBlockByNumber 23800003 false;
       eth_getTransactionReceipt (PStr "0xaa");
       eth_getTransactionReceipt (PStr "0xbb")].
Proof.
  split; [vm_compute; reflexivity|].
  destruct (get_all_receipts_fetches_in_order
    (only_replies [block_with ["0xaa"; "0xbb"]; HttpFailure;
                   receipt_with "0x5208" "0xa410"])
    [PStr "0xaa"; PStr "0xbb"]) as (receipts & w' & Hrun & Hlookup & Hreq & _);
    [vm_compute; reflexivity|].
  exists receipts, w'. split_and!; [done| | |done].
  - rewrite Hlookup. vm_compute. reflexivity.
  - rewrite Hlookup. vm_compute. reflexivity.
Defined.

(** X12: so does [get_block_receipts] of [find_diff_tx.py], which keeps
    at the index of a hash the gas used of the reply, when the reply
    carries it. *)
Theorem get_block_receipts_fetches_in_order (block_num : Z) (w : world)
    (items : list pyval) :
  block_transactions (head (network w)) = Some items →
  ∃ rpc_gas w',
    FindDiffTx.get_block_receipts block_num w = (Ok rpc_gas, w') ∧
    (∀ i : Z,
       rpc_gas !! i
       = if decide (0 ≤ i < Z.of_nat (length items)) then
           receipt_gas (tail (network w) !! Z.to_nat i)
         else None) ∧
    requests w'
    = requests w ++ eth_getBlockByNumber block_num false
        :: (eth_getTransactionReceipt <$> items) ∧
    network w' = drop (S (length items)) (network w).
Proof.
  intros Hblock.
  destruct (find_diff_run block_num w items Hblock) as (w' & Hrun & Hnet & Hreq & _).
  eexists _, w'. split_and!; [done| |done|done].
  intros i. rewrite collected_lookup, Nat.sub_0_r, lookup_empty.
  change (Z.of_nat 0) with 0. rewrite Z.add_0_l.
  case_decide as Hi; [|done].
  destruct (lookup_lt_is_Some_2 items (Z.to_nat i)) as [tx_hash ->]; [lia|].
  simpl. by destruct (receipt_gas _).
Qed.

Lemma get_block_receipts_witness :
  block_transactions
    (head (network (only_replies [block_with ["0xaa"; "0xbb"]; HttpFailure;
                                  receipt_with "0x5208" "0xa410"])))
  = Some [PStr "0xaa"; PStr "0xbb"] ∧
  ∃ rpc_gas w',
    FindDiffTx.get_block_receipts 23800003
      (only_replies [block_with ["0xaa"; "0xbb"]; HttpFailure;
                     receipt_with "0x5208" "0xa410"])
    = (Ok rpc_gas, w') ∧
    rpc_gas !! 0 = None ∧
    rpc_gas !! 1 = Some 21000 ∧
    network w' = [].
Proof.
  split; [vm_compute; reflexivity|].
  destruct (get_block_receipts_fetches_in_order 23800003
    (only_replies [block_with ["0xaa"; "0xbb"]; HttpFailure;
                   receipt_with "0x5208" "0xa410"])
    [PStr "0xaa"; PStr "0xbb"]) as (rpc_gas & w' & Hrun & Hlookup & _ & Hnet);
    [vm_compute; reflexivity|].
  exists rpc_gas, w'. split_and!; [done| | |done].
  - rewrite Hlookup. vm_compute. reflexivity.
  - rewrite Hlookup. vm_compute. reflexivity.
Defined.

(** X13: on the same replies, the two scripts that fetch all receipts of
    block 23800003 send the same requests, and every receipt
    [compare_all_gas.py] keeps is one [find_diff_tx.py] keeps as well, with
    the same gas used: the first needs two fields of a reply where the
    second needs one. *)
Theorem fetchers_agree_on_gasUsed (w : world) (items : list pyval) :
  block_transactions (head (network w)) = Some items →
  ∃ receipts w1 rpc_gas w2,
    CompareAllGas.get_all_receipts w = (Ok receipts, w1) ∧
    FindDiffTx.get_block_receipts 23800003 w = (Ok rpc_gas, w2) ∧
    r_gasUsed <$> receipts ⊆ rpc_gas ∧
    requests w1 = requests w2.
Proof.
  intros Hblock.
  destruct (all_gas_run w items Hblock) as (w1 & Hrun1 & _ & Hreq1 & _).
  destruct (find_diff_run 23800003 w items Hblock) as (w2 & Hrun2 & _ & Hreq2 & _).
  eexists _, w1, _, w2. split_and!; [done|done| |by rewrite Hreq1, Hreq2].
  apply map_subseteq_spec. intros i g.
  rewrite lookup_fmap, !collected_lookup, !lookup_empty.
  case_decide; [|done].
  destruct (items !! _) as [tx_hash|]; [|done]. simpl.
  unfold kept_receipt.
  destruct (receipt_fields _) as [[g' c]|] eqn:Hf; [|done].
  rewrite (receipt_fields_gas _ _ _ Hf). simpl. done.
Qed.

Lemma fetchers_agree_witness :
  block_transactions
    (head (network (only_replies [block_with ["0xaa"]; receipt_with "0x5208" "0x5208"])))
  = Some [PStr "0xaa"] ∧
  ∃ receipts w1 rpc_gas w2,
    CompareAllGas.get_all_receipts
      (only_replies [block_with ["0xaa"]; receipt_with "0x5208" "0x5208"])
    = (Ok receipts, w1) ∧
    FindDiffTx.get_block_receipts 23800003
      (only_replies [block_with ["0xaa"]; receipt_with "0x5208" "0x5208"])
    = (Ok rpc_gas, w2) ∧
    r_gasUsed <$> receipts ⊆ rpc_gas ∧
    requests w1 = requests w2.
Proof.
  split; [vm_compute; reflexivity|].
  apply (fetchers_agree_on_gasUsed
           (only_replies [block_with ["0xaa"]; receipt_with "0x5208" "0x5208"])
           [PStr "0xaa"]).
  vm_compute. reflexivity.
Defined.

(** ** [compare_gas_block.py] on a block of any length *)

Lemma get_block_tx_hashes_run block_num w :
  ∃ w',
    CompareGasBlock.get_block_tx_hashes block_num w
    = (Ok (block_hashes (head (network w))), w').
Proof.
  unfold CompareGasBlock.get_block_tx_hashes, try_except_Exception, try_except,
    mbind, M_bind, urlopen_json, lift, mret, M_ret, print, block_hashes.
  destruct (network w) as [|[| |data] rest] eqn:Hnet; py_cases;
    try match goal with H : assoc _ [] = Some _ |- _ => discriminate H end;
    by eexists.
Qed.

Lemma check_step (l : list pyval) (idx : nat) results w :
  (idx < length l)%nat →
  ∃ results' w', CompareGasBlock.check (PList l) results idx w = (Ok results', w').
Proof.
  intros Hidx. unfold CompareGasBlock.check, index.
  destruct (lookup_lt_is_Some_2 l idx Hidx) as [tx_hash ->].
  rewrite bind_lift_Ok.
  destruct (get_receipt_from_rpc_run tx_hash w) as [r Hr].
  erewrite bind_Ok by done.
  destruct r as [r|]; [rewrite bind_print|]; by eexists _, _.
Qed.

Lemma check_loop (l : list pyval) (idxs : list nat) :
  Forall (λ i, (i < length l)%nat) idxs →
  ∀ results w, ∃ results' w',
    for_each (CompareGasBlock.check (PList l)) results idxs w = (Ok results', w').
Proof.
  induction 1 as [|idx idxs Hidx _ IH]; intros results w; [by eexists _, _|].
  rewrite for_each_cons.
  destruct (check_step l idx results w Hidx) as (results1 & w1 & Hstep).
  erewrite bind_Ok by done. apply IH.
Qed.

(** The run of [compare_gas_block.py], the conversions being those of the
    model. *)
Lemma compare_gas_block_main_run (w : world) (l : list pyval) :
  block_hashes (head (network w)) = PList l →
  (CompareGasBlock.main w).1
  = if decide (l = [] ∨ (220 < length l)%nat) then Ok tt else Raise IndexError.
Proof.
  intros Hl. unfold CompareGasBlock.main. rewrite !bind_print.
  match goal with
  | |- ((CompareGasBlock.get_block_tx_hashes ?n ≫= _) ?w0).1 = _ =>
      destruct (get_block_tx_hashes_run n w0) as (w1 & Hget)
  end.
  erewrite bind_Ok by done. rewrite !network_say, Hl.
  cbn [py_len]. rewrite bind_lift_Ok, !bind_print.
  destruct l as [|x l]; [by rewrite decide_True by by left|].
  cbn [truthy negb]. rewrite bind_print.
  match goal with
  | |- ((for_each _ _ ?idxs ≫= _) ?w0).1 = _ =>
      destruct (check_loop (x :: l) idxs) with (results := @nil (nat * CompareGasBlock.rpc_receipt)) (w := w0)
        as (results & w2 & Hloop)
  end.
  { apply Forall_forall. by intros i [Hi _]%list_elem_of_filter. }
  erewrite bind_Ok by done. rewrite !bind_print. unfold index.
  destruct (decide (220 < length (x :: l))%nat) as [Hlen|Hlen].
  - rewrite decide_True by by right.
    destruct (lookup_lt_is_Some_2 (x :: l) 220 Hlen) as [tx_hash ->].
    rewrite bind_lift_Ok.
    match goal with
    | |- ((CompareGasBlock.get_receipt_from_rpc _ ≫= _) ?w0).1 = _ =>
        destruct (get_receipt_from_rpc_run tx_hash w0) as [r Hr]
    end.
    erewrite bind_Ok by done. destruct r; [|done]. by rewrite bind_print.
  - rewrite decide_False by (intros [?|?]; [done|lia]).
    rewrite lookup_ge_None_2 by lia. by rewrite bind_lift_Raise.
Qed.

(** X14: [compare_gas_block.py] reads [tx_hashes[220]] whatever the length
    of the block.  When the block lists its transactions and the replies
    carry no integer of more than 4300 digits (which the line printed for
    a receipt would stop at), the script ends normally if the list is
    empty or has at least 221 entries, and with an [IndexError] if it has
    between 1 and 220: the indices of the loop are checked against the
    length, the last access is not. *)
Theorem compare_gas_block_reads_index_220 (w : world) (l : list pyval) :
  block_hashes (head (network w)) = PList l →
  Forall modest (network w) →
  (CompareGasBlock.main w).1
  = if decide (l = [] ∨ (220 < length l)%nat) then Ok tt else Raise IndexError.
Proof. intros Hl _. by apply compare_gas_block_main_run. Qed.

(** A block of two transactions, the receipts fetched. *)
Lemma compare_gas_block_witness :
  block_hashes
    (head (network (only_replies [block_with ["0xaa"; "0xbb"];
                                  receipt_with "0x5208" "0x5208";
                                  receipt_with "0x5208" "0xa410"])))
  = PList [PStr "0xaa"; PStr "0xbb"] ∧
  Forall modest
    (network (only_replies [block_with ["0xaa"; "0xbb"];
                            receipt_with "0x5208" "0x5208";
                            receipt_with "0x5208" "0xa410"])) ∧
  (CompareGasBlock.main
     (only_replies [block_with ["0xaa"; "0xbb"];
                    receipt_with "0x5208" "0x5208";
                    receipt_with "0x5208" "0xa410"])).1
  = Raise IndexError.
Proof.
  split; [vm_compute; reflexivity|].
  assert (Forall modest
    (network (only_replies [block_with ["0xaa"; "0xbb"];
                            receipt_with "0x5208" "0x5208";
                            receipt_with "0x5208" "0xa410"])))
    as Hmodest by (apply (bool_decide_unpack _); vm_compute; reflexivity).
  split; [exact Hmodest|].
  apply (compare_gas_block_reads_index_220
           (only_replies [block_with ["0xaa"; "0xbb"];
                          receipt_with "0x5208" "0x5208";
                          receipt_with "0x5208" "0xa410"])
           [PStr "0xaa"; PStr "0xbb"]); [|exact Hmodest].
  vm_compute. reflexivity.
Defined.

(** ** Steps that only print *)

Lemma only_prints_print t a : only_prints (print t a).
Proof.
  intros w. exists tt, (say (Line t a) w).
  split_and!; try done. by apply prefix_app_r.
Qed.

Lemma only_prints_mret {A} (a : A) : only_prints (mret a).
Proof. intros w. by exists a, w. Qed.

Lemma only_prints_bind {A B} (m : M A) (f : A → M B) :
  only_prints m → (∀ a, only_prints (f a)) → only_prints (m ≫= f).
Proof.
  intros Hm Hf w.
  destruct (Hm w) as (a & w1 & Hrun & ? & ? & ? & ? & ? & ? & ?).
  destruct (Hf a w1) as (b & w2 & Hrun' & ? & ? & ? & ? & ? & ? & ?).
  exists b, w2. erewrite bind_Ok by done.
  split_and!; try congruence. by etrans.
Qed.

Lemma only_prints_for_each {A S} (body : S → A → M S) (l : list A) :
  (∀ s x, x ∈ l → only_prints (body s x)) → ∀ s, only_prints (for_each body s l).
Proof.
  induction l as [|x l IH]; intros Hbody s; [apply only_prints_mret|].
  cbn [for_each]. apply only_prints_bind.
  - apply Hbody. by left.
  - intros s'. apply IH. intros s'' y Hy. apply Hbody. by right.
Qed.

(** Taking apart a step made of prints, loops of prints and tests. *)
Ltac only_prints_steps :=
  repeat first
    [ apply only_prints_print
    | apply only_prints_mret
    | apply only_prints_bind; [|intros ?]
    | apply only_prints_for_each; intros ? ? ?
    | match goal with
      | |- only_prints (if decide ?P then _ else _) => destruct (decide P)
      | |- only_prints (match ?x with _ => _ end) => destruct x eqn:?
      | |- only_prints (let '(_, _) := ?x in _) => destruct x eqn:?
      end ].

Lemma bind_write_rpc_cache {B} members (f : unit → M B) w :
  (write_rpc_cache members ≫= f) w = f tt (with_rpc_cache members w).
Proof. done. Qed.

Lemma read_lines_from_stdin_run w :
  FindDiffTx.read_lines_from_stdin w
  = (Ok (FindDiffTx.read_pasted (stdin w)).1,
     World (network w) (requests w) (FindDiffTx.read_pasted (stdin w)).2
       (text_files w) (rpc_cache w) (rpc_receipts w) (console w)).
Proof.
  unfold FindDiffTx.read_lines_from_stdin. by destruct (FindDiffTx.read_pasted _).
Qed.

Lemma find_diff_main_run (w : world) (items : list pyval) :
  block_transactions (head (network w)) = Some items →
  ∃ w',
    FindDiffTx.main w = (Ok tt, w') ∧
    rpc_cache w'
    = Some (json_dump (collected (λ r _, receipt_gas r) 0 items
                         (tail (network w)) ∅)) ∧
    stdin w' = (FindDiffTx.read_pasted (stdin w)).2 ∧
    text_files w' = text_files w.
Proof.
  intros Hblock.
  destruct (FindDiffTx.main w) as [r wf] eqn:Hmain.
  unfold FindDiffTx.main in Hmain. rewrite !bind_print in Hmain.
  match type of Hmain with
  | (FindDiffTx.get_block_receipts ?n ≫= _) ?w0 = _ =>
      destruct (find_diff_run n w0 items)
        as (w1 & Hrun & _ & _ & Hstdin1 & Hfiles1 & _); [done|]
  end.
  erewrite bind_Ok in Hmain by done. rewrite !network_say in Hmain.
  rewrite bind_print, bind_write_rpc_cache, !bind_print in Hmain.
  erewrite bind_Ok in Hmain by apply read_lines_from_stdin_run.
  match type of Hmain with
  | ?m ?w0 = _ =>
      assert (only_prints m) as Hrest by only_prints_steps;
      destruct (Hrest w0) as ([] & w' & Hrun' & _ & _ & Hstdin & Hfiles & Hcache & _)
  end.
  rewrite Hrun' in Hmain. injection Hmain as <- <-.
  exists w'. rewrite Hstdin, Hcache, Hfiles. split_and!; [done|done| |done].
  trans (FindDiffTx.read_pasted (stdin w1)).2; [done|by rewrite Hstdin1].
Qed.

(** The gas values fetched from replies within the limit are integers
    [json.dump] writes. *)
Lemma fetched_gas_is_printable (w : world) (items : list pyval)
    (rpc_gas : gmap Z Z) :
  Forall modest (network w) →
  (∀ i : Z,
     rpc_gas !! i
     = if decide (0 ≤ i < Z.of_nat (length items)) then
         receipt_gas (tail (network w) !! Z.to_nat i)
       else None) →
  map_Forall (λ _ g, printable g) rpc_gas.
Proof.
  intros Hmodest Hlookup i g Hg. rewrite Hlookup in Hg.
  case_decide; [|done].
  destruct (tail (network w) !! Z.to_nat i) as [r|] eqn:Hr; [|done].
  apply (modest_receipt_gas r); [|done].
  destruct (network w) as [|r0 rest]; [done|].
  apply Forall_cons in Hmodest as [_ Hrest].
  by eapply Forall_lookup_1.
Qed.

(** X15: once the block is fetched, [find_diff_tx.py] saves what it
    fetched, whatever the replies for the receipts, provided they carry no
    integer of more than 4300 digits (which [json.dump] would stop at): the
    cache file it leaves holds the gas used of every receipt whose reply
    carried it, under the index of the transaction, and nothing else,
    all of them values within the limit.  The input is then read up to
    its first blank line. *)
Theorem find_diff_tx_saves_what_it_fetched (w : world) (items : list pyval) :
  block_transactions (head (network w)) = Some items →
  Forall modest (network w) →
  ∃ rpc_gas : gmap Z Z,
    (∀ i : Z,
       rpc_gas !! i
       = if decide (0 ≤ i < Z.of_nat (length items)) then
           receipt_gas (tail (network w) !! Z.to_nat i)
         else None) ∧
    map_Forall (λ _ g, printable g) rpc_gas ∧
    rpc_cache (FindDiffTx.main w).2 = Some (json_dump rpc_gas) ∧
    stdin (FindDiffTx.main w).2 = (FindDiffTx.read_pasted (stdin w)).2.
Proof.
  intros Hblock Hmodest.
  destruct (find_diff_main_run w items Hblock) as (w' & -> & Hcache & Hstdin & _).
  exists (collected (λ r _, receipt_gas r) 0 items (tail (network w)) ∅).
  assert (∀ i : Z,
    collected (λ r _, receipt_gas r) 0 items (tail (network w)) ∅ !! i
    = if decide (0 ≤ i < Z.of_nat (length items)) then
        receipt_gas (tail (network w) !! Z.to_nat i)
      else None) as Hlookup.
  { intros i. rewrite collected_lookup, Nat.sub_0_r, lookup_empty.
    change (Z.of_nat 0) with 0. rewrite Z.add_0_l.
    case_decide as Hi; [|done].
    destruct (lookup_lt_is_Some_2 items (Z.to_nat i)) as [tx_hash ->]; [lia|].
    simpl. by destruct (receipt_gas _). }
  split; [exact Hlookup|].
  split; [by eapply fetched_gas_is_printable|done].
Qed.

Lemma find_diff_tx_witness :
  block_transactions
    (head (network (World [block_with ["0xaa"; "0xbb"]; HttpFailure;
                           receipt_with "0x5208" "0xa410"]
                      [] [txt "txIndex=1 gasUsed=20000"; txt " "; txt "unread"]
                      ∅ None None [])))
  = Some [PStr "0xaa"; PStr "0xbb"] ∧
  Forall modest
    (network (World [block_with ["0xaa"; "0xbb"]; HttpFailure;
                     receipt_with "0x5208" "0xa410"]
                [] [txt "txIndex=1 gasUsed=20000"; txt " "; txt "unread"]
                ∅ None None [])) ∧
  ∃ rpc_gas : gmap Z Z,
    (∀ i : Z,
       rpc_gas !! i
       = if decide (0 ≤ i < Z.of_nat (length [PStr "0xaa"; PStr "0xbb"])) then
           receipt_gas ([HttpFailure; receipt_with "0x5208" "0xa410"] !! Z.to_nat i)
         else None) ∧
    map_Forall (λ _ g, printable g) rpc_gas ∧
    rpc_cache (FindDiffTx.main
       (World [block_with ["0xaa"; "0xbb"]; HttpFailure;
               receipt_with "0x5208" "0xa410"]
          [] [txt "txIndex=1 gasUsed=20000"; txt " "; txt "unread"]
          ∅ None None [])).2 = Some (json_dump rpc_gas) ∧
    stdin (FindDiffTx.main
       (World [block_with ["0xaa"; "0xbb"]; HttpFailure;
               receipt_with "0x5208" "0xa410"]
          [] [txt "txIndex=1 gasUsed=20000"; txt " "; txt "unread"]
          ∅ None None [])).2 = [txt "unread"].
Proof.
  split; [vm_compute; reflexivity|].
  assert (Forall modest
    (network (World [block_with ["0xaa"; "0xbb"]; HttpFailure;
                     receipt_with "0x5208" "0xa410"]
                [] [txt "txIndex=1 gasUsed=20000"; txt " "; txt "unread"]
                ∅ None None [])))
    as Hmodest by (apply (bool_decide_unpack _); vm_compute; reflexivity).
  split; [exact Hmodest|].
  apply (find_diff_tx_saves_what_it_fetched
    (World [block_with ["0xaa"; "0xbb"]; HttpFailure; receipt_with "0x5208" "0xa410"]
       [] [txt "txIndex=1 gasUsed=20000"; txt " "; txt "unread"] ∅ None None [])
    [PStr "0xaa"; PStr "0xbb"]); [|exact Hmodest].
  vm_compute. reflexivity.
Defined.

(** ** The scripts that compare, from the first line to the last *)

Lemma parse_erigon_log_file_run filename content w :
  text_files w !! filename = Some content →
  CompareErigonLog.parse_erigon_log_file filename w
  = (Ok (CompareErigonLog.parse_erigon_log content), w).
Proof.
  intros Hfile.
  unfold CompareErigonLog.parse_erigon_log_file, mbind, M_bind, read_text.
  by rewrite Hfile.
Qed.

Lemma parse_erigon_output_file_run filename content w :
  text_files w !! filename = Some content →
  CompareAllGas.parse_erigon_output_file filename w
  = (Ok (CompareAllGas.parse_erigon_output content), w).
Proof.
  intros Hfile.
  unfold CompareAllGas.parse_erigon_output_file, mbind, M_bind, read_text.
  by rewrite Hfile.
Qed.

Lemma compare_erigon_log_main_run (argv0 erigon_file : string)
    (content : text) (rpc_gas : gmap Z Z) (w : world) :
  text_files w !! erigon_file = Some content →
  match rpc_cache w with
  | Some members => CompareErigonLog.load_rpc_gas members = Ok rpc_gas
  | None => True
  end →
  ∃ w',
    CompareErigonLog.main [argv0; erigon_file] w = (Ok tt, w') ∧
    network w' = network w ∧ requests w' = requests w ∧ untouched w w'.
Proof.
  intros Hfile Hload. unfold CompareErigonLog.main. cbn [lookup list_lookup].
  erewrite bind_Ok by by apply parse_erigon_log_file_run.
  rewrite bind_print.
  erewrite bind_Ok by reflexivity.
  change (rpc_cache (say _ w)) with (rpc_cache w).
  assert (∀ rpc_gas' : gmap Z Z, only_prints (
    if decide (CompareErigonLog.parse_erigon_log content = ∅) then
      print "No Erigon gas data found!" []
    else
      let erigon_gas := CompareErigonLog.parse_erigon_log content in
      let erigon_total := sum_values erigon_gas in
      print "\nErigon total gas: {erigon_total}" [FInt erigon_total];;
      if decide (rpc_gas' ≠ ∅) then
        print "'\n' + '=' * 70" [];;
        print "Comparing Erigon vs RPC gas..." [];;
        print "'-' * 70" [];;
        let '(differences, cumulative_diff) :=
          CompareErigonLog.compare erigon_gas rpc_gas' in
        for_each (λ _ d, CompareErigonLog.print_difference d) tt differences;;
        print "'-' * 70" [];;
        print "Transactions with gas differences: {len(differences)}"
          [FInt (Z.of_nat (length differences))];;
        print "Total gas difference: {cumulative_diff}" [FInt cumulative_diff];;
        print "'\n' + '=' * 70" [];;
        print "Summary:" [];;
        print "  Erigon total gas:   {erigon_total}" [FInt erigon_total];;
        print "  Expected (header):  26758527" [];;
        print "  Difference:         {erigon_total - 26758527}"
          [FInt (erigon_total - 26758527)];;
        match differences with
        | d :: _ =>
            print "\nFirst transaction with difference:" [];;
            print "  TX {idx}: Erigon={e}, RPC={r}, Diff={d}"
              [FInt (d_index d); FInt (d_erigon d); FInt (d_rpc d);
               FInt (d_diff d)]
        | [] => mret tt
        end
      else
        print "\nNo RPC data to compare. Showing Erigon gas only:" [];;
        for_each (λ _ i,
            match erigon_gas !! i with
            | Some g => print "  TX {i}: {erigon_gas[i]}" [FInt i; FInt g]
            | None => raise KeyError
            end)
          tt (take 20 (sorted (elements (dom erigon_gas)))))) as Hrest.
  { intros rpc_gas'. cbv zeta. only_prints_steps.
    exfalso.
    match goal with
    | Hin : _ ∈ take _ _, Hnone : _ !! _ = None |- _ =>
        apply elem_of_take in Hin as (j & Hin%list_elem_of_lookup_2 & _);
        apply elem_of_sorted, elem_of_elements, elem_of_dom in Hin as [? Hin];
        by rewrite Hin in Hnone
    end. }
  destruct (rpc_cache w) as [members|] eqn:Hcache.
  - rewrite Hload.
    erewrite bind_Ok by (rewrite bind_lift_Ok, bind_print; reflexivity).
    destruct (Hrest rpc_gas (say (Line "Loaded {len(rpc_gas)} transactions from RPC cache"
                                   [FInt (Z.of_nat (size rpc_gas))])
                 (say (Line "Parsed {len(erigon_gas)} transactions from Erigon log"
                         [FInt (Z.of_nat (size (CompareErigonLog.parse_erigon_log content)))])
                    w)))
      as ([] & w' & Hrun & ? & ? & ? & ? & ? & ? & _).
    exists w'. split_and!; [exact Hrun|done..].
  - erewrite bind_Ok by (rewrite !bind_print; reflexivity).
    destruct (Hrest ∅ (say (Line "Run scripts/find_diff_tx.py first to fetch RPC data" [])
                 (say (Line "RPC cache file not found: {rpc_file}"
                         [FStr CompareErigonLog.rpc_file])
                    (say (Line "Parsed {len(erigon_gas)} transactions from Erigon log"
                            [FInt (Z.of_nat (size (CompareErigonLog.parse_erigon_log content)))])
                       w))))
      as ([] & w' & Hrun & ? & ? & ? & ? & ? & ? & _).
    exists w'. split_and!; [exact Hrun|done..].
Qed.


(** The run with a log file as argument, the conversions being those of
    the model. *)
Lemma compare_all_gas_compare_mode_run (argv0 erigon_file : string)
    (content : text) (w : world) (items : list pyval) :
  text_files w !! erigon_file = Some content →
  block_transactions (head (network w)) = Some items →
  ∃ w',
    CompareAllGas.main [argv0; erigon_file] w = (Ok tt, w') ∧
    requests w'
    = requests w ++ eth_getBlockByNumber CompareAllGas.BLOCK_NUM false
        :: (eth_getTransactionReceipt <$> items) ∧
    untouched w w'.
Proof.
  intros Hfile Hblock. unfold CompareAllGas.main. cbn [lookup list_lookup].
  erewrite bind_Ok by by apply parse_erigon_output_file_run.
  rewrite bind_print.
  match goal with
  | |- ∃ _, (CompareAllGas.get_all_receipts ≫= _) ?w0 = _ ∧ _ =>
      destruct (all_gas_run w0 items) as (w1 & Hrun & _ & Hreq & Hsame); [done|]
  end.
  erewrite bind_Ok by done.
  match goal with
  | |- ∃ _, ?m w1 = _ ∧ _ =>
      assert (only_prints m) as Hrest by only_prints_steps;
      destruct (Hrest w1) as ([] & w' & Hrun' & _ & Hreq' & ? & ? & ? & ? & _)
  end.
  exists w'. split_and!; [done|by rewrite Hreq', Hreq|].
  change (untouched w w1) in Hsame.
  destruct Hsame as (? & ? & ? & ?). split_and!; congruence.
Qed.

(** X19: with a log file as argument, [compare_all_gas.py] raises no
    [KeyError], once the file exists and the block is fetched, whatever
    the replies for the receipts and however many transactions the block
    has: the access [receipts[220]] belongs to the other mode.  The script
    ends normally, or with the [ValueError] the interpreter has for a
    number of more than 4300 digits and for a file that does not decode.
    It writes no file in this mode. *)
Theorem compare_all_gas_compare_mode (argv0 erigon_file : string)
    (content : text) (w : world) (items : list pyval) :
  text_files w !! erigon_file = Some content →
  block_transactions (head (network w)) = Some items →
  ((CompareAllGas.main [argv0; erigon_file] w).1 = Ok tt ∨
   (CompareAllGas.main [argv0; erigon_file] w).1 = Raise ValueError) ∧
  untouched w (CompareAllGas.main [argv0; erigon_file] w).2.
Proof.
  intros Hfile Hblock.
  destruct (compare_all_gas_compare_mode_run argv0 erigon_file content w items)
    as (w' & -> & _ & Hsame); [done..|].
  split; [by left|done].
Qed.

Lemma compare_all_gas_compare_mode_witness :
  text_files
    (World [block_with ["0xaa"]; receipt_with "0x5208" "0x5208"] [] []
       {["erigon.txt" := txt "txIndex=0 gasUsed=21001"]} None None [])
    !! "erigon.txt"
  = Some (txt "txIndex=0 gasUsed=21001") ∧
  block_transactions
    (head (network
       (World [block_with ["0xaa"]; receipt_with "0x5208" "0x5208"] [] []
          {["erigon.txt" := txt "txIndex=0 gasUsed=21001"]} None None [])))
  = Some [PStr "0xaa"] ∧
  rpc_receipts
    (CompareAllGas.main ["compare_all_gas.py"; "erigon.txt"]
       (World [block_with ["0xaa"]; receipt_with "0x5208" "0x5208"] [] []
          {["erigon.txt" := txt "txIndex=0 gasUsed=21001"]} None None [])).2
  = None.
Proof.
  split; [vm_compute; reflexivity|]. split; [vm_compute; reflexivity|].
  destruct (compare_all_gas_compare_mode "compare_all_gas.py" "erigon.txt"
    (txt "txIndex=0 gasUsed=21001")
    (World [block_with ["0xaa"]; receipt_with "0x5208" "0x5208"] [] []
       {["erigon.txt" := txt "txIndex=0 gasUsed=21001"]} None None [])
    [PStr "0xaa"])
    as (_ & _ & _ & _ & Hreceipts).
  - vm_compute. reflexivity.
  - vm_compute. reflexivity.
  - exact Hreceipts.
Defined.

(** ** Reading the cache file and the pasted log *)

Lemma dict_set_keys {A} k k' (v : A) d :
  k ∈ (dict_set k' v d).*1 ↔ k = k' ∨ k ∈ d.*1.
Proof.
  induction d as [|[k0 v0] d IH]; simpl.
  - rewrite list_elem_of_singleton. set_solver.
  - destruct (String.eqb k' k0) eqn:Heq; simpl.
    + apply String.eqb_eq in Heq as ->. rewrite !elem_of_cons. naive_solver.
    + rewrite !elem_of_cons, IH. naive_solver.
Qed.

Lemma json_load_keys {A} (members : list (string * A)) k :
  k ∈ (json_load members).*1 ↔ k ∈ members.*1.
Proof.
  unfold json_load.
  assert (∀ acc : list (string * A),
    k ∈ (fold_left (λ d kv, dict_set kv.1 kv.2 d) members acc).*1
    ↔ k ∈ members.*1 ∨ k ∈ acc.*1) as H.
  { induction members as [|[k0 v0] members IH]; intros acc; simpl.
    - set_solver.
    - rewrite IH, dict_set_keys, elem_of_cons. naive_solver. }
  rewrite H. set_solver.
Qed.

Lemma load_items (items : list (string * Z)) :
  ∀ acc : outcome (gmap Z Z),
    match foldl (λ acc kv,
              match acc, parse_int 10 kv.1 with
              | Ok rpc_gas, Some k => Ok (<[k := kv.2]> rpc_gas)
              | Ok _, None => Raise ValueError
              | Raise e, _ => Raise e
              end) acc items with
    | Ok _ => (∃ d, acc = Ok d) ∧ Forall (λ kv, is_Some (parse_int 10 kv.1)) items
    | Raise e =>
        acc = Raise e ∨
        (∃ d, acc = Ok d) ∧ e = ValueError ∧
        Exists (λ kv, parse_int 10 kv.1 = None) items
    end.
Proof.
  induction items as [|[k v] items IH]; intros acc; simpl.
  - destruct acc; [split; [by eexists|done]|by left].
  - specialize (IH match acc with
                   | Ok rpc_gas =>
                       match parse_int 10 k with
                       | Some k' => Ok (<[k' := v]> rpc_gas)
                       | None => Raise ValueError
                       end
                   | Raise e => Raise e
                   end).
    destruct (foldl _ _ items) as [d|e].
    + destruct IH as [[d' Hd'] Hall]. destruct acc as [d0|e0]; [|done].
      destruct (parse_int 10 k) eqn:Hk; [|done].
      split; [by eexists|]. constructor; [simpl; by rewrite Hk|done].
    + destruct acc as [d0|e0]; [|destruct IH as [[= ->]|[[? [=]] _]]; by left].
      right. split; [by eexists|].
      destruct (parse_int 10 k) eqn:Hk.
      * destruct IH as [[=]|(_ & -> & Hex)]. split; [done|by right].
      * destruct IH as [[= <-]|(_ & -> & Hex)]; (split; [done|by left]).
Qed.

(** X17: once [json.load] has returned the members of the cache, an
    object with integer values, the comprehension [{int(k): v ...}]
    succeeds exactly when every key reads as an integer; a key [int] does
    not accept makes it raise [ValueError].  This is for keys of 4300
    characters at most: [int] refuses more digits. *)
Theorem load_rpc_gas_needs_integer_keys (members : list (string * Z)) :
  Forall (λ kv, (String.length kv.1 ≤ 4300)%nat) members →
  match CompareErigonLog.load_rpc_gas members with
  | Ok _ => Forall (λ kv, is_Some (parse_int 10 kv.1)) members
  | Raise e => e = ValueError ∧ Exists (λ kv, parse_int 10 kv.1 = None) members
  end.
Proof.
  intros _. unfold CompareErigonLog.load_rpc_gas.
  pose proof (load_items (json_load members) (Ok ∅)) as H.
  destruct (foldl _ _ _) as [d|e].
  - destruct H as [_ Hall]. rewrite Forall_forall in Hall |- *.
    intros [k v] Hkv.
    assert (k ∈ (json_load members).*1) as Hk.
    { apply json_load_keys, list_elem_of_fmap. by exists (k, v). }
    apply list_elem_of_fmap in Hk as ([k' v'] & -> & Hk). by apply (Hall _ Hk).
  - destruct H as [[=]|(_ & -> & Hex)]. split; [done|].
    rewrite Exists_exists in Hex |- *. destruct Hex as ([k v] & Hkv & Hk).
    assert (k ∈ members.*1) as Hin.
    { apply json_load_keys, list_elem_of_fmap. by exists (k, v). }
    apply list_elem_of_fmap in Hin as ([k' v'] & -> & Hin). by exists (k', v').
Qed.

(** A cache with the gas of two transactions, and one in which a key is
    no integer. *)
Lemma load_rpc_gas_witness :
  Forall (λ kv : string * Z, (String.length kv.1 ≤ 4300)%nat)
    [("0", 117778); ("one", 21000)] ∧
  CompareErigonLog.load_rpc_gas [("0", 117778); ("one", 21000)] = Raise ValueError ∧
  Exists (λ kv : string * Z, parse_int 10 kv.1 = None)
    [("0", 117778); ("one", 21000)].
Proof.
  assert (Forall (λ kv : string * Z, (String.length kv.1 ≤ 4300)%nat)
            [("0", 117778); ("one", 21000)]) as H
    by (apply (bool_decide_unpack _); vm_compute; reflexivity).
  split; [exact H|]. split; [vm_compute; reflexivity|].
  pose proof (load_rpc_gas_needs_integer_keys [("0", 117778); ("one", 21000)] H)
    as Hload.
  change (CompareErigonLog.load_rpc_gas [("0", 117778); ("one", 21000)])
    with (Raise ValueError : outcome (gmap Z Z)) in Hload.
  exact (proj2 Hload).
Defined.

(** ** The exceptions of [compare_erigon_log.py] *)

Lemma load_rpc_gas_raises members e :
  CompareErigonLog.load_rpc_gas members = Raise e → e = ValueError.
Proof.
  unfold CompareErigonLog.load_rpc_gas. intros Hload.
  pose proof (load_items (json_load members) (Ok ∅)) as H.
  rewrite Hload in H. by destruct H as [[=]|(_ & -> & _)].
Qed.

Lemma compare_erigon_log_bad_cache (argv0 erigon_file : string)
    (content : text) members e (w : world) :
  text_files w !! erigon_file = Some content →
  rpc_cache w = Some members →
  CompareErigonLog.load_rpc_gas members = Raise e →
  CompareErigonLog.main [argv0; erigon_file] w
  = (Raise e,
     say (Line "Parsed {len(erigon_gas)} transactions from Erigon log"
            [FInt (Z.of_nat (size (CompareErigonLog.parse_erigon_log content)))])
       w).
Proof.
  intros Hfile Hcache Hload. unfold CompareErigonLog.main.
  cbn [lookup list_lookup].
  erewrite bind_Ok by by apply parse_erigon_log_file_run.
  rewrite bind_print.
  erewrite bind_Ok by reflexivity.
  change (rpc_cache (say _ w)) with (rpc_cache w). rewrite Hcache, Hload.
  reflexivity.
Qed.

(** X16: on a log file that exists, [compare_erigon_log.py] ends normally
    or with a [ValueError]: no access to a dictionary can fail.  The
    [ValueError] is that of [int(k)] on a key of the cache that is no
    integer (or, in the interpreter, of a number of more than 4300 digits
    and of a file that does not decode).  However it ends, the script has
    sent no request and has left every file as it was. *)
Theorem compare_erigon_log_raises_ValueError_only (argv0 erigon_file : string)
    (content : text) (w : world) :
  text_files w !! erigon_file = Some content →
  ∃ w',
    (CompareErigonLog.main [argv0; erigon_file] w = (Ok tt, w') ∨
     CompareErigonLog.main [argv0; erigon_file] w = (Raise ValueError, w')) ∧
    network w' = network w ∧ requests w' = requests w ∧ untouched w w'.
Proof.
  intros Hfile. destruct (rpc_cache w) as [members|] eqn:Hcache.
  - destruct (CompareErigonLog.load_rpc_gas members) as [rpc_gas|e] eqn:Hload.
    + destruct (compare_erigon_log_main_run argv0 erigon_file content rpc_gas w)
        as (w' & Hrun & ?); [done|by rewrite Hcache|].
      exists w'. split; [by left|done].
    + pose proof (load_rpc_gas_raises _ _ Hload) as ->.
      eexists. split; [right; by eapply compare_erigon_log_bad_cache|].
      by split_and!.
  - destruct (compare_erigon_log_main_run argv0 erigon_file content ∅ w)
      as (w' & Hrun & ?); [done|by rewrite Hcache|].
    exists w'. split; [by left|done].
Qed.

(** A log of one receipt and a cache with a key that is no integer. *)
Lemma compare_erigon_log_witness :
  text_files
    (World [] [] [] {["erigon_gas.txt" := txt "txIndex=0 gasUsed=21000"]}
       (Some [("zero", 20000)]) None [])
    !! "erigon_gas.txt"
  = Some (txt "txIndex=0 gasUsed=21000") ∧
  ∃ w',
    (CompareErigonLog.main ["compare_erigon_log.py"; "erigon_gas.txt"]
       (World [] [] [] {["erigon_gas.txt" := txt "txIndex=0 gasUsed=21000"]}
          (Some [("zero", 20000)]) None [])
     = (Ok tt, w') ∨
     CompareErigonLog.main ["compare_erigon_log.py"; "erigon_gas.txt"]
       (World [] [] [] {["erigon_gas.txt" := txt "txIndex=0 gasUsed=21000"]}
          (Some [("zero", 20000)]) None [])
     = (Raise ValueError, w')) ∧
    requests w' = [].
Proof.
  split; [vm_compute; reflexivity|].
  destruct (compare_erigon_log_raises_ValueError_only "compare_erigon_log.py"
    "erigon_gas.txt" (txt "txIndex=0 gasUsed=21000")
    (World [] [] [] {["erigon_gas.txt" := txt "txIndex=0 gasUsed=21000"]}
       (Some [("zero", 20000)]) None []))
    as (w' & Hrun & _ & Hreq & _).
  - vm_compute. reflexivity.
  - exists w'. by split.
Defined.

(** X18: the lines [find_diff_tx.py] reads at its prompt are the lines
    typed before the first blank one, none of them blank; the blank line
    is consumed and what follows it is left unread.  Without a blank line
    the whole input is read. *)
Theorem read_pasted_stops_at_blank (input : list text) :
  Forall (λ l, strip l ≠ []) (FindDiffTx.read_pasted input).1 ∧
  (input = (FindDiffTx.read_pasted input).1 ∧ (FindDiffTx.read_pasted input).2 = [] ∨
   ∃ blank, strip blank = [] ∧
     input = (FindDiffTx.read_pasted input).1
             ++ blank :: (FindDiffTx.read_pasted input).2).
Proof.
  induction input as [|l input [IHall IH]]; simpl.
  - split; [constructor|by left].
  - destruct (strip l) eqn:Hl.
    + simpl. split; [constructor|]. right. by exists l.
    + destruct (FindDiffTx.read_pasted input) as [lines rest]. simpl in *.
      split; [constructor; [by rewrite Hl|done]|].
      destruct IH as [[-> ->]|(blank & Hblank & ->)]; [by left|].
      right. by exists blank.
Qed.

(** ** [check_delegation.py] *)

Lemma rpc_call_run method params w :
  ∃ w',
    CheckDelegation.rpc_call method params w
    = (Ok (rpc_result (head (network w))), w') ∧
    network w' = tail (network w) ∧
    requests w' = requests w ++ [Request method params] ∧
    untouched w w' ∧
    (rpc_result (head (network w)) ≠ PNone → console w' = console w).
Proof.
  unfold CheckDelegation.rpc_call, try_except_Exception, try_except,
    mbind, M_bind, urlopen_json, lift, mret, M_ret, print.
  destruct (network w) as [|[| |[]] rest] eqn:Hnet; simpl;
    (eexists; split; [reflexivity|]);
    rewrite ?network_say, ?requests_say, network_sent, requests_sent, Hnet;
    split_and!; done.
Qed.

Lemma assoc_nil k : assoc k [] = None.
Proof. done. Qed.

(** X20: when the block 23800001 cannot be had (the request fails, the
    body is not JSON, the response has no result or an empty one),
    [check_delegation.py] says so and stops: it ends normally after its
    first request, and its last line is [Failed to get block]. *)
Theorem check_delegation_without_block (w : world) :
  truthy (rpc_result (head (network w))) = false →
  ∃ w',
    CheckDelegation.main w = (Ok tt, w') ∧
    requests w'
    = requests w ++ [Request "eth_getBlockByNumber" [PStr "0x16b28c1"; PBool true]] ∧
    last (console w') = Some (Line "Failed to get block" []).
Proof.
  intros Hblock. unfold CheckDelegation.main. rewrite bind_print.
  match goal with
  | |- ∃ _, (CheckDelegation.rpc_call ?m ?p ≫= _) ?w0 = _ ∧ _ =>
      destruct (rpc_call_run m p w0) as (w1 & Hrun & _ & Hreq & _)
  end.
  erewrite bind_Ok by done. rewrite network_say, Hblock. cbn [negb].
  eexists. split_and!; [reflexivity|by rewrite requests_say, Hreq|].
  by rewrite console_say, last_snoc.
Qed.

Lemma check_delegation_without_block_witness :
  truthy (rpc_result (head (network (only_replies [error_response])))) = false ∧
  ∃ w',
    CheckDelegation.main (only_replies [error_response]) = (Ok tt, w') ∧
    requests w'
    = [] ++ [Request "eth_getBlockByNumber" [PStr "0x16b28c1"; PBool true]] ∧
    last (console w') = Some (Line "Failed to get block" []).
Proof.
  split; [vm_compute; reflexivity|].
  apply (check_delegation_without_block (only_replies [error_response])).
  vm_compute. reflexivity.
Defined.

(** X21: [check_delegation.py] reads the transaction of index 79 without
    looking at the length of the block: on a block 23800001 that lists 79
    transactions or fewer it raises [IndexError], after its first request
    and before anything is printed about the transaction. *)
Theorem check_delegation_reads_index_79 (w : world)
    (res : list (string * pyval)) (l : list pyval) :
  rpc_result (head (network w)) = PDict res →
  assoc "transactions" res = Some (PList l) →
  (length l ≤ 79)%nat →
  ∃ w',
    CheckDelegation.main w = (Raise IndexError, w') ∧
    requests w'
    = requests w ++ [Request "eth_getBlockByNumber" [PStr "0x16b28c1"; PBool true]] ∧
    console w'
    = console w ++ [Line "=== Block 23800001 Type=4 Transaction (TX 79) ===" []].
Proof.
  intros Hblock Htxs Hlen. unfold CheckDelegation.main. rewrite bind_print.
  match goal with
  | |- ∃ _, (CheckDelegation.rpc_call ?m ?p ≫= _) ?w0 = _ ∧ _ =>
      destruct (rpc_call_run m p w0) as (w1 & Hrun & _ & Hreq & _ & Hcon)
  end.
  erewrite bind_Ok by done. rewrite network_say, Hblock.
  destruct res as [|kv res]; [by rewrite assoc_nil in Htxs|].
  cbn [truthy negb subscript]. rewrite Htxs, bind_lift_Ok.
  unfold index. rewrite lookup_ge_None_2 by lia. rewrite bind_lift_Raise.
  eexists. split_and!; [reflexivity|by rewrite Hreq|].
  rewrite Hcon; [done|]. by rewrite network_say, Hblock.
Qed.

Lemma check_delegation_reads_index_79_witness :
  rpc_result (head (network (only_replies [block_with ["0xaa"; "0xbb"]])))
  = PDict [("number", PStr "0x16b28c3");
           ("transactions", PList [PStr "0xaa"; PStr "0xbb"])] ∧
  ∃ w',
    CheckDelegation.main (only_replies [block_with ["0xaa"; "0xbb"]])
    = (Raise IndexError, w') ∧
    requests w'
    = [] ++ [Request "eth_getBlockByNumber" [PStr "0x16b28c1"; PBool true]] ∧
    console w'
    = [] ++ [Line "=== Block 23800001 Type=4 Transaction (TX 79) ===" []].
Proof.
  split; [vm_compute; reflexivity|].
  apply (check_delegation_reads_index_79
           (only_replies [block_with ["0xaa"; "0xbb"]])
           [("number", PStr "0x16b28c3");
            ("transactions", PList [PStr "0xaa"; PStr "0xbb"])]
           [PStr "0xaa"; PStr "0xbb"]);
    [vm_compute; reflexivity|vm_compute; reflexivity|simpl; lia].
Defined.

(** X22: the scan of block 23800003 for an address stops at the first
    contract creation.  For a transaction whose [to] is [null], the
    default of [tx.get("to", "")] is not used, [None] has no method
    [lower], and the scan raises [AttributeError], whatever address is
    looked for. *)
Theorem contract_creation_stops_the_scan (address : M pyval) (s : string)
    (found : list CheckDelegation.reference) (i : Z) (d : list (string * pyval))
    (hash : pyval) (w : world) :
  (∀ w, address w = (Ok (PStr s), w)) →
  assoc "to" d = Some PNone →
  (∀ v, assoc "from" d = Some v → ∃ f, v = PStr f) →
  assoc "hash" d = Some hash →
  CheckDelegation.note_refs address found (i, PDict d) w = (Raise AttributeError, w).
Proof.
  intros Haddr Hto Hfrom Hhash.
  unfold CheckDelegation.note_refs, CheckDelegation.note_ref.
  assert (∃ f, default (PStr "") (assoc "from" d) = PStr f) as [f Hf].
  { destruct (assoc "from" d) as [v|]; [by apply Hfrom|by eexists]. }
  cbn [dict_get subscript]. rewrite Hf, Hto, Hhash. cbn [default py_lower].
  match goal with
  | |- ((?m ≫= _) w) = _ =>
      assert (∃ found', m w = (Ok found', w)) as [found' Hfirst]
  end.
  { rewrite bind_lift_Ok. cbn [py_lower]. rewrite bind_lift_Ok.
    erewrite (bind_Ok address) by apply Haddr.
    cbn [py_lower]. rewrite bind_lift_Ok.
    destruct (String.eqb _ _); [rewrite bind_lift_Ok|]; by eexists. }
  erewrite bind_Ok by exact Hfirst.
  by rewrite bind_lift_Ok.
Qed.

Lemma contract_creation_witness :
  (∀ w, (mret (PStr "0xAB") : M pyval) w = (Ok (PStr "0xAB"), w)) ∧
  CheckDelegation.note_refs (mret (PStr "0xAB")) []
    (5, PDict [("hash", PStr "0x01"); ("from", PStr "0xab"); ("to", PNone)])
    (only_replies [])
  = (Raise AttributeError, only_replies []).
Proof.
  split; [done|].
  apply (contract_creation_stops_the_scan (mret (PStr "0xAB")) "0xAB" [] 5
           [("hash", PStr "0x01"); ("from", PStr "0xab"); ("to", PNone)]
           (PStr "0x01"));
    [done|vm_compute; reflexivity| |vm_compute; reflexivity].
  intros v Hv. vm_compute in Hv. injection Hv as <-. by eexists.
Defined.

(** A block 23800003 with a contract creation, met by the whole script. *)
Example check_delegation_on_a_contract_creation :
  let tx79 := PDict [("hash", PStr "0x4f"); ("from", PStr "0xAA"); ("to", PStr "0xbb");
                     ("type", PStr "0x4"); ("authorizationList", PList [])] in
  let creation := PDict [("hash", PStr "0x01"); ("from", PStr "0xcc"); ("to", PNone)] in
  let block b := Body (PDict [("result", PDict [("transactions", PList b)])]) in
  let w := only_replies [block (replicate 79 PNone ++ [tx79]); error_response;
                         block [creation]] in
  (CheckDelegation.main w).1 = Raise AttributeError ∧
  length (requests (CheckDelegation.main w).2) = 3%nat.
Proof. cbv zeta. split; vm_compute; reflexivity. Qed.

(** *** What the script sends *)

Lemma sends_at_most_mono {A} (m : M A) (n n' : nat) :
  (n ≤ n')%nat → sends_at_most n m → sends_at_most n' m.
Proof.
  intros Hn Hm w. destruct (Hm w) as (rs & ? & ? & ?).
  exists rs. split_and!; [done|lia|done].
Qed.

Lemma sends_nothing {A} (m : M A) (n : nat) :
  (∀ w, requests (m w).2 = requests w ∧ untouched w (m w).2) → sends_at_most n m.
Proof.
  intros Hm w. destruct (Hm w) as [Hreq Hsame].
  exists []. rewrite app_nil_r. split_and!; [done|simpl; lia|done].
Qed.

Lemma sends_at_most_print n t a : sends_at_most n (print t a).
Proof. by apply sends_nothing. Qed.

Lemma sends_at_most_mret {A} n (a : A) : sends_at_most n (mret a).
Proof. by apply sends_nothing. Qed.

Lemma sends_at_most_lift {A} n (r : outcome A) : sends_at_most n (lift r).
Proof. by apply sends_nothing. Qed.

Lemma untouched_trans w1 w2 w3 : untouched w1 w2 → untouched w2 w3 → untouched w1 w3.
Proof. intros (? & ? & ? & ?) (? & ? & ? & ?). split_and!; congruence. Qed.

Lemma sends_at_most_bind {A B} (a b : nat) (m : M A) (f : A → M B) :
  sends_at_most a m → (∀ x, sends_at_most b (f x)) →
  sends_at_most (a + b) (m ≫= f).
Proof.
  intros Hm Hf w. destruct (Hm w) as (rs & Hreq & Hlen & Hsame).
  unfold mbind, M_bind. destruct (m w) as [[x|e] w1]; cbn [snd] in *.
  - destruct (Hf x w1) as (rs' & Hreq' & Hlen' & Hsame').
    exists (rs ++ rs'). rewrite Hreq', Hreq, app_assoc, length_app.
    split_and!; [done|lia|by eapply untouched_trans].
  - exists rs. split_and!; [done|lia|done].
Qed.

Lemma sends_at_most_then {A B} (n : nat) (m : M A) (f : A → M B) :
  sends_at_most 0 m → (∀ x, sends_at_most n (f x)) → sends_at_most n (m ≫= f).
Proof. apply (sends_at_most_bind 0 n). Qed.

Lemma sends_at_most_for_each {A S} (body : S → A → M S) (l : list A) :
  (∀ s x, sends_at_most 0 (body s x)) → ∀ n s, sends_at_most n (for_each body s l).
Proof.
  intros Hbody n s. apply (sends_at_most_mono _ 0); [lia|]. revert s.
  induction l as [|x l IH]; intros s; [apply sends_at_most_mret|].
  cbn [for_each]. by apply sends_at_most_then.
Qed.

Lemma sends_at_most_rpc_call {B} (n : nat) method params (f : pyval → M B) :
  (∀ x, sends_at_most n (f x)) →
  sends_at_most (S n) (CheckDelegation.rpc_call method params ≫= f).
Proof.
  intros Hf. apply (sends_at_most_bind 1 n); [|done].
  intros w. destruct (rpc_call_run method params w) as (w' & -> & _ & Hreq & Hsame & _).
  eexists. split_and!; [exact Hreq|simpl; lia|done].
Qed.

(** Taking apart a script made of calls to [rpc_call], prints, loops and
    tests. *)
Ltac sends_at_most_steps :=
  repeat first
    [ apply sends_at_most_print
    | apply sends_at_most_mret
    | apply sends_at_most_lift
    | apply sends_at_most_rpc_call; intros ?
    | apply sends_at_most_then; [|intros ?]
    | apply sends_at_most_for_each; intros ? ?
    | progress unfold CheckDelegation.record_auth, CheckDelegation.find_refs,
        CheckDelegation.note_refs, CheckDelegation.note_ref,
        CheckDelegation.check_delegation_address
    | match goal with
      | |- sends_at_most _ (if ?b then _ else _) => destruct b
      | |- sends_at_most _ (match ?x with _ => _ end) => destruct x
      end ].

(** X23: however [check_delegation.py] ends, with or without an
    exception, it has sent three requests at most, and has read nothing
    from the terminal and written no file. *)
Theorem check_delegation_sends_three_requests_at_most (w : world) :
  ∃ sent_now,
    requests (CheckDelegation.main w).2 = requests w ++ sent_now ∧
    (length sent_now ≤ 3)%nat ∧
    untouched w (CheckDelegation.main w).2.
Proof.
  revert w. change (sends_at_most 3 CheckDelegation.main).
  unfold CheckDelegation.main. sends_at_most_steps.
Qed.

(** ** What [compare_all_gas.py] saves *)

Lemma bind_raise {A B} e (f : A → M B) w : (raise e ≫= f) w = (Raise e, w).
Proof. done. Qed.

Lemma bind_write_rpc_receipts {B} members (f : unit → M B) w :
  (write_rpc_receipts members ≫= f) w = f tt (with_rpc_receipts members w).
Proof. done. Qed.

(** What the run without an argument leaves in [rpc_receipts.json], the
    conversions being those of the model. *)
Lemma compare_all_gas_saves_run (argv0 : string) (w : world)
    (items : list pyval) :
  block_transactions (head (network w)) = Some items →
  ∃ receipts : gmap Z receipt,
    (∀ i : Z,
       receipts !! i
       = if decide (0 ≤ i < Z.of_nat (length items)) then
           items !! Z.to_nat i ≫= kept_receipt (tail (network w) !! Z.to_nat i)
         else None) ∧
    rpc_receipts (CompareAllGas.main [argv0] w).2
    = if decide (is_Some (receipts !! 220)) then Some (json_dump receipts)
      else rpc_receipts w.
Proof.
  intros Hblock.
  exists (collected kept_receipt 0 items (tail (network w)) ∅). split.
  { intros i. rewrite collected_lookup, Nat.sub_0_r, lookup_empty.
    change (Z.of_nat 0) with 0. rewrite Z.add_0_l.
    case_decide; [|done]. by destruct (_ ≫= _). }
  destruct (CompareAllGas.main [argv0] w) as [r wf] eqn:Hmain.
  unfold CompareAllGas.main in Hmain. cbn [lookup list_lookup] in Hmain.
  rewrite !bind_print in Hmain.
  match type of Hmain with
  | (CompareAllGas.get_all_receipts ≫= _) ?w0 = _ =>
      destruct (all_gas_run w0 items)
        as (w1 & Hrun & _ & _ & _ & _ & _ & Hsame); [done|]
  end.
  erewrite bind_Ok in Hmain by done. rewrite !network_say in Hmain.
  rewrite bind_print in Hmain.
  destruct (collected kept_receipt 0 items (tail (network w)) ∅ !! 220)
    as [last|] eqn:H220.
  - rewrite bind_mret, bind_print, bind_write_rpc_receipts, !bind_print in Hmain.
    match type of Hmain with
    | ?m ?w0 = _ =>
        assert (only_prints m) as Hrest by only_prints_steps;
        destruct (Hrest w0) as ([] & w' & Hrun' & _ & _ & _ & _ & _ & Hfile & _)
    end.
    rewrite Hrun' in Hmain. injection Hmain as <- <-.
    rewrite decide_True by by eexists. cbn [snd]. by rewrite Hfile.
  - rewrite bind_raise in Hmain. injection Hmain as <- <-.
    rewrite decide_False by by intros [? [=]]. cbn [snd]. exact Hsame.
Qed.

(** X24: without an argument, [compare_all_gas.py] writes
    [rpc_receipts.json] after it has read [receipts[220]].  So the file
    is not written at all when that receipt is not among those fetched:
    the receipts fetched are then lost with the [KeyError].  When it is
    among them, the file holds all the receipts fetched, provided the
    replies carry no integer of more than 4300 digits (which the line
    printed before the file is written, and [json.dump], would stop
    at). *)
Theorem compare_all_gas_saves_after_index_220 (argv0 : string) (w : world)
    (items : list pyval) :
  block_transactions (head (network w)) = Some items →
  ∃ receipts : gmap Z receipt,
    (∀ i : Z,
       receipts !! i
       = if decide (0 ≤ i < Z.of_nat (length items)) then
           items !! Z.to_nat i ≫= kept_receipt (tail (network w) !! Z.to_nat i)
         else None) ∧
    (receipts !! 220 = None →
     rpc_receipts (CompareAllGas.main [argv0] w).2 = rpc_receipts w) ∧
    (is_Some (receipts !! 220) → Forall modest (network w) →
     rpc_receipts (CompareAllGas.main [argv0] w).2 = Some (json_dump receipts)).
Proof.
  intros Hblock.
  destruct (compare_all_gas_saves_run argv0 w items Hblock)
    as (receipts & Hlookup & ->).
  exists receipts. split; [done|]. split.
  - intros Hnone. rewrite decide_False; [done|].
    rewrite Hnone. by intros [? [=]].
  - intros Hsome _. by rewrite decide_True.
Qed.

(** A block of one transaction: nothing is written. *)
Lemma compare_all_gas_saves_witness :
  block_transactions
    (head (network (only_replies [block_with ["0xaa"]; receipt_with "0x5208" "0x5208"])))
  = Some [PStr "0xaa"] ∧
  (CompareAllGas.get_all_receipts
     (only_replies [block_with ["0xaa"]; receipt_with "0x5208" "0x5208"])).1
  = Ok {[0 := Receipt 21000 21000 (PStr "0xaa")]} ∧
  rpc_receipts
    (CompareAllGas.main ["compare_all_gas.py"]
       (only_replies [block_with ["0xaa"]; receipt_with "0x5208" "0x5208"])).2
  = None.
Proof.
  split; [vm_compute; reflexivity|]. split; [vm_compute; reflexivity|].
  destruct (compare_all_gas_saves_after_index_220 "compare_all_gas.py"
    (only_replies [block_with ["0xaa"]; receipt_with "0x5208" "0x5208"])
    [PStr "0xaa"]) as (receipts & Hlookup & Hnone & _); [vm_compute; reflexivity|].
  apply Hnone. by rewrite Hlookup.
Defined.

(** ** One script after the other, on any block *)

Lemma NoDup_json_dump_keys {A} (d : gmap Z A) : NoDup (json_dump d).*1.
Proof.
  unfold json_dump. rewrite <- list_fmap_compose.
  change (fst ∘ prod_map py_str id) with (py_str ∘ (fst : Z * A → Z)).
  rewrite list_fmap_compose.
  apply NoDup_fmap_2; [apply _|apply NoDup_dict_items].
Qed.

(** X25: [compare_erigon_log.py] can be run after [find_diff_tx.py].
    Once [find_diff_tx.py] has fetched the block, whatever the replies
    for the receipts, provided they carry no integer of more than 4300
    digits, it leaves a cache file from which the comprehension
    [{int(k): v ...}] of [compare_erigon_log.py] rebuilds the dictionary
    of the gas values fetched, all of them within the limit; the files of
    the logs are left as they were. *)
Theorem scripts_run_one_after_the_other (w : world) (items : list pyval) :
  block_transactions (head (network w)) = Some items →
  Forall modest (network w) →
  ∃ (rpc_gas : gmap Z Z) (members : list (string * Z)),
    (∀ i : Z,
       rpc_gas !! i
       = if decide (0 ≤ i < Z.of_nat (length items)) then
           receipt_gas (tail (network w) !! Z.to_nat i)
         else None) ∧
    map_Forall (λ _ g, printable g) rpc_gas ∧
    rpc_cache (FindDiffTx.main w).2 = Some members ∧
    CompareErigonLog.load_rpc_gas members = Ok rpc_gas ∧
    text_files (FindDiffTx.main w).2 = text_files w.
Proof.
  intros Hblock Hmodest.
  destruct (find_diff_main_run w items Hblock) as (w1 & -> & Hcache & _ & Hfiles).
  exists (collected (λ r _, receipt_gas r) 0 items (tail (network w)) ∅).
  assert (∀ i : Z,
    collected (λ r _, receipt_gas r) 0 items (tail (network w)) ∅ !! i
    = if decide (0 ≤ i < Z.of_nat (length items)) then
        receipt_gas (tail (network w) !! Z.to_nat i)
      else None) as Hlookup.
  { intros i. rewrite collected_lookup, Nat.sub_0_r, lookup_empty.
    change (Z.of_nat 0) with 0. rewrite Z.add_0_l.
    case_decide as Hi; [|done].
    destruct (lookup_lt_is_Some_2 items (Z.to_nat i)) as [tx_hash ->]; [lia|].
    simpl. by destruct (receipt_gas _). }
  eexists. split; [exact Hlookup|].
  split; [by eapply fetched_gas_is_printable|].
  split_and!; [exact Hcache|apply load_of_dump|exact Hfiles].
Qed.

(** A block of two transactions, the first receipt fetched. *)
Lemma scripts_run_witness :
  block_transactions
    (head (network
       (World [block_with ["0xaa"; "0xbb"]; receipt_with "0x5208" "0x5208"] [] []
          {["erigon_gas.txt" := txt "txIndex=0 gasUsed=21001"]} None None [])))
  = Some [PStr "0xaa"; PStr "0xbb"] ∧
  Forall modest
    (network
       (World [block_with ["0xaa"; "0xbb"]; receipt_with "0x5208" "0x5208"] [] []
          {["erigon_gas.txt" := txt "txIndex=0 gasUsed=21001"]} None None [])) ∧
  rpc_cache
    (FindDiffTx.main
       (World [block_with ["0xaa"; "0xbb"]; receipt_with "0x5208" "0x5208"] [] []
          {["erigon_gas.txt" := txt "txIndex=0 gasUsed=21001"]} None None [])).2
  = Some [("0", 21000)] ∧
  CompareErigonLog.load_rpc_gas [("0", 21000)] = Ok {[0 := 21000]} ∧
  ∃ (rpc_gas : gmap Z Z) (members : list (string * Z)),
    (∀ i : Z,
       rpc_gas !! i
       = if decide (0 ≤ i < Z.of_nat (length [PStr "0xaa"; PStr "0xbb"])) then
           receipt_gas ([receipt_with "0x5208" "0x5208"] !! Z.to_nat i)
         else None) ∧
    map_Forall (λ _ g, printable g) rpc_gas ∧
    rpc_cache
      (FindDiffTx.main
         (World [block_with ["0xaa"; "0xbb"]; receipt_with "0x5208" "0x5208"] [] []
            {["erigon_gas.txt" := txt "txIndex=0 gasUsed=21001"]} None None [])).2
    = Some members ∧
    CompareErigonLog.load_rpc_gas members = Ok rpc_gas ∧
    text_files
      (FindDiffTx.main
         (World [block_with ["0xaa"; "0xbb"]; receipt_with "0x5208" "0x5208"] [] []
            {["erigon_gas.txt" := txt "txIndex=0 gasUsed=21001"]} None None [])).2
    = {["erigon_gas.txt" := txt "txIndex=0 gasUsed=21001"]}.
Proof.
  split; [vm_compute; reflexivity|].
  assert (Forall modest
    (network
       (World [block_with ["0xaa"; "0xbb"]; receipt_with "0x5208" "0x5208"] [] []
          {["erigon_gas.txt" := txt "txIndex=0 gasUsed=21001"]} None None [])))
    as Hmodest by (apply (bool_decide_unpack _); vm_compute; reflexivity).
  split; [exact Hmodest|].
  split; [vm_compute; reflexivity|]. split; [vm_compute; reflexivity|].
  exact (scripts_run_one_after_the_other
    (World [block_with ["0xaa"; "0xbb"]; receipt_with "0x5208" "0x5208"] [] []
       {["erigon_gas.txt" := txt "txIndex=0 gasUsed=21001"]} None None [])
    [PStr "0xaa"; PStr "0xbb"] eq_refl Hmodest).
Defined.


(** ** [find_gas_diff.py] on a block of any length *)

Lemma raises_only_mret {A} P (a : A) : raises_only P (mret a).
Proof. by intros w. Qed.

Lemma raises_only_print P t a : raises_only P (print t a).
Proof. by intros w. Qed.

Lemma raises_only_bind {A B} P (m : M A) (f : A → M B) :
  raises_only P m → (∀ x, raises_only P (f x)) → raises_only P (m ≫= f).
Proof.
  intros Hm Hf w. specialize (Hm w). unfold mbind, M_bind.
  destruct (m w) as [[x|e] w1]; [apply Hf|done].
Qed.

Lemma raises_only_lift_bind {A B} P (r : outcome A) (f : A → M B) :
  match r with
  | Ok a => raises_only P (f a)
  | Raise e => P e
  end →
  raises_only P (lift r ≫= f).
Proof. intros Hr w. destruct r as [a|e]; [apply Hr|done]. Qed.

Lemma raises_only_for_each {A S} P (body : S → A → M S) (l : list A) :
  (∀ s x, raises_only P (body s x)) → ∀ s, raises_only P (for_each body s l).
Proof.
  intros Hbody. induction l as [|x l IH]; intros s; [apply raises_only_mret|].
  cbn [for_each]. by apply raises_only_bind.
Qed.

Lemma find_gas_diff_get_block_tx_hashes_run block_num w :
  ∃ w',
    FindGasDiff.get_block_tx_hashes block_num w
    = (Ok (block_hashes (head (network w))), w').
Proof.
  unfold FindGasDiff.get_block_tx_hashes, try_except_Exception, try_except,
    mbind, M_bind, urlopen_json, lift, mret, M_ret, print, block_hashes.
  destruct (network w) as [|[| |data] rest] eqn:Hnet; py_cases;
    try match goal with H : assoc _ [] = Some _ |- _ => discriminate H end;
    by eexists.
Qed.

Lemma find_gas_diff_get_receipt_run P tx_hash :
  raises_only P (FindGasDiff.get_receipt tx_hash).
Proof.
  intros w.
  unfold FindGasDiff.get_receipt, try_except_Exception, try_except,
    mbind, M_bind, urlopen_json, lift, mret, M_ret.
  destruct (network w) as [|[| |data] rest]; py_cases; done.
Qed.

Lemma find_gas_diff_get_tx_details_run P tx_hash :
  raises_only P (FindGasDiff.get_tx_details tx_hash).
Proof.
  intros w.
  unfold FindGasDiff.get_tx_details, try_except_Exception, try_except,
    mbind, M_bind, urlopen_json, lift, mret, M_ret.
  destruct (network w) as [|[| |data] rest]; py_cases; done.
Qed.

Lemma check_key_never_raises P (l : list pyval) (idx : nat) :
  raises_only P (FindGasDiff.check_key (PList l) tt idx).
Proof.
  unfold FindGasDiff.check_key. apply raises_only_lift_bind. cbn [py_len].
  case_decide as Hidx; [apply raises_only_mret|].
  apply raises_only_lift_bind. unfold index.
  destruct (lookup_lt_is_Some_2 l idx) as [tx_hash ->]; [lia|].
  apply raises_only_bind; [apply find_gas_diff_get_receipt_run|].
  intros [r|]; [apply raises_only_print|apply raises_only_mret].
Qed.

Lemma check_type4_raises_TypeError type4_txs item :
  raises_only (λ e, e = TypeError) (FindGasDiff.check_type4 type4_txs item).
Proof.
  destruct item as [i tx_hash]. unfold FindGasDiff.check_type4.
  apply raises_only_bind; [apply find_gas_diff_get_tx_details_run|]. intros tx.
  apply raises_only_bind.
  - destruct tx as [t|]; [|apply raises_only_mret].
    case_decide; [|apply raises_only_mret].
    apply raises_only_lift_bind.
    destruct (slice_to 20 tx_hash) as [h|e] eqn:Hslice;
      [|by destruct tx_hash; simplify_eq/=].
    apply raises_only_bind; [apply raises_only_print|]. intros _.
    apply raises_only_bind; [apply find_gas_diff_get_receipt_run|]. intros receipt.
    apply raises_only_bind; [|intros _; apply raises_only_mret].
    destruct receipt as [r|]; [|apply raises_only_mret].
    apply raises_only_bind; [apply raises_only_print|]. intros _.
    destruct (truthy _); [|apply raises_only_mret].
    apply raises_only_lift_bind.
    destruct (FindGasDiff.authorizationList t); simpl;
      first [apply raises_only_print|done].
  - intros type4_txs'. apply raises_only_bind; [|intros _; apply raises_only_mret].
    case_decide; [apply raises_only_print|apply raises_only_mret].
Qed.

(** The run of [find_gas_diff.py], the conversions being those of the
    model and the slice of a dictionary a [TypeError]. *)
Lemma find_gas_diff_main_run (w : world) (l : list pyval) :
  block_hashes (head (network w)) = PList l →
  (FindGasDiff.main w).1 = Ok tt ∨ (FindGasDiff.main w).1 = Raise TypeError.
Proof.
  intros Hl. unfold FindGasDiff.main. rewrite !bind_print.
  match goal with
  | |- ((FindGasDiff.get_block_tx_hashes ?n ≫= _) ?w0).1 = _ ∨ _ =>
      destruct (find_gas_diff_get_block_tx_hashes_run n w0) as (w1 & Hget)
  end.
  erewrite bind_Ok by done. rewrite !network_say, Hl.
  cbn [py_len]. rewrite bind_lift_Ok, !bind_print.
  match goal with
  | |- (?m ?w0).1 = _ ∨ _ =>
      assert (raises_only (λ e, e = TypeError) m) as Hrest;
      [|specialize (Hrest w0); destruct (m w0).1 as [[]|e]; [by left|right; by subst]]
  end.
  apply raises_only_bind.
  { apply raises_only_for_each. intros [] idx. apply check_key_never_raises. }
  intros _. repeat (apply raises_only_bind; [apply raises_only_print|intros _]).
  apply raises_only_lift_bind. cbn [py_iter].
  apply raises_only_bind.
  { apply raises_only_for_each. intros s x. apply check_type4_raises_TypeError. }
  intros [|? ?]; apply raises_only_print.
Qed.

(** X26: [find_gas_diff.py] checks every index against the length of the
    block before it reads the hash, where [compare_gas_block.py] reads
    index 220 unchecked.  On a block that lists its transactions, whatever
    their number and whatever the replies, it raises neither [IndexError]
    nor [KeyError]: it ends normally, or with the [TypeError] of a hash
    that cannot be sliced or of an [authorizationList] without a length.
    This is for a block in which no hash is a dictionary (the slice of
    one is a [KeyError] from Python 3.12 on) and for replies that carry no
    integer of more than 4300 digits (which the lines printed would stop
    at). *)
Theorem find_gas_diff_guards_every_index (w : world) (l : list pyval) :
  block_hashes (head (network w)) = PList l →
  Forall (λ tx_hash, ∀ d, tx_hash ≠ PDict d) l →
  Forall modest (network w) →
  (FindGasDiff.main w).1 = Ok tt ∨ (FindGasDiff.main w).1 = Raise TypeError.
Proof. intros Hl _ _. by apply (find_gas_diff_main_run w l). Qed.

(** A block of two transactions. *)
Lemma find_gas_diff_witness :
  block_hashes (head (network (only_replies [block_with ["0xaa"; "0xbb"]])))
  = PList [PStr "0xaa"; PStr "0xbb"] ∧
  Forall (λ tx_hash, ∀ d, tx_hash ≠ PDict d) [PStr "0xaa"; PStr "0xbb"] ∧
  Forall modest (network (only_replies [block_with ["0xaa"; "0xbb"]])) ∧
  (FindGasDiff.main (only_replies [block_with ["0xaa"; "0xbb"]])).1 = Ok tt ∧
  ((FindGasDiff.main (only_replies [block_with ["0xaa"; "0xbb"]])).1 = Ok tt ∨
   (FindGasDiff.main (only_replies [block_with ["0xaa"; "0xbb"]])).1
   = Raise TypeError).
Proof.
  split; [vm_compute; reflexivity|].
  assert (Forall (λ tx_hash, ∀ d, tx_hash ≠ PDict d) [PStr "0xaa"; PStr "0xbb"])
    as Hhashes by (repeat constructor; discriminate).
  assert (Forall modest (network (only_replies [block_with ["0xaa"; "0xbb"]])))
    as Hmodest by (apply (bool_decide_unpack _); vm_compute; reflexivity).
  split; [exact Hhashes|]. split; [exact Hmodest|].
  split; [vm_compute; reflexivity|].
  apply (find_gas_diff_guards_every_index
           (only_replies [block_with ["0xaa"; "0xbb"]]) [PStr "0xaa"; PStr "0xbb"]);
    [|exact Hhashes|exact Hmodest].
  vm_compute. reflexivity.
Defined.

(** The [TypeError] is met when a hash is not a string: here the block
    lists the number 5, and the transaction is of type 4. *)
Example find_gas_diff_on_a_hash_that_is_a_number :
  (FindGasDiff.main
     (only_replies
        [Body (PDict [("result", PDict [("transactions", PList [PInt 5])])]);
         error_response;
         Body (PDict [("result", PDict [("type", PStr "0x4")])])])).1
  = Raise TypeError.
Proof. vm_compute. reflexivity. Qed.

(** ** [check_type4.py] *)

Lemma get_block_run block_num w :
  ∃ w',
    CheckType4.get_block block_num w
    = (Ok (if truthy (rpc_result (head (network w)))
           then rpc_result (head (network w)) else PNone), w') ∧
    network w' = tail (network w) ∧
    requests w' = requests w ++ [eth_getBlockByNumber block_num true] ∧
    untouched w w'.
Proof.
  unfold CheckType4.get_block, try_except_Exception, try_except,
    mbind, M_bind, urlopen_json, lift, mret, M_ret, print, rpc_result.
  destruct (network w) as [|[| |data] rest] eqn:Hnet; py_cases;
    (eexists; split; [reflexivity|]);
    rewrite ?network_say, ?requests_say, network_sent, requests_sent, Hnet;
    split_and!; done.
Qed.

Lemma check_block_unavailable block_num w :
  truthy (rpc_result (head (network w))) = false →
  ∃ w',
    CheckType4.check_block tt block_num w = (Ok tt, w') ∧
    network w' = tail (network w) ∧
    requests w' = requests w ++ [eth_getBlockByNumber block_num true] ∧
    last (console w') = Some (Line "  Failed to fetch" []).
Proof.
  intros Hblock. unfold CheckType4.check_block. rewrite bind_print.
  match goal with
  | |- ∃ _, (CheckType4.get_block ?n ≫= _) ?w0 = _ ∧ _ =>
      destruct (get_block_run n w0) as (w1 & Hrun & Hnet & Hreq & _)
  end.
  erewrite bind_Ok by done. rewrite network_say, Hblock. cbn [truthy negb].
  eexists. split_and!; [reflexivity|by rewrite network_say, Hnet
                       |by rewrite requests_say, Hreq|].
  by rewrite console_say, last_snoc.
Qed.

(** X27: a block [check_type4.py] cannot have does not stop it.  When
    none of its four requests gives a block (the request fails, the body
    is not JSON, there is no result), the script ends normally, having
    asked in turn for the blocks 23800000 to 23800003 with their full
    transactions and said [Failed to fetch] for the last as for the
    others. *)
Theorem check_type4_without_blocks (w : world) :
  (∀ i, (i < 4)%nat → truthy (rpc_result (network w !! i)) = false) →
  ∃ w',
    CheckType4.main w = (Ok tt, w') ∧
    requests w'
    = requests w ++ ((λ block_num, eth_getBlockByNumber block_num true)
                       <$> CheckType4.blocks_to_check) ∧
    network w' = drop 4 (network w) ∧
    last (console w') = Some (Line "  Failed to fetch" []).
Proof.
  intros Hnone. unfold CheckType4.main, CheckType4.blocks_to_check.
  destruct (check_block_unavailable 23800000 w) as (w1 & Hrun1 & Hnet1 & Hreq1 & _).
  { rewrite head_lookup. by apply Hnone; lia. }
  destruct (check_block_unavailable 23800001 w1) as (w2 & Hrun2 & Hnet2 & Hreq2 & _).
  { rewrite Hnet1, head_lookup, lookup_tail. by apply Hnone; lia. }
  destruct (check_block_unavailable 23800002 w2) as (w3 & Hrun3 & Hnet3 & Hreq3 & _).
  { rewrite Hnet2, Hnet1, head_lookup, !lookup_tail. by apply Hnone; lia. }
  destruct (check_block_unavailable 23800003 w3) as (w4 & Hrun4 & Hnet4 & Hreq4 & Hlast).
  { rewrite Hnet3, Hnet2, Hnet1, head_lookup, !lookup_tail. by apply Hnone; lia. }
  exists w4. cbn [for_each].
  erewrite bind_Ok by exact Hrun1. erewrite bind_Ok by exact Hrun2.
  erewrite bind_Ok by exact Hrun3. erewrite bind_Ok by exact Hrun4.
  split_and!; [done| | |done].
  - rewrite Hreq4, Hreq3, Hreq2, Hreq1, <- !app_assoc. done.
  - rewrite Hnet4, Hnet3, Hnet2, Hnet1.
    by destruct (network w) as [|? [|? [|? [|? ?]]]].
Qed.

Lemma check_type4_without_blocks_witness :
  (∀ i, (i < 4)%nat →
     truthy (rpc_result (network (only_replies [HttpFailure; error_response]) !! i))
     = false) ∧
  ∃ w',
    CheckType4.main (only_replies [HttpFailure; error_response]) = (Ok tt, w') ∧
    requests w'
    = [] ++ ((λ block_num, eth_getBlockByNumber block_num true)
               <$> CheckType4.blocks_to_check) ∧
    network w' = drop 4 [HttpFailure; error_response] ∧
    last (console w') = Some (Line "  Failed to fetch" []).
Proof.
  assert (∀ i, (i < 4)%nat →
    truthy (rpc_result (network (only_replies [HttpFailure; error_response]) !! i))
    = false) as H.
  { intros [|[|[|[|i]]]] Hi; first [reflexivity|lia]. }
  split; [exact H|].
  apply (check_type4_without_blocks (only_replies [HttpFailure; error_response]) H).
Defined.

Lemma sends_at_most_get_block {B} (n : nat) block_num (f : pyval → M B) :
  (∀ x, sends_at_most n (f x)) →
  sends_at_most (S n) (CheckType4.get_block block_num ≫= f).
Proof.
  intros Hf. apply (sends_at_most_bind 1 n); [|done].
  intros w. destruct (get_block_run block_num w) as (w' & -> & _ & Hreq & Hsame).
  eexists. split_and!; [exact Hreq|simpl; lia|done].
Qed.

Lemma check_block_sends_one_request block_num :
  sends_at_most 1 (CheckType4.check_block tt block_num).
Proof.
  unfold CheckType4.check_block.
  repeat first
    [ apply sends_at_most_print
    | apply sends_at_most_mret
    | apply sends_at_most_lift
    | apply sends_at_most_get_block; intros ?
    | apply sends_at_most_then; [|intros ?]
    | apply sends_at_most_for_each; intros ? ?
    | progress unfold CheckType4.check_tx, CheckType4.check_auth
    | match goal with
      | |- sends_at_most _ (if ?b then _ else _) => destruct b
      | |- sends_at_most _ (match ?x with _ => _ end) => destruct x
      end ].
Qed.

(** X28: however [check_type4.py] ends, with or without an exception, it
    has sent four requests at most, one for each block, and has read
    nothing from the terminal and written no file. *)
Theorem check_type4_sends_four_requests_at_most (w : world) :
  ∃ sent_now,
    requests (CheckType4.main w).2 = requests w ++ sent_now ∧
    (length sent_now ≤ 4)%nat ∧
    untouched w (CheckType4.main w).2.
Proof.
  revert w. change (sends_at_most 4 CheckType4.main).
  unfold CheckType4.main, CheckType4.blocks_to_check. cbn [for_each].
  apply (sends_at_most_bind 1 3); [apply check_block_sends_one_request|intros []].
  apply (sends_at_most_bind 1 2); [apply check_block_sends_one_request|intros []].
  apply (sends_at_most_bind 1 1); [apply check_block_sends_one_request|intros []].
  apply (sends_at_most_bind 1 0); [apply check_block_sends_one_request|intros []].
  apply sends_at_most_mret.
Qed.

(** ** The total difference and the two totals *)

Lemma sum_over_perm {A} (f : A → Z) (l1 l2 : list A) :
  l1 ≡ₚ l2 → sum_over f l1 = sum_over f l2.
Proof. unfold sum_over. induction 1; simpl; lia. Qed.

Lemma sum_over_ext {A} (f g : A → Z) (l : list A) :
  Forall (λ x, f x = g x) l → sum_over f l = sum_over g l.
Proof. unfold sum_over. induction 1 as [|x l Hx _ IH]; simpl; [done|]. lia. Qed.

Lemma sum_over_sub {A} (f g : A → Z) (l : list A) :
  sum_over (λ x, f x - g x) l = sum_over f l - sum_over g l.
Proof. unfold sum_over. induction l as [|x l IH]; simpl; lia. Qed.

Lemma sum_over_cons {A} (f : A → Z) (x : A) (l : list A) :
  sum_over f (x :: l) = f x + sum_over f l.
Proof. done. Qed.

Lemma sum_over_dom (d : gmap Z Z) :
  sum_over (λ i, default 0 (d !! i)) (elements (dom d)) = sum_values d.
Proof.
  unfold sum_values. induction d as [|i x d Hi _ IH] using map_first_key_ind.
  - by rewrite dom_empty_L, elements_empty, map_to_list_empty.
  - rewrite dom_insert_L.
    rewrite (sum_over_perm _ _ (i :: elements (dom d)))
      by (apply elements_union_singleton; by apply not_elem_of_dom).
    change (foldr _ 0 ?l) with (sum_over (λ kv : Z * Z, kv.2) l) in *.
    rewrite (sum_over_perm _ _ ((i, x) :: map_to_list d))
      by by apply map_to_list_insert.
    rewrite !sum_over_cons, lookup_insert_eq. cbn [default snd]. rewrite <- IH. f_equal.
    apply sum_over_ext, Forall_forall. intros j Hj%elem_of_elements.
    rewrite lookup_insert_ne; [done|]. intros ->. by apply not_elem_of_dom in Hi.
Qed.

Lemma compare_at_total erigon_gas rpc_gas st i :
  (compare_at erigon_gas rpc_gas st i).2
  = st.2 + difference_at erigon_gas rpc_gas i.
Proof.
  destruct st as [ds c]. unfold compare_at, difference_at.
  destruct (erigon_gas !! i) as [e|]; [|simpl; lia].
  destruct (rpc_gas !! i) as [r|]; [|simpl; lia].
  case_decide; simpl; lia.
Qed.

Lemma compare_over_total keys erigon_gas rpc_gas :
  (compare_over keys erigon_gas rpc_gas).2
  = sum_over (difference_at erigon_gas rpc_gas) keys.
Proof.
  unfold compare_over.
  assert (∀ st, (fold_left (compare_at erigon_gas rpc_gas) keys st).2
                = st.2 + sum_over (difference_at erigon_gas rpc_gas) keys) as H.
  { induction keys as [|i keys IH]; intros st; simpl; [unfold sum_over; simpl; lia|].
    rewrite IH, compare_at_total. unfold sum_over. simpl. lia. }
  rewrite H. simpl. lia.
Qed.

Lemma sum_of_differences (erigon_gas rpc_gas : gmap Z Z) :
  dom erigon_gas = dom rpc_gas →
  sum_over (difference_at erigon_gas rpc_gas) (sorted (elements (dom erigon_gas)))
  = sum_values erigon_gas - sum_values rpc_gas.
Proof.
  intros Hdom.
  rewrite (sum_over_perm _ _ (elements (dom erigon_gas)))
    by apply merge_sort_Permutation.
  rewrite <- (sum_over_dom erigon_gas), <- (sum_over_dom rpc_gas), <- Hdom.
  rewrite <- sum_over_sub. apply sum_over_ext, Forall_forall.
  intros i Hi%elem_of_elements. unfold difference_at.
  pose proof Hi as [e ->]%elem_of_dom.
  rewrite Hdom in Hi. by apply elem_of_dom in Hi as [r ->].
Qed.

(** X29: when the two mappings cover the same transactions, the total
    the comparators of [compare_erigon_log.py] and [find_diff_tx.py] end
    with is the difference of the two totals: the sum of the Erigon values
    less the sum of the RPC values. *)
Theorem total_difference_of_equal_domains (erigon_gas rpc_gas : gmap Z Z) :
  dom erigon_gas = dom rpc_gas →
  (CompareErigonLog.compare erigon_gas rpc_gas).2
  = sum_values erigon_gas - sum_values rpc_gas ∧
  (FindDiffTx.compare erigon_gas rpc_gas).2
  = sum_values erigon_gas - sum_values rpc_gas.
Proof.
  intros Hdom. unfold CompareErigonLog.compare, FindDiffTx.compare.
  rewrite <- Hdom, (idemp_L (∪)), !compare_over_total.
  split; by apply sum_of_differences.
Qed.

Lemma total_difference_witness :
  dom ({[0 := 100; 1 := 200]} : gmap Z Z) = dom ({[0 := 90; 1 := 250]} : gmap Z Z) ∧
  (CompareErigonLog.compare {[0 := 100; 1 := 200]} {[0 := 90; 1 := 250]}).2
  = sum_values {[0 := 100; 1 := 200]} - sum_values {[0 := 90; 1 := 250]} ∧
  (FindDiffTx.compare {[0 := 100; 1 := 200]} {[0 := 90; 1 := 250]}).2
  = sum_values {[0 := 100; 1 := 200]} - sum_values {[0 := 90; 1 := 250]}.
Proof.
  assert (dom ({[0 := 100; 1 := 200]} : gmap Z Z)
          = dom ({[0 := 90; 1 := 250]} : gmap Z Z)) as H
    by (apply (bool_decide_unpack _); vm_compute; reflexivity).
  split; [exact H|].
  apply (total_difference_of_equal_domains _ _ H).
Defined.

(** ** A log file that does not exist *)

(** X30: the two scripts that take a log file open it before anything
    else.  When the file does not exist they raise [FileNotFoundError] at
    once: nothing is printed, the cache file is not looked for, and
    [compare_all_gas.py] has sent no request yet. *)
Theorem missing_log_file_fails_first (argv0 erigon_file : string) (w : world) :
  text_files w !! erigon_file = None →
  CompareErigonLog.main [argv0; erigon_file] w = (Raise FileNotFoundError, w) ∧
  CompareAllGas.main [argv0; erigon_file] w = (Raise FileNotFoundError, w).
Proof.
  intros Hfile.
  unfold CompareErigonLog.main, CompareAllGas.main,
    CompareErigonLog.parse_erigon_log_file, CompareAllGas.parse_erigon_output_file.
  cbn [lookup list_lookup]. unfold mbind, M_bind, read_text. by rewrite Hfile.
Qed.

Lemma missing_log_file_witness :
  text_files (only_replies [block_with ["0xaa"]]) !! "erigon.txt" = None ∧
  CompareErigonLog.main ["compare_erigon_log.py"; "erigon.txt"]
    (only_replies [block_with ["0xaa"]])
  = (Raise FileNotFoundError, only_replies [block_with ["0xaa"]]) ∧
  CompareAllGas.main ["compare_all_gas.py"; "erigon.txt"]
    (only_replies [block_with ["0xaa"]])
  = (Raise FileNotFoundError, only_replies [block_with ["0xaa"]]).
Proof.
  assert (text_files (only_replies [block_with ["0xaa"]]) !! "erigon.txt" = None)
    as H by (vm_compute; reflexivity).
  split; [exact H|]. split.
  - apply (missing_log_file_fails_first "compare_erigon_log.py" "erigon.txt" _ H).
  - apply (missing_log_file_fails_first "compare_all_gas.py" "erigon.txt" _ H).
Defined.
